(** * Elden Ring Save Manager: the save-container core (save-manager.js)

    A shallow embedding of the binary parser, the slot extractor, the stats
    locator and codec, the checksum engine and the slot copy of
    [EldenRingSaveManager], together with its helper class [BufferReader].

    Conventions.
    - A Node [Buffer] is a [list Z] of bytes; offsets and lengths are [Z]
      (JavaScript numbers that hold integers).
    - A JavaScript string is the list of its UTF-16 code units.
    - A JavaScript exception is [Throw e]; a loop that never ends is
      [Diverge]; everything else is [Ok v]. *)

From Stdlib Require Import ZArith Lia Ascii String DecimalString.
From stdpp Require Import base numbers option list sorting gmap.

Local Open Scope Z_scope.

(** ** Outcomes of JavaScript calls *)

Inductive error : Type :=
  | OutOfBounds          (* RangeError of a Buffer read or write: bad offset *)
  | ValueOutOfRange      (* RangeError of a Buffer write: bad value *)
  | BadMagic             (* 'Invalid save file format. Expected BND4.' *)
  | UnknownTableFormat   (* 'Unknown file table format' *)
  | UnknownEncoding      (* TypeError of toString: 'Unknown encoding' *)
  | TargetSlotNotFound   (* 'Target save slot ... not found' *)
  | StatsNotFound.       (* 'Could not find character stats' *)

Inductive outcome (A : Type) : Type :=
  | Ok (a : A)
  | Throw (e : error)
  | Diverge.
Arguments Ok {A} a.
Arguments Throw {A} e.
Arguments Diverge {A}.

Global Instance outcome_ret : MRet outcome := fun A a => Ok a.
Global Instance outcome_bind : MBind outcome := fun A B f m =>
  match m with
  | Ok a => f a
  | Throw e => Throw e
  | Diverge => Diverge
  end.

Global Instance outcome_fmap : FMap outcome := fun A B f m =>
  match m with
  | Ok a => Ok (f a)
  | Throw e => Throw e
  | Diverge => Diverge
  end.

(** ** JavaScript strings *)

Abbreviation jsstring := (list Z) (only parsing).

(** A string literal of the source, as code units. *)
Definition lit (s : string) : jsstring :=
  (fun a => Z.of_nat (nat_of_ascii a)) <$> list_ascii_of_string s.

Definition jsstring_eqb (a b : jsstring) : bool := bool_decide (a = b).

(** [String.prototype.startsWith] *)
Definition startsWith (s prefix : jsstring) : bool :=
  bool_decide (take (length prefix) s = prefix).

(** [String.prototype.substring] with one argument that is a non-negative
    integer literal. *)
Definition substring (s : jsstring) (start : nat) : jsstring := drop start s.

(** WhiteSpace and LineTerminator code units of ECMAScript, the set that
    [parseInt] and [trim] strip. *)
Definition isWhiteSpace (c : Z) : bool :=
  ((9 <=? c) && (c <=? 13)) || (c =? 32) || (c =? 160) || (c =? 5760)
  || ((8192 <=? c) && (c <=? 8202)) || (c =? 8232) || (c =? 8233)
  || (c =? 8239) || (c =? 8287) || (c =? 12288) || (c =? 65279).

Fixpoint trimStart (s : jsstring) : jsstring :=
  match s with
  | c :: s' => if isWhiteSpace c then trimStart s' else s
  | [] => []
  end.

Definition trim (s : jsstring) : jsstring :=
  reverse (trimStart (reverse (trimStart s))).

(** A JavaScript number as far as this program needs it: NaN or an integer.
    ([parseInt] rounds integers beyond 2^53 to a double; every use below
    only compares such a value with 9 or seeks far outside the buffer, which
    the exact integer decides the same way. Minus zero is 0.) *)
Inductive jsnum : Type :=
  | NaN
  | Int (z : Z).

Global Instance jsnum_eq_dec : EqDecision jsnum.
Proof. solve_decision. Defined.

(** Value of a code unit as a digit of the given radix. *)
Definition digitValue (radix c : Z) : option Z :=
  let v :=
    if (48 <=? c) && (c <=? 57) then c - 48
    else if (97 <=? c) && (c <=? 122) then c - 97 + 10
    else if (65 <=? c) && (c <=? 90) then c - 65 + 10
    else 36 in
  if v <? radix then Some v else None.

(** The longest prefix of radix digits, accumulated most significant first;
    [None] while no digit was seen. *)
Fixpoint parseDigits (radix : Z) (acc : option Z) (s : jsstring) : option Z :=
  match s with
  | [] => acc
  | c :: s' =>
      match digitValue radix c with
      | Some v => parseDigits radix (Some (default 0 acc * radix + v)) s'
      | None => acc
      end
  end.

(** [parseInt(string)] with no radix argument (ECMAScript 19.2.5). *)
Definition parseInt (input : jsstring) : jsnum :=
  let s := trimStart input in
  let '(sign, s) :=
    match s with
    | 45 :: s' => (-1, s')
    | 43 :: s' => (1, s')
    | _ => (1, s)
    end in
  let '(radix, s) :=
    match s with
    | 48 :: 120 :: s' => (16, s')
    | 48 :: 88 :: s' => (16, s')
    | _ => (10, s)
    end in
  match parseDigits radix None s with
  | None => NaN
  | Some n => Int (sign * n)
  end.

(** ** Node Buffers *)

Abbreviation Buffer := (list Z) (only parsing).

Module Buf.

Definition blength (b : Buffer) : Z := Z.of_nat (length b).

(** [buffer[i]]: [None] is JavaScript's [undefined]. *)
Definition at_index (b : Buffer) (i : Z) : option Z :=
  if i <? 0 then None else b !! Z.to_nat i.

(** [adjustOffset] of lib/buffer.js, used by [slice]. *)
Definition adjustOffset (offset len : Z) : Z :=
  if offset =? 0 then 0
  else if offset <? 0 then
    (if 0 <? offset + len then offset + len else 0)
  else if offset <? len then offset
  else len.

(** [buffer.slice(start, end)]: clamps, never throws. *)
Definition slice (b : Buffer) (start end_ : Z) : Buffer :=
  let s := adjustOffset start (blength b) in
  let e := adjustOffset end_ (blength b) in
  let newLength := if s <? e then e - s else 0 in
  take (Z.to_nat newLength) (drop (Z.to_nat s) b).

(** [buffer.slice(start)] *)
Definition slice_from (b : Buffer) (start : Z) : Buffer :=
  slice b start (blength b).

(** [buffer.readUInt8(offset)] *)
Definition readUInt8 (b : Buffer) (offset : Z) : outcome Z :=
  match at_index b offset with
  | Some v => Ok v
  | None => Throw OutOfBounds
  end.

(** [buffer.readUInt16LE(offset)] *)
Definition readUInt16LE (b : Buffer) (offset : Z) : outcome Z :=
  match at_index b offset, at_index b (offset + 1) with
  | Some first, Some last => Ok (first + last * 2 ^ 8)
  | _, _ => Throw OutOfBounds
  end.

(** Two's complement reading of an unsigned [w]-bit value. *)
Definition toSigned (w v : Z) : Z :=
  if v <? 2 ^ (w - 1) then v else v - 2 ^ w.

(** [buffer.readInt32LE(offset)] *)
Definition readInt32LE (b : Buffer) (offset : Z) : outcome Z :=
  match at_index b offset, at_index b (offset + 1),
        at_index b (offset + 2), at_index b (offset + 3) with
  | Some first, Some b1, Some b2, Some last =>
      Ok (toSigned 32 (first + b1 * 2 ^ 8 + b2 * 2 ^ 16 + last * 2 ^ 24))
  | _, _, _, _ => Throw OutOfBounds
  end.

(** Little-endian value of a list of bytes. *)
Fixpoint le_value (bs : list Z) : Z :=
  match bs with
  | [] => 0
  | x :: bs' => x + 256 * le_value bs'
  end.

(** [buffer.readBigInt64LE(offset)] *)
Definition readBigInt64LE (b : Buffer) (offset : Z) : outcome Z :=
  match at_index b offset, at_index b (offset + 7) with
  | Some _, Some _ =>
      Ok (toSigned 64 (le_value (take 8 (drop (Z.to_nat offset) b))))
  | _, _ => Throw OutOfBounds
  end.

(** [buffer.toString('ascii', start, end)]: clamps, never throws; the
    decoder clears the top bit of every byte. *)
Definition toString_ascii (b : Buffer) (start end_ : Z) : jsstring :=
  let len := blength b in
  if start <=? 0 then
    let e := if len <? end_ then len else end_ in
    if e <=? 0 then []
    else (fun x => Z.land x 127) <$> take (Z.to_nat e) b
  else if len <=? start then []
  else
    let e := if len <? end_ then len else end_ in
    if e <=? start then []
    else (fun x => Z.land x 127)
           <$> take (Z.to_nat (e - start)) (drop (Z.to_nat start) b).

(** [buffer.toString('utf16le')]: pairs of bytes, a trailing odd byte is
    dropped. *)
Fixpoint toString_utf16le (b : Buffer) : jsstring :=
  match b with
  | lo :: hi :: b' => (lo + 256 * hi) :: toString_utf16le b'
  | _ => []
  end.

(** [source.copy(target, targetStart)]: copies what fits, throws on a
    negative start. [copy_at] is the copy itself. *)
Definition copy_at (source target : Buffer) (targetStart : Z) : Buffer :=
  list_inserts (Z.to_nat targetStart) source target.

Definition copy (source target : Buffer) (targetStart : Z) : outcome Buffer :=
  if targetStart <? 0 then Throw OutOfBounds
  else Ok (copy_at source target targetStart).

(** [buffer[i] = v] for a byte [v]: ignored outside the buffer. *)
Definition set_index (b : Buffer) (i v : Z) : Buffer :=
  if i <? 0 then b else <[Z.to_nat i := v]> b.

(** [buffer.writeUInt8(value, offset)] *)
Definition writeUInt8 (b : Buffer) (value offset : Z) : outcome Buffer :=
  if (255 <? value) || (value <? 0) then Throw ValueOutOfRange
  else match at_index b offset with
       | None => Throw OutOfBounds
       | Some _ => Ok (set_index b offset value)
       end.

(** [buffer.writeUInt16LE(value, offset)] *)
Definition writeUInt16LE (b : Buffer) (value offset : Z) : outcome Buffer :=
  if (65535 <? value) || (value <? 0) then Throw ValueOutOfRange
  else match at_index b offset, at_index b (offset + 1) with
       | Some _, Some _ =>
           Ok (set_index (set_index b offset (value mod 256))
                         (offset + 1) (value / 256))
       | _, _ => Throw OutOfBounds
       end.

(** [a.equals(b)] *)
Definition equals (a b : Buffer) : bool := bool_decide (a = b).

End Buf.

(** ** class BufferReader

    The reader's buffer never changes, so a method is a function of the
    buffer and the current offset that returns its value and the new
    offset. *)

Module BufferReader.

Definition Reader (A : Type) : Type := Buffer -> Z -> outcome (A * Z).

Definition ret {A} (a : A) : Reader A := fun _ offset => Ok (a, offset).

Definition bind {A B} (m : Reader A) (k : A -> Reader B) : Reader B :=
  fun buffer offset =>
    match m buffer offset with
    | Ok (a, offset') => k a buffer offset'
    | Throw e => Throw e
    | Diverge => Diverge
    end.

Definition throw {A} (e : error) : Reader A := fun _ _ => Throw e.

Definition readUInt8 : Reader Z := fun buffer offset =>
  value ← Buf.readUInt8 buffer offset; Ok (value, offset + 1).

Definition readInt32LE : Reader Z := fun buffer offset =>
  value ← Buf.readInt32LE buffer offset; Ok (value, offset + 4).

Definition readBigInt64LE : Reader Z := fun buffer offset =>
  value ← Buf.readBigInt64LE buffer offset; Ok (value, offset + 8).

Definition readBoolean : Reader bool :=
  bind readUInt8 (fun value => ret (negb (value =? 0))).

Definition readString (length : Z) : Reader jsstring := fun buffer offset =>
  Ok (Buf.toString_ascii buffer offset (offset + length), offset + length).

Definition readBytes (length : Z) : Reader Buffer := fun buffer offset =>
  Ok (Buf.slice buffer offset (offset + length), offset + length).

Definition skip (bytes : Z) : Reader unit := fun _ offset =>
  Ok (tt, offset + bytes).

Definition seek (position : Z) : Reader unit := fun _ _ =>
  Ok (tt, position).

(** A call that does not use the reader. *)
Definition lift {A} (m : outcome A) : Reader A := fun _ offset =>
  a ← m; Ok (a, offset).

(** [reader.offset] *)
Definition offset : Reader Z := fun _ offset => Ok (offset, offset).

End BufferReader.

Global Instance reader_ret : MRet BufferReader.Reader := @BufferReader.ret.
Global Instance reader_bind : MBind BufferReader.Reader :=
  fun A B k m => BufferReader.bind m k.

(** ** class EldenRingSaveManager: constants of the constructor *)

Definition CHECKSUM_LENGTH : Z := 16.
Definition HEADER_DATA_OFFSET : Z := 26221838.
Definition HEADER_DATA_LENGTH : Z := 588.
Definition SAVE_DATA_LENGTH : Z := 2621440.
Definition SAVE_HEADERS_SECTION_OFFSET : Z := 26215344.
Definition SAVE_HEADERS_SECTION_LENGTH : Z := 393216.
Definition ACTIVE_SAVE_SLOT_OFFSET : Z := 26221828.
Definition SAVE_IDENTIFIER : jsstring := lit "USER_DATA".

(** ** Parsed objects *)

Record GameFileHeader : Type := mkGameFileHeader {
  fileFlags : Z;
  compressedSize : Z;
  uncompressedSize : Z;
  dataOffset : Z;
  id : Z;
  name : option jsstring        (* [None] is [null] *)
}.

Record GameFile : Type := mkGameFile {
  header : GameFileHeader;
  data : Buffer
}.

Record SaveHeaderInfo : Type := mkSaveHeaderInfo {
  characterName : jsstring;
  characterLevel : Z;
  secondsPlayed : Z
}.

Record Save : Type := mkSave {
  index : jsnum;
  active : bool;
  gameFile : GameFile;
  saveHeaderInfo : SaveHeaderInfo;
  headerData : Buffer;
  saveDataChecksum : Buffer;
  saveData : Buffer
}.

Record SaveFile : Type := mkSaveFile {
  bigEndian : bool;
  bitBigEndian : bool;
  fileCount : Z;
  headerSize : Z;
  version : jsstring;
  fileHeaderSize : Z;
  unicode : bool;
  rawFormat : Z;
  format : Z;
  extended : Z;
  gameFileHeaders : list GameFileHeader;
  gameFiles : list GameFile;
  saves : list Save;
  buffer : Buffer
}.

(** ** reverseBytes

    [result] and [byte] stay below 256 for a byte argument, so the 32-bit
    wrap-around of JavaScript's [<<], [|] and [>>=] never shows. *)

Fixpoint reverseBytes_loop (n : nat) (result byte : Z) : Z :=
  match n with
  | O => result
  | S n' =>
      reverseBytes_loop n' (Z.lor (Z.shiftl result 1) (Z.land byte 1))
                        (Z.shiftr byte 1)
  end.

Definition reverseBytes (byte : Z) : Z := reverseBytes_loop 8 0 byte.

(** [keepFormat] and [format] of parseSaveFile. *)
Definition keepFormat (bitBigEndian : bool) (rawFormat : Z) : bool :=
  bitBigEndian
  || (negb (Z.land rawFormat 1 =? 0) && (Z.land rawFormat 128 =? 0)).

Definition resolveFormat (bitBigEndian : bool) (rawFormat : Z) : Z :=
  if negb (keepFormat bitBigEndian rawFormat) then reverseBytes rawFormat
  else rawFormat.

(** ** readUnicodeString

    One round reads two bytes and stops on a pair of zero bytes. Past the
    end of the buffer [readBytes] returns an empty view, whose elements are
    [undefined] and not 0: the loop then never ends. The rounds that start
    below the end are at most [length - offset], which is the fuel. *)

Fixpoint readUnicodeString_loop (fuel : nat) (bytes : list Z)
  : BufferReader.Reader (list Z) :=
  match fuel with
  | O => fun _ _ => Diverge
  | S fuel' =>
      charBytes ← BufferReader.readBytes 2;
      if negb (bool_decide (charBytes !! 0%nat = Some 0))
         || negb (bool_decide (charBytes !! 1%nat = Some 0))
      then readUnicodeString_loop fuel' (bytes ++ charBytes)
      else BufferReader.ret bytes
  end.

Definition readUnicodeString (bigEndian : bool)
  : BufferReader.Reader jsstring :=
  fun buffer offset =>
    match readUnicodeString_loop (Z.to_nat (Buf.blength buffer - offset)) []
                                 buffer offset with
    | Ok (bytes, offset') =>
        if bool_decide (bytes = []) then Ok ([], offset')
        else if bigEndian then Throw UnknownEncoding   (* 'utf16be' *)
        else Ok (Buf.toString_utf16le bytes, offset')
    | Throw e => Throw e
    | Diverge => Diverge
    end.

(** ** readGameFileHeaders *)

(** The body of the loop: one entry header. *)
Definition readGameFileHeader (format : Z) (unicode bigEndian : bool)
  : BufferReader.Reader GameFileHeader :=
  fileFlags ← BufferReader.readUInt8;
  BufferReader.skip 3;;
  sentinel ← BufferReader.readInt32LE;
  if negb (sentinel =? -1) then BufferReader.throw UnknownTableFormat
  else
    compressedSize ← BufferReader.readBigInt64LE;
    uncompressedSize ←
      (if negb (Z.land format 32 =? 0) then BufferReader.readBigInt64LE
       else BufferReader.ret (-1));
    dataOffset ←
      (if negb (Z.land format 16 =? 0) then BufferReader.readBigInt64LE
       else BufferReader.readInt32LE);
    id ←
      (if negb (Z.land format 2 =? 0) then BufferReader.readInt32LE
       else BufferReader.ret (-1));
    name ←
      (if negb (Z.land format (Z.lor 4 8) =? 0) then
         nameOffset ← BufferReader.readInt32LE;
         if unicode then
           currentOffset ← BufferReader.offset;
           BufferReader.seek nameOffset;;
           name ← readUnicodeString bigEndian;
           BufferReader.seek currentOffset;;
           BufferReader.ret (Some name)
         else BufferReader.ret (Some (lit "JIS"))
       else BufferReader.ret None);
    id ←
      (if format =? 4 then
         id' ← BufferReader.readInt32LE;
         BufferReader.readInt32LE;;
         BufferReader.ret id'
       else BufferReader.ret id);
    BufferReader.ret
      (mkGameFileHeader fileFlags compressedSize uncompressedSize dataOffset
                        id name).

(** [for (let i = 0; i < fileCount; i++)], [n] rounds left. *)
Fixpoint readGameFileHeaders_loop (n : nat) (format : Z)
    (unicode bigEndian : bool) (headers : list GameFileHeader)
  : BufferReader.Reader (list GameFileHeader) :=
  match n with
  | O => BufferReader.ret headers
  | S n' =>
      h ← readGameFileHeader format unicode bigEndian;
      readGameFileHeaders_loop n' format unicode bigEndian (headers ++ [h])
  end.

Definition readGameFileHeaders (fileCount format : Z)
    (unicode bigEndian : bool) : BufferReader.Reader (list GameFileHeader) :=
  readGameFileHeaders_loop (Z.to_nat fileCount) format unicode bigEndian [].

(** ** readGameFiles

    [dataOffset] and [compressedSize] are BigInts, and [Number(x)] turns
    them into numbers, that is doubles. The doubles met here are integers
    and are kept as [Z]: [toNumber x] is the double nearest to [x], ties
    going to the even significand; it is [x] itself up to 2^53 in
    magnitude. [readBytes] then computes [this.offset + length] on two such
    doubles, which is the double nearest to the exact sum: [number_add].
    Everywhere else the reader adds a small integer to a position inside
    the file and the sum is exact, as [BufferReader] has it; here the two
    operands are 64-bit values of the file, so the method is taken with its
    sum rounded: [readBytes_number]. copySave converts a data offset in the
    same way, but a copy only compares its start with 0 and with the length
    of the buffer, which is below 2^53: the conversion does not show
    there. *)

Definition toNumber (x : Z) : Z :=
  let a := Z.abs x in
  if a <? 2 ^ 53 then x
  else
    let e := Z.log2 a - 52 in
    let q := Z.shiftr a e in
    let r := a - Z.shiftl q e in
    let half := Z.shiftl 1 (e - 1) in
    let q' := if (half <? r) || ((r =? half) && Z.odd q) then q + 1 else q in
    Z.sgn x * Z.shiftl q' e.

Definition number_add (a b : Z) : Z := toNumber (a + b).

(** [reader.readBytes(length)] on numbers of any size. *)
Definition readBytes_number (length : Z) : BufferReader.Reader Buffer :=
  fun buffer offset =>
    Ok (Buf.slice buffer offset (number_add offset length),
        number_add offset length).

Fixpoint readGameFiles (gameFileHeaders : list GameFileHeader) (format : Z)
  : BufferReader.Reader (list GameFile) :=
  match gameFileHeaders with
  | [] => BufferReader.ret []
  | header :: rest =>
      BufferReader.seek (toNumber (dataOffset header));;
      fileBytes ← readBytes_number (toNumber (compressedSize header));
      gameFiles ← readGameFiles rest format;
      BufferReader.ret (mkGameFile header fileBytes :: gameFiles)
  end.

(** ** extractSaveHeaderInfo *)

Definition extractSaveHeaderInfo (headerData : Buffer)
  : outcome SaveHeaderInfo :=
  let read :=
    nameBytes ← BufferReader.readBytes 34;
    let characterName :=
      trim (filter (fun c => c ≠ 0) (Buf.toString_utf16le nameBytes)) in
    characterLevel ← BufferReader.readInt32LE;
    secondsPlayed ← BufferReader.readInt32LE;
    BufferReader.ret
      (mkSaveHeaderInfo
         (if bool_decide (characterName = []) then lit "Empty Slot"
          else characterName)
         characterLevel secondsPlayed) in
  p ← read headerData 0; mret p.1.

(** ** MD5

    [crypto.createHash('md5').update(data).digest()] is Node's binding to
    the MD5 of RFC 1321, which is not part of this repository; it is
    written out here from the RFC so that the model computes. The theorems
    below use only that a digest has 16 bytes. *)

Module MD5.

Definition mask32 (x : Z) : Z := x mod 4294967296.

Definition rotl32 (x c : Z) : Z :=
  mask32 (Z.lor (Z.shiftl x c) (Z.shiftr x (32 - c))).

Definition K : list Z :=
  [
   3614090360; 3905402710; 606105819; 3250441966; 4118548399; 1200080426; 2821735955; 4249261313;
   1770035416; 2336552879; 4294925233; 2304563134; 1804603682; 4254626195; 2792965006; 1236535329;
   4129170786; 3225465664; 643717713; 3921069994; 3593408605; 38016083; 3634488961; 3889429448;
   568446438; 3275163606; 4107603335; 1163531501; 2850285829; 4243563512; 1735328473; 2368359562;
   4294588738; 2272392833; 1839030562; 4259657740; 2763975236; 1272893353; 4139469664; 3200236656;
   681279174; 3936430074; 3572445317; 76029189; 3654602809; 3873151461; 530742520; 3299628645;
   4096336452; 1126891415; 2878612391; 4237533241; 1700485571; 2399980690; 4293915773; 2240044497;
   1873313359; 4264355552; 2734768916; 1309151649; 4149444226; 3174756917; 718787259; 3951481745 ].

Definition shifts : list Z :=
  [
   7; 12; 17; 22; 7; 12; 17; 22; 7; 12; 17; 22; 7; 12; 17; 22;
   5; 9; 14; 20; 5; 9; 14; 20; 5; 9; 14; 20; 5; 9; 14; 20;
   4; 11; 16; 23; 4; 11; 16; 23; 4; 11; 16; 23; 4; 11; 16; 23;
   6; 10; 15; 21; 6; 10; 15; 21; 6; 10; 15; 21; 6; 10; 15; 21 ].

(** The 64 operations of one block, each with its round function and
    message word index. *)
Definition step (M : list Z) (st : Z * Z * Z * Z) (i : nat) : Z * Z * Z * Z :=
  let '(A, B, C, D) := st in
  let not32 x := Z.lxor x 4294967295 in
  let '(F, g) :=
    if (i <? 16)%nat then
      (Z.lor (Z.land B C) (Z.land (not32 B) D), i)
    else if (i <? 32)%nat then
      (Z.lor (Z.land D B) (Z.land (not32 D) C), ((5 * i + 1) mod 16)%nat)
    else if (i <? 48)%nat then
      (Z.lxor (Z.lxor B C) D, ((3 * i + 5) mod 16)%nat)
    else
      (Z.lxor C (Z.lor B (not32 D)), ((7 * i) mod 16)%nat) in
  let F' := mask32 (F + A + K !!! i + M !!! g) in
  (D, mask32 (B + rotl32 F' (shifts !!! i)), B, C).

Fixpoint le_word (bs : list Z) : Z :=
  match bs with
  | [] => 0
  | x :: bs' => x mod 256 + 256 * le_word bs'
  end.

Fixpoint words (n : nat) (bs : list Z) : list Z :=
  match n with
  | O => []
  | S n' => le_word (take 4 bs) :: words n' (drop 4 bs)
  end.

Definition block (st : Z * Z * Z * Z) (bs : list Z) : Z * Z * Z * Z :=
  let '(a0, b0, c0, d0) := st in
  let '(A, B, C, D) := foldl (step (words 16 bs)) st (seq 0 64) in
  (mask32 (a0 + A), mask32 (b0 + B), mask32 (c0 + C), mask32 (d0 + D)).

Fixpoint blocks (n : nat) (st : Z * Z * Z * Z) (bs : list Z) : Z * Z * Z * Z :=
  match n with
  | O => st
  | S n' => blocks n' (block st (take 64 bs)) (drop 64 bs)
  end.

Definition le_bytes4 (x : Z) : list Z :=
  [x mod 256; (x / 256) mod 256; (x / 65536) mod 256; (x / 16777216) mod 256].

Definition pad (message : list Z) : list Z :=
  let len := Z.of_nat (length message) in
  let zeros := Z.to_nat ((55 - len) mod 64) in
  let bits := (8 * len) mod 18446744073709551616 in
  message ++ [128] ++ replicate zeros 0
    ++ le_bytes4 (bits mod 4294967296) ++ le_bytes4 (bits / 4294967296).

Definition md5 (message : list Z) : list Z :=
  let padded := pad message in
  let '(A, B, C, D) :=
    blocks (length padded / 64)%nat
           (1732584193, 4023233417, 2562383102, 271733878) padded in
  le_bytes4 A ++ le_bytes4 B ++ le_bytes4 C ++ le_bytes4 D.

End MD5.

Definition md5 : Buffer -> Buffer := MD5.md5.

(** ** processSaves *)

(** Arithmetic and buffer access on numbers that may be NaN. *)
Definition num_lift2 (f : Z -> Z -> Z) (a b : jsnum) : jsnum :=
  match a, b with
  | Int x, Int y => Int (f x y)
  | _, _ => NaN
  end.

(** [n > k] *)
Definition num_gt (n : jsnum) (k : Z) : bool :=
  match n with
  | Int z => k <? z
  | NaN => false
  end.

(** An offset argument of [slice]: [adjustOffset] maps NaN to 0. *)
Definition num_offset (n : jsnum) : Z :=
  match n with
  | Int z => z
  | NaN => 0
  end.

(** [buffer[n]] *)
Definition at_num (b : Buffer) (n : jsnum) : option Z :=
  match n with
  | Int z => Buf.at_index b z
  | NaN => None
  end.

(** One round of the loop over [gameFiles]; [None] is [continue]. *)
Definition processSave (buffer : Buffer) (gameFile : GameFile)
  : outcome (option Save) :=
  match name (header gameFile) with
  | None => Ok None
  | Some name =>
      if bool_decide (name = []) || negb (startsWith name SAVE_IDENTIFIER)
      then Ok None
      else
        let index := parseInt (substring name (length SAVE_IDENTIFIER)) in
        if num_gt index 9 then Ok None
        else
          (* reader.seek(...); reader.readBytes(HEADER_DATA_LENGTH) *)
          let offset :=
            num_lift2 Z.add (Int HEADER_DATA_OFFSET)
                      (num_lift2 Z.mul index (Int HEADER_DATA_LENGTH)) in
          let active :=
            bool_decide
              (at_num buffer (num_lift2 Z.add (Int ACTIVE_SAVE_SLOT_OFFSET) index)
               = Some 1) in
          let headerData :=
            Buf.slice buffer (num_offset offset)
                      (num_offset (num_lift2 Z.add offset (Int HEADER_DATA_LENGTH))) in
          saveHeaderInfo ← extractSaveHeaderInfo headerData;
          let saveDataChecksum := Buf.slice (data gameFile) 0 CHECKSUM_LENGTH in
          let saveData := Buf.slice_from (data gameFile) CHECKSUM_LENGTH in
          Ok (Some (mkSave index active gameFile saveHeaderInfo headerData
                           saveDataChecksum saveData))
  end.

Fixpoint processSaves_loop (buffer : Buffer) (gameFiles : list GameFile)
    (saves : list Save) : outcome (list Save) :=
  match gameFiles with
  | [] => Ok saves
  | gameFile :: rest =>
      r ← processSave buffer gameFile;
      match r with
      | None => processSaves_loop buffer rest saves
      | Some save => processSaves_loop buffer rest (saves ++ [save])
      end
  end.

(** [(a, b) => a.index - b.index], with the NaN result read as 0 as
    [Array.prototype.sort] does. *)
Definition compareSaves (a b : Save) : Z :=
  num_offset (num_lift2 Z.sub (index a) (index b)).

(** [Array.prototype.sort] is stable: an element goes in front of the
    first later element that does not compare below it. *)
Fixpoint sort_insert (x : Save) (sorted : list Save) : list Save :=
  match sorted with
  | [] => [x]
  | y :: rest =>
      if compareSaves x y <=? 0 then x :: y :: rest
      else y :: sort_insert x rest
  end.

Definition sort_saves (saves : list Save) : list Save :=
  foldr sort_insert [] saves.

Definition processSaves (buffer : Buffer) (gameFiles : list GameFile)
  : outcome (list Save) :=
  saves ← processSaves_loop buffer gameFiles [];
  Ok (sort_saves saves).

(** ** parseSaveFile *)

Definition parseSaveFile (buffer : Buffer) : outcome SaveFile :=
  let parse : BufferReader.Reader SaveFile :=
    magic ← BufferReader.readString 4;
    if negb (jsstring_eqb magic (lit "BND4")) then BufferReader.throw BadMagic
    else
      BufferReader.skip 5;;
      bigEndian ← BufferReader.readBoolean;
      b ← BufferReader.readBoolean;
      let bitBigEndian := negb b in
      BufferReader.skip 1;;
      fileCount ← BufferReader.readInt32LE;
      headerSize ← BufferReader.readBigInt64LE;
      version ← BufferReader.readString 8;
      fileHeaderSize ← BufferReader.readBigInt64LE;
      BufferReader.skip 8;;
      unicode ← BufferReader.readBoolean;
      rawFormat ← BufferReader.readUInt8;
      let format := resolveFormat bitBigEndian rawFormat in
      extended ← BufferReader.readUInt8;
      BufferReader.skip 13;;
      gameFileHeaders ← readGameFileHeaders fileCount format unicode bigEndian;
      gameFiles ← readGameFiles gameFileHeaders format;
      saves ← BufferReader.lift (processSaves buffer gameFiles);
      BufferReader.ret
        (mkSaveFile bigEndian bitBigEndian fileCount headerSize version
                    fileHeaderSize unicode rawFormat format extended
                    gameFileHeaders gameFiles saves buffer) in
  p ← parse buffer 0; mret p.1.

(** ** copySave *)

Definition copySave (sourceSave : Save) (targetSaveFile : SaveFile)
    (targetSlotIndex : Z) : outcome Buffer :=
  let updatedBuffer := buffer targetSaveFile in
  match list_find (fun save => index save = Int targetSlotIndex)
                  (saves targetSaveFile) with
  | None => Throw TargetSlotNotFound
  | Some (_, targetSave) =>
      let targetHeader := header (gameFile targetSave) in
      let sourceDataChecksum := saveDataChecksum sourceSave in
      let sourceSaveData := saveData sourceSave in
      let sourceHeaderData := headerData sourceSave in
      updatedBuffer ←
        Buf.copy sourceDataChecksum updatedBuffer (dataOffset targetHeader);
      updatedBuffer ←
        Buf.copy sourceSaveData updatedBuffer
                 (dataOffset targetHeader + CHECKSUM_LENGTH);
      updatedBuffer ←
        Buf.copy sourceHeaderData updatedBuffer
                 (HEADER_DATA_OFFSET + targetSlotIndex * HEADER_DATA_LENGTH);
      let updatedBuffer :=
        Buf.set_index updatedBuffer (ACTIVE_SAVE_SLOT_OFFSET + targetSlotIndex) 1 in
      let md5Hash := md5 sourceSaveData in
      updatedBuffer ← Buf.copy md5Hash updatedBuffer (dataOffset targetHeader);
      let saveHeaderSectionData :=
        Buf.slice updatedBuffer SAVE_HEADERS_SECTION_OFFSET
                  (SAVE_HEADERS_SECTION_OFFSET + SAVE_HEADERS_SECTION_LENGTH) in
      let headersMd5 := md5 saveHeaderSectionData in
      Buf.copy headersMd5 updatedBuffer
               (SAVE_HEADERS_SECTION_OFFSET - CHECKSUM_LENGTH)
  end.

(** ** calculateHP, calculateFP, calculateStamina *)

Definition hpTable : gmap Z Z := list_to_map
  [
   (1, 300); (2, 304); (3, 312); (4, 322); (5, 334); (6, 347); (7, 362); (8, 378); (9, 396); (10, 414);
   (11, 434); (12, 455); (13, 476); (14, 499); (15, 522); (16, 547); (17, 572); (18, 598); (19, 624); (20, 652);
   (21, 680); (22, 709); (23, 738); (24, 769); (25, 800); (26, 833); (27, 870); (28, 910); (29, 951); (30, 994);
   (31, 1037); (32, 1081); (33, 1125); (34, 1170); (35, 1216); (36, 1262); (37, 1308); (38, 1355); (39, 1402); (40, 1450);
   (41, 1476); (42, 1503); (43, 1529); (44, 1555); (45, 1581); (46, 1606); (47, 1631); (48, 1656); (49, 1680); (50, 1704);
   (51, 1727); (52, 1750); (53, 1772); (54, 1793); (55, 1814); (56, 1834); (57, 1853); (58, 1871); (59, 1887); (60, 1900);
   (61, 1906); (62, 1912); (63, 1918); (64, 1924); (65, 1930); (66, 1936); (67, 1942); (68, 1948); (69, 1954); (70, 1959);
   (71, 1965); (72, 1971); (73, 1977); (74, 1982); (75, 1988); (76, 1993); (77, 1999); (78, 2004); (79, 2010); (80, 2015);
   (81, 2020); (82, 2026); (83, 2031); (84, 2036); (85, 2041); (86, 2046); (87, 2051); (88, 2056); (89, 2060); (90, 2065);
   (91, 2070); (92, 2074); (93, 2078); (94, 2082); (95, 2086); (96, 2090); (97, 2094); (98, 2097); (99, 2100) ].

Definition fpTable : gmap Z Z := list_to_map
  [
   (1, 40); (2, 43); (3, 46); (4, 49); (5, 52); (6, 55); (7, 58); (8, 62); (9, 65); (10, 68);
   (11, 71); (12, 74); (13, 77); (14, 81); (15, 84); (16, 87); (17, 90); (18, 93); (19, 96); (20, 100);
   (21, 106); (22, 112); (23, 118); (24, 124); (25, 130); (26, 136); (27, 142); (28, 148); (29, 154); (30, 160);
   (31, 166); (32, 172); (33, 178); (34, 184); (35, 190); (36, 196); (37, 202); (38, 208); (39, 214); (40, 220);
   (41, 226); (42, 232); (43, 238); (44, 244); (45, 250); (46, 256); (47, 262); (48, 268); (49, 274); (50, 280);
   (51, 288); (52, 297); (53, 305); (54, 313); (55, 321); (56, 328); (57, 335); (58, 341); (59, 346); (60, 350);
   (61, 352); (62, 355); (63, 357); (64, 360); (65, 362); (66, 365); (67, 367); (68, 370); (69, 373); (70, 375);
   (71, 378); (72, 380); (73, 383); (74, 385); (75, 388); (76, 391); (77, 393); (78, 396); (79, 398); (80, 401);
   (81, 403); (82, 406); (83, 408); (84, 411); (85, 414); (86, 416); (87, 419); (88, 421); (89, 424); (90, 426);
   (91, 429); (92, 432); (93, 434); (94, 437); (95, 439); (96, 442); (97, 444); (98, 447); (99, 450) ].

Definition staminaTable : gmap Z Z := list_to_map
  [
   (1, 80); (2, 81); (3, 82); (4, 84); (5, 85); (6, 87); (7, 88); (8, 90); (9, 91); (10, 92);
   (11, 94); (12, 95); (13, 97); (14, 98); (15, 100); (16, 101); (17, 103); (18, 105); (19, 106); (20, 108);
   (21, 110); (22, 111); (23, 113); (24, 115); (25, 116); (26, 118); (27, 120); (28, 121); (29, 123); (30, 125);
   (31, 126); (32, 128); (33, 129); (34, 131); (35, 132); (36, 134); (37, 135); (38, 137); (39, 138); (40, 140);
   (41, 141); (42, 143); (43, 144); (44, 146); (45, 147); (46, 149); (47, 150); (48, 152); (49, 153); (50, 155);
   (51, 155); (52, 155); (53, 155); (54, 156); (55, 156); (56, 156); (57, 157); (58, 157); (59, 157); (60, 158);
   (61, 158); (62, 158); (63, 158); (64, 159); (65, 159); (66, 159); (67, 160); (68, 160); (69, 160); (70, 161);
   (71, 161); (72, 161); (73, 162); (74, 162); (75, 162); (76, 162); (77, 163); (78, 163); (79, 163); (80, 164);
   (81, 164); (82, 164); (83, 165); (84, 165); (85, 165); (86, 166); (87, 166); (88, 166); (89, 166); (90, 167);
   (91, 167); (92, 167); (93, 168); (94, 168); (95, 168); (96, 169); (97, 169); (98, 169); (99, 170) ].

(** [a || b] on table entries: [undefined] and 0 are falsy. *)
Definition or_else (a b : option Z) : option Z :=
  match a with
  | Some v => if v =? 0 then b else Some v
  | None => b
  end.

Definition calculateHP (vigor : Z) : option Z :=
  or_else (hpTable !! Z.min vigor 99) (hpTable !! 99).

Definition calculateFP (mind : Z) : option Z :=
  or_else (fpTable !! Z.min mind 99) (fpTable !! 99).

Definition calculateStamina (endurance : Z) : option Z :=
  or_else (staminaTable !! Z.min endurance 99) (staminaTable !! 99).

(** ** recalculateChecksums *)

(** One round of the loop over the 10 character slots. The start of
    [copy] is a non-negative literal here, so the copy cannot throw. *)
Definition recalculateSlot (buffer : Buffer) (slotDataIndex checksumIndex : Z)
  : Buffer :=
  let slotLength := 2621439 in
  let checksumLength := 15 in
  let slotData :=
    Buf.slice buffer slotDataIndex (slotDataIndex + slotLength + 1) in
  let newChecksum := md5 slotData in
  let currentChecksum :=
    Buf.slice buffer checksumIndex (checksumIndex + checksumLength + 1) in
  if negb (Buf.equals newChecksum
             (Buf.slice currentChecksum 0 (Buf.blength newChecksum)))
  then Buf.copy_at newChecksum buffer checksumIndex
  else buffer.

Fixpoint recalculateSlots (n : nat) (buffer : Buffer)
    (slotDataIndex checksumIndex : Z) : Buffer :=
  match n with
  | O => buffer
  | S n' =>
      recalculateSlots n' (recalculateSlot buffer slotDataIndex checksumIndex)
                       (slotDataIndex + 2621456) (checksumIndex + 2621456)
  end.

Definition recalculateChecksums (buffer : Buffer) : Buffer :=
  let buffer := recalculateSlots 10 buffer 0x00000310 0x00000300 in
  let generalDataStart := 0x019003B0 in
  let generalDataEnd := 0x019603AF in
  let generalChecksumStart := 0x019003A0 in
  let generalData := Buf.slice buffer generalDataStart (generalDataEnd + 1) in
  let newGeneralChecksum := md5 generalData in
  Buf.copy_at newGeneralChecksum buffer generalChecksumStart.

(** ** getCharacterStats *)

Record Stats : Type := mkStats {
  vigor : Z;
  mind : Z;
  endurance : Z;
  strength : Z;
  dexterity : Z;
  intelligence : Z;
  faith : Z;
  arcane : Z
}.

(** [Object.values(stats)] *)
Definition statValues (s : Stats) : list Z :=
  [vigor s; mind s; endurance s; strength s; dexterity s; intelligence s;
   faith s; arcane s].

Record CharacterStats : Type := mkCharacterStats {
  slotIndex : Z;
  level : Z;
  statsOffset : Z;
  stats : Stats;
  hp : list Z;
  stamina : list Z;
  fp : list Z;
  hpOffsets : list Z;
  staminaOffsets : list Z;
  fpOffsets : list Z
}.

Definition slotOffsets : list Z :=
  [0x00000310; 0x00280320; 0x00500330; 0x00780340; 0x00A00350;
   0x00C80360; 0x00F00370; 0x01180380; 0x01400390; 0x016803A0].

Definition slotLengths : list Z :=
  [0x0028030F - 0x00000310 + 1; 0x0050031F - 0x00280320 + 1;
   0x0078032F - 0x00500330 + 1; 0x00A0033F - 0x00780340 + 1;
   0x00C8034F - 0x00A00350 + 1; 0x00F0035F - 0x00C80360 + 1;
   0x0118036F - 0x00F00370 + 1; 0x0140037F - 0x01180380 + 1;
   0x0168038F - 0x01400390 + 1; 0x0190039F - 0x016803A0 + 1].

(** The reads of one candidate offset [i]: the eight potential stats and
    the level stored 44 bytes further. *)
Definition potentialStatsAt (slotData : Buffer) (i : Z)
  : outcome (list Z * Z) :=
  s0 ← Buf.readUInt8 slotData i;
  s1 ← Buf.readUInt8 slotData (i + 4);
  s2 ← Buf.readUInt8 slotData (i + 8);
  s3 ← Buf.readUInt8 slotData (i + 12);
  s4 ← Buf.readUInt8 slotData (i + 16);
  s5 ← Buf.readUInt8 slotData (i + 20);
  s6 ← Buf.readUInt8 slotData (i + 24);
  s7 ← Buf.readUInt8 slotData (i + 28);
  levelAtOffset ← Buf.readUInt16LE slotData (i + 44);
  Ok ([s0; s1; s2; s3; s4; s5; s6; s7], levelAtOffset).

(** [statsSum === level + 79 && levelAtOffset === level] *)
Definition statsMatch (level : Z) (candidate : list Z * Z) : bool :=
  let statsSum := foldl Z.add 0 candidate.1 in
  (statsSum =? level + 79) && (candidate.2 =? level).

(** The search loop, [fuel] rounds left; an exception inside a round is
    caught and the loop continues. The result is [statsOffset] and [stats]
    when [statsFound]. *)
Fixpoint findStats_loop (fuel : nat) (slotData : Buffer) (level bound i : Z)
  : option (Z * list Z) :=
  match fuel with
  | O => None
  | S fuel' =>
      if i <? bound then
        match potentialStatsAt slotData i with
        | Ok candidate =>
            if statsMatch level candidate then Some (i, candidate.1)
            else findStats_loop fuel' slotData level bound (i + 1)
        | _ => findStats_loop fuel' slotData level bound (i + 1)
        end
      else None
  end.

Definition findStats (slotData : Buffer) (level : Z) : option (Z * list Z) :=
  let bound := Z.min 120000 (Buf.blength slotData - 50) in
  findStats_loop (Z.to_nat bound) slotData level bound 0.

Definition statsOfList (l : list Z) : Stats :=
  mkStats (l !!! 0%nat) (l !!! 1%nat) (l !!! 2%nat) (l !!! 3%nat)
          (l !!! 4%nat) (l !!! 5%nat) (l !!! 6%nat) (l !!! 7%nat).

(** The body of the [try]. *)
Definition getCharacterStats_body (buffer : Buffer) (slotIndex : Z)
  : outcome (option CharacterStats) :=
  let baseLevelOffset := 26221872 in
  let levelOffset := baseLevelOffset + slotIndex * 588 in
  if Buf.blength buffer <? levelOffset + 2 then Ok None
  else
    level ← Buf.readUInt16LE buffer levelOffset;
    match Buf.at_index slotOffsets slotIndex,
          Buf.at_index slotLengths slotIndex with
    | Some slotOffset, Some slotLength =>
        let slotData := Buf.slice buffer slotOffset (slotOffset + slotLength) in
        match findStats slotData level with
        | None => Ok None
        | Some (statsOffset, stats) =>
            hp0 ← Buf.readUInt16LE slotData (statsOffset - 44);
            hp1 ← Buf.readUInt16LE slotData (statsOffset - 40);
            hp2 ← Buf.readUInt16LE slotData (statsOffset - 36);
            st0 ← Buf.readUInt16LE slotData (statsOffset - 16);
            st1 ← Buf.readUInt16LE slotData (statsOffset - 12);
            st2 ← Buf.readUInt16LE slotData (statsOffset - 8);
            fp0 ← Buf.readUInt16LE slotData (statsOffset - 32);
            fp1 ← Buf.readUInt16LE slotData (statsOffset - 28);
            fp2 ← Buf.readUInt16LE slotData (statsOffset - 24);
            Ok (Some
              (mkCharacterStats slotIndex level (slotOffset + statsOffset)
                 (statsOfList stats)
                 [hp0; hp1; hp2] [st0; st1; st2] [fp0; fp1; fp2]
                 [slotOffset + statsOffset - 44; slotOffset + statsOffset - 40;
                  slotOffset + statsOffset - 36]
                 [slotOffset + statsOffset - 16; slotOffset + statsOffset - 12;
                  slotOffset + statsOffset - 8]
                 [slotOffset + statsOffset - 32; slotOffset + statsOffset - 28;
                  slotOffset + statsOffset - 24]))
        end
    | _, _ =>
        (* the slot tables give undefined: slotData is empty, the loop
           does not run *)
        Ok None
    end.

(** [null] is [None]; any exception is caught and gives [null]. *)
Definition getCharacterStats (buffer : Buffer) (slotIndex : Z)
  : option CharacterStats :=
  match getCharacterStats_body buffer slotIndex with
  | Ok r => r
  | _ => None
  end.

(** ** setCharacterStats *)

Record Options : Type := mkOptions {
  godMode : bool;
  customAttributes : bool
}.

(** [offsets.forEach(offset => buffer.writeUInt16LE(value, offset))] *)
Fixpoint writeEach (buffer : Buffer) (value : Z) (offsets : list Z)
  : outcome Buffer :=
  match offsets with
  | [] => Ok buffer
  | offset :: rest =>
      buffer ← Buf.writeUInt16LE buffer value offset;
      writeEach buffer value rest
  end.

(** [statNames.forEach((statName, index) => ...)], from [index] on. *)
Fixpoint writeStats (buffer : Buffer) (statsOffset slotOffset index : Z)
    (values : list Z) : outcome Buffer :=
  match values with
  | [] => Ok buffer
  | value :: rest =>
      let statOffset := statsOffset - slotOffset + index * 4 in
      buffer ← Buf.writeUInt8 buffer value (slotOffset + statOffset);
      writeStats buffer statsOffset slotOffset (index + 1) rest
  end.

(** A table value handed to [writeUInt16LE]; [undefined] cannot occur
    because entry 99 exists, and would be rejected as a value. *)
Definition tableValue (v : option Z) : Z := default (-1) v.

Definition setCharacterStats (buffer : Buffer) (slotIndex : Z)
    (newStats : Stats) (options : Options) : outcome Buffer :=
  match getCharacterStats buffer slotIndex with
  | None => Throw StatsNotFound
  | Some currentStats =>
      let statSum := foldl Z.add 0 (statValues newStats) in
      let newLevel := statSum - 79 in
      let modifiedBuffer := buffer in
      let slotOffset := 0x310 + slotIndex * 2621456 in
      modifiedBuffer ←
        writeStats modifiedBuffer (statsOffset currentStats) slotOffset 0
                   (statValues newStats);
      modifiedBuffer ←
        Buf.writeUInt16LE modifiedBuffer newLevel (statsOffset currentStats + 44);
      let baseLevelOffset := 26221872 in
      let levelOffset := baseLevelOffset + slotIndex * 588 in
      modifiedBuffer ← Buf.writeUInt16LE modifiedBuffer newLevel levelOffset;
      modifiedBuffer ←
        (if godMode options then
           b ← writeEach modifiedBuffer 60000 (hpOffsets currentStats);
           b ← writeEach b 60000 (fpOffsets currentStats);
           writeEach b 60000 (staminaOffsets currentStats)
         else if customAttributes options then
           let hpValue := tableValue (calculateHP (vigor newStats)) in
           let fpValue := tableValue (calculateFP (mind newStats)) in
           let staminaValue := tableValue (calculateStamina (endurance newStats)) in
           b ← writeEach modifiedBuffer hpValue (hpOffsets currentStats);
           b ← writeEach b fpValue (fpOffsets currentStats);
           writeEach b staminaValue (staminaOffsets currentStats)
         else Ok modifiedBuffer);
      Ok (recalculateChecksums modifiedBuffer)
  end.

(** ** formatPlayTime

    For an integer [seconds] below 2^53 in magnitude (the callers pass the
    32-bit [secondsPlayed] of a summary record) the double arithmetic of
    the method is exact: [Math.floor(a / b)] is the floor quotient, [%] the
    remainder with the sign of the dividend, and a template literal prints
    the number in decimal, with a minus sign when it is negative. This is
    what the definition computes; from 2^53 on the quotient and the printed
    digits of the method are rounded and the definition does not follow it,
    so every statement about it is made below 2^53. *)

Definition numberToString (n : Z) : jsstring :=
  lit (NilZero.string_of_int (Z.to_int n)).

Definition formatPlayTime (seconds : Z) : jsstring :=
  let hours := seconds / 3600 in
  let minutes := Z.rem seconds 3600 / 60 in
  let secs := Z.rem seconds 60 in
  if 0 <? hours then
    numberToString hours ++ lit "h " ++ numberToString minutes ++ lit "m "
    ++ numberToString secs ++ lit "s"
  else if 0 <? minutes then
    numberToString minutes ++ lit "m " ++ numberToString secs ++ lit "s"
  else numberToString secs ++ lit "s".

(** ** extractSave, loadExtractedSave

    The file system is a map from paths to contents: [readFileSync] throws
    on a path that is not there, [writeFileSync] stores the content. The
    Zstd codec is the package zstd-codec, not part of this repository: its
    [compress] and [decompress] are parameters, each giving [None] (null)
    when the codec reports an error; [zstd] is [None] when initZstd fails.
    [(a / b).toFixed(2)] is a parameter as well. Every exception inside the
    [try] is rethrown as one Error with a prefixed message: the result
    [None]. *)

Record Zstd : Type := mkZstd {
  compress : Buffer -> Z -> option Buffer;
  decompress : Buffer -> option Buffer
}.

Module ExtractResult.
Record t : Type := mk {
  originalSize : Z;
  compressedSize : Z;
  compressionRatio : jsstring
}.
End ExtractResult.

Module ExtractedSave.
Record t : Type := mk {
  filePath : jsstring;
  saveHeaderInfo : SaveHeaderInfo;
  headerData : Buffer;
  saveDataChecksum : Buffer;
  saveData : Buffer;
  compressedSize : Z;
  decompressedSize : Z
}.
End ExtractedSave.

Section Extracted.

Variable zstd : option Zstd.
Variable toFixed2 : Z -> Z -> jsstring.

Definition extractSave (save : Save) (outputPath : jsstring)
    (fs : gmap (list Z) (list Z))
  : option (ExtractResult.t * gmap (list Z) (list Z)) :=
  codec ← zstd;
  let combinedData :=
    headerData save ++ saveDataChecksum save ++ saveData save in
  compressedData ← compress codec combinedData 8;
  let fs := <[outputPath := compressedData]> fs in
  Some (ExtractResult.mk (Buf.blength combinedData)
          (Buf.blength compressedData)
          (toFixed2 (Buf.blength combinedData) (Buf.blength compressedData)),
        fs).

Definition loadExtractedSave (filePath : jsstring)
    (fs : gmap (list Z) (list Z)) : option ExtractedSave.t :=
  codec ← zstd;
  compressedData ← fs !! filePath;
  decompressedData ← decompress codec compressedData;
  let headerData := Buf.slice decompressedData 0 HEADER_DATA_LENGTH in
  let saveDataChecksum :=
    Buf.slice decompressedData HEADER_DATA_LENGTH
              (HEADER_DATA_LENGTH + CHECKSUM_LENGTH) in
  let saveData :=
    Buf.slice_from decompressedData (HEADER_DATA_LENGTH + CHECKSUM_LENGTH) in
  match extractSaveHeaderInfo headerData with
  | Ok saveHeaderInfo =>
      Some (ExtractedSave.mk filePath saveHeaderInfo headerData
              saveDataChecksum saveData (Buf.blength compressedData)
              (Buf.blength decompressedData))
  | _ => None
  end.

End Extracted.

(** * Vocabulary of the statements and sample inputs *)

(** Readers that never fail with UnknownTableFormat. *)
Definition other_failures {A} (m : BufferReader.Reader A) : Prop :=
  forall b o, m b o <> Throw UnknownTableFormat.

(** A container with one entry: the 64 bytes of the archive header with
    [fileCount] 1 and format byte 0, then an entry header whose sentinel
    field holds -1. *)
Definition one_entry_file : Buffer :=
  lit "BND4" ++ replicate 5 0 ++ [0; 1; 0] ++ [1; 0; 0; 0]
  ++ replicate 8 0 ++ lit "00000001" ++ replicate 8 0 ++ replicate 8 0
  ++ [0; 0; 0] ++ replicate 13 0
  ++ [0; 0; 0; 0] ++ [255; 255; 255; 255] ++ replicate 8 0 ++ [0; 0; 0; 0].

(** What the locator looks for at offset [i] of a slot payload: eight
    attribute bytes at [i], [i + 4], ..., [i + 28] whose sum is the header
    level plus 79, and the header level again as a little-endian 16-bit
    field at [i + 44]. *)
Definition statsBlockAt (slotData : Buffer) (level i : Z) (attrs : list Z)
  : Prop :=
  exists a0 a1 a2 a3 a4 a5 a6 a7 lo hi,
    attrs = [a0; a1; a2; a3; a4; a5; a6; a7] /\
    slotData !! Z.to_nat i = Some a0 /\
    slotData !! Z.to_nat (i + 4) = Some a1 /\
    slotData !! Z.to_nat (i + 8) = Some a2 /\
    slotData !! Z.to_nat (i + 12) = Some a3 /\
    slotData !! Z.to_nat (i + 16) = Some a4 /\
    slotData !! Z.to_nat (i + 20) = Some a5 /\
    slotData !! Z.to_nat (i + 24) = Some a6 /\
    slotData !! Z.to_nat (i + 28) = Some a7 /\
    slotData !! Z.to_nat (i + 44) = Some lo /\
    slotData !! Z.to_nat (i + 45) = Some hi /\
    a0 + a1 + a2 + a3 + a4 + a5 + a6 + a7 = level + 79 /\
    lo + 256 * hi = level.

(** The synthetic payload of the specification: attributes
    10,10,10,10,10,10,10,9 at offset 7 of a zero-filled payload, header
    level 0. *)
Definition synthetic_payload : Buffer :=
  replicate 7 0
  ++ [10; 0; 0; 0; 10; 0; 0; 0; 10; 0; 0; 0; 10; 0; 0; 0;
      10; 0; 0; 0; 10; 0; 0; 0; 10; 0; 0; 0; 9; 0; 0; 0]
  ++ replicate 80 0.

(** The fixed slot layout: round [k] of the loop has [checksumIndex]
    [slotChecksumStart k] and [slotDataIndex] [slotDataStart k]. *)
Definition slotChecksumStart (k : Z) : Z := 0x300 + k * 2621456.
Definition slotDataStart (k : Z) : Z := 0x310 + k * 2621456.

Abbreviation slotWindow b k :=
  (Buf.slice b (slotDataStart k) (slotDataStart k + 2621440)).

Abbreviation generalData b := (Buf.slice b 0x019003B0 (0x019603AF + 1)).

(** [b'] has the length of [b] and differs from it at most at the offsets
    in [P]. *)
Definition same_except (P : Z -> Prop) (b b' : Buffer) : Prop :=
  Buf.blength b' = Buf.blength b /\
  forall j, ~ P j -> Buf.at_index b' j = Buf.at_index b j.

(** A full-size sample file with a character in slot 0: 26608560 bytes,
    all zero except a stats block in slot 0 (attributes 10 x 8 at offset 44
    of the slot window, level 1 at offset 88) and the header level 1 of
    slot 0 at 26221872. The long runs of zeros are kept as [replicate] and
    never unfolded. [sample_window] is its slot 0 window and
    [sample_stats] what getCharacterStats reports for slot 0. *)
Definition sample_slot0 : list Z :=
  replicate 44 0
  ++ [10; 0; 0; 0; 10; 0; 0; 0; 10; 0; 0; 0; 10; 0; 0; 0;
      10; 0; 0; 0; 10; 0; 0; 0; 10; 0; 0; 0; 10; 0; 0; 0]
  ++ replicate 12 0 ++ [1; 0].

Definition sample_file : list Z :=
  replicate 784 0 ++ sample_slot0
  ++ replicate (Z.to_nat (26221872 - 874)) 0 ++ [1; 0]
  ++ replicate (Z.to_nat (26608560 - 26221874)) 0.

Definition sample_window : list Z :=
  sample_slot0 ++ replicate (Z.to_nat (2621440 - 90)) 0.

Definition sample_stats : CharacterStats :=
  mkCharacterStats 0 1 828 (mkStats 10 10 10 10 10 10 10 10)
    [0; 0; 0] [0; 0; 0] [0; 0; 0]
    [784; 788; 792] [812; 816; 820] [796; 800; 804].

(** The target container is a supported file: it holds all the fixed
    regions and the entry of slot [idx] sits at the fixed slot position. *)
Definition valid_target (target : SaveFile) (idx : Z) (targetSave : Save)
  : Prop :=
  0x019603B0 <= Buf.blength (buffer target) /\
  0 <= idx <= 9 /\
  (exists n, list_find (fun save => index save = Int idx) (saves target)
             = Some (n, targetSave)) /\
  dataOffset (header (gameFile targetSave)) = slotChecksumStart idx.

(** The source slot has the sizes of a slot: a 588-byte summary record, a
    checksum of at most 16 bytes and save data that fits a slot window. *)
Definition valid_source (source : Save) : Prop :=
  Buf.blength (headerData source) = HEADER_DATA_LENGTH /\
  Buf.blength (saveDataChecksum source) <= CHECKSUM_LENGTH /\
  Buf.blength (saveData source) <= SAVE_DATA_LENGTH.

(** A source slot of zeros and the sample file as target, with an entry
    for slot 0 at the fixed position. *)
Definition sample_entry : GameFile :=
  mkGameFile (mkGameFileHeader 0 2621456 (-1) 0x300 0 (Some (lit "USER_DATA000")))
             [].

Definition sample_save : Save :=
  mkSave (Int 0) false sample_entry (mkSaveHeaderInfo (lit "Empty Slot") 1 0)
         (replicate 588 0) (replicate 16 0)
         (replicate (Z.to_nat 2621440) 0).

Definition sample_target : SaveFile :=
  mkSaveFile false false 1 0 (lit "00000001") 0 true 0 0 0
             [header sample_entry] [sample_entry] [sample_save] sample_file.

(** A source slot whose save data are 17 bytes longer than a slot window:
    zeros, then a 1 as last byte. *)
Definition oversized_save : Save :=
  mkSave (Int 0) false sample_entry (mkSaveHeaderInfo (lit "Empty Slot") 1 0)
         (replicate 588 0) (replicate 16 0)
         (replicate (Z.to_nat 2621456) 0 ++ [1]).

(** The index an entry name stands for. *)
Definition entryIndex (gf : GameFile) : jsnum :=
  match name (header gf) with
  | Some n => parseInt (substring n (length SAVE_IDENTIFIER))
  | None => NaN
  end.

(** The entries the loop passes over with [continue]: no name, an empty
    name, a name that does not start with USER_DATA, or an index above 9. *)
Definition skipped (gf : GameFile) : bool :=
  match name (header gf) with
  | None => true
  | Some n =>
      bool_decide (n = []) || negb (startsWith n SAVE_IDENTIFIER)
      || num_gt (entryIndex gf) 9
  end.

Definition retained (gf : GameFile) : Prop := skipped gf = false.

Global Instance retained_dec (gf : GameFile) : Decision (retained gf).
Proof. unfold retained. apply _. Defined.

(** Ascending order of slots whose indexes are integers. *)
Definition index_le (a b : Save) : Prop :=
  exists x y, index a = Int x /\ index b = Int y /\ x <= y.

Definition has_index (s : Save) : Prop := exists w, index s = Int w.

(** A full-size file of zeros, with entries named after slots. *)
Definition zero_file : list Z := replicate (Z.to_nat 26608560) 0.

Definition entry_named (n : string) : GameFile :=
  mkGameFile (mkGameFileHeader 0 0 (-1) 0 (-1) (Some (lit n))) [].

Definition empty_slot (z : Z) (gf : GameFile) : Save :=
  mkSave (Int z) false gf (mkSaveHeaderInfo (lit "Empty Slot") 0 0)
         (replicate 588 0) (Buf.slice (data gf) 0 CHECKSUM_LENGTH)
         (Buf.slice_from (data gf) CHECKSUM_LENGTH).

(** The entry of slot 0 with a full payload of zeros: 16 bytes of checksum
    and 2621440 bytes of save data. *)
Definition full_entry : GameFile :=
  mkGameFile
    (mkGameFileHeader 0 2621456 (-1) 0x300 0 (Some (lit "USER_DATA000")))
    (replicate (Z.to_nat 2621456) 0).

(** The offsets of the eleven checksum fields: 16 bytes in front of each of
    the ten slot windows and 16 bytes in front of the general data. *)
Definition checksumField (j : Z) : Prop :=
  (exists k, 0 <= k < 10 /\
             slotChecksumStart k <= j < slotChecksumStart k + 16) \/
  0x019003A0 <= j < 0x019003B0.

(** Every checksum field holds the digest of the region it stands for. *)
Definition checksums_valid (b : Buffer) : Prop :=
  (forall k, 0 <= k < 10 ->
     Buf.slice b (slotChecksumStart k) (slotChecksumStart k + 16)
     = md5 (slotWindow b k)) /\
  Buf.slice b 0x019003A0 0x019003B0 = md5 (generalData b).

Definition isByte (v : Z) : Prop := 0 <= v <= 255.

Global Instance isByte_dec (v : Z) : Decision (isByte v).
Proof. unfold isByte. apply _. Defined.

(** The offsets a successful setCharacterStats may change, apart from the
    checksum fields: the eight attribute bytes, the two level fields and,
    with god mode or custom attributes, the nine resource fields. *)
Definition statsField (cs : CharacterStats) (options : Options) (j : Z)
  : Prop :=
  (exists k, 0 <= k < 8 /\ j = statsOffset cs + 4 * k) \/
  statsOffset cs + 44 <= j < statsOffset cs + 46 \/
  26221872 + slotIndex cs * 588 <= j < 26221872 + slotIndex cs * 588 + 2 \/
  ((godMode options = true \/ customAttributes options = true) /\
   Exists (fun o => o <= j < o + 2)
          (hpOffsets cs ++ fpOffsets cs ++ staminaOffsets cs)).

(** Decimal digits, most significant first, the number they write and the
    code units that show them. *)
Definition decimalValue (ds : list Z) : Z :=
  foldl (fun acc d => acc * 10 + d) 0 ds.

Definition digitChars (ds : list Z) : list Z := (fun d => 48 + d) <$> ds.

(** A run of byte pairs none of which is the pair of zero bytes. *)
Fixpoint nonzeroPairs (bs : list Z) : Prop :=
  match bs with
  | [] => True
  | lo :: hi :: rest => ~ (lo = 0 /\ hi = 0) /\ nonzeroPairs rest
  | [_] => False
  end.

(** The bytes one entry header takes in the table, by the format flags. *)
Definition entrySize (format : Z) : Z :=
  16
  + (if negb (Z.land format 32 =? 0) then 8 else 0)
  + (if negb (Z.land format 16 =? 0) then 8 else 4)
  + (if negb (Z.land format 2 =? 0) then 4 else 0)
  + (if negb (Z.land format (Z.lor 4 8) =? 0) then 4 else 0)
  + (if format =? 4 then 8 else 0).

(** What parseSaveFile returns for [one_entry_file]. *)
Definition one_entry_parsed : SaveFile :=
  mkSaveFile false false 1 0 (lit "00000001") 0 false 0 0 0
    [mkGameFileHeader 0 0 (-1) 0 (-1) None]
    [mkGameFile (mkGameFileHeader 0 0 (-1) 0 (-1) None) []] []
    one_entry_file.

(** A reader that, when it returns, has moved the cursor by [d]. *)
Definition advances {A} (d : Z) (m : BufferReader.Reader A) : Prop :=
  forall b o a o', m b o = Ok (a, o') -> o' = o + d.

(** A reader whose exceptions all lie in [E]. *)
Definition throws_only {A} (E : error -> Prop) (m : BufferReader.Reader A)
  : Prop :=
  forall b o e, m b o = Throw e -> E e.

(** The exceptions of the entry table. *)
Definition tableError (e : error) : Prop :=
  e = OutOfBounds \/ e = UnknownTableFormat \/ e = UnknownEncoding.

(** A codec that gives back what it was given. *)
Definition lossless (codec : Zstd) : Prop :=
  forall data level compressed,
    compress codec data level = Some compressed ->
    decompress codec compressed = Some data.

Definition identity_codec : Zstd :=
  mkZstd (fun data _ => Some data) (fun data => Some data).

(** A slot with a three-byte payload after its checksum. *)
Definition small_save : Save :=
  mkSave (Int 0) false sample_entry (mkSaveHeaderInfo (lit "Empty Slot") 0 0)
         (replicate 588 0) (replicate 16 0) [1; 2; 3].

(** * Properties *)

Example md5_abc :
  md5 (lit "abc")
  = [144; 1; 80; 152; 60; 210; 79; 176; 214; 150; 63; 125; 40; 225; 127; 114].
Proof. vm_compute. reflexivity. Qed.
Example md5_200 :
  md5 ((fun n => Z.of_nat n) <$> seq 0 200)
  = [251; 112; 1; 211; 75; 142; 130; 201; 181; 121; 190; 80; 5; 213; 176; 165].
Proof. vm_compute. reflexivity. Qed.

Lemma md5_length (message : Buffer) : length (md5 message) = 16%nat.
Proof.
  unfold md5, MD5.md5.
  destruct (MD5.blocks _ _ _) as [[[A B] C] D]. reflexivity.
Qed.

Example calculateHP_40 : calculateHP 40 = Some 1450.
Proof. vm_compute. reflexivity. Qed.

(** ** Checking a predicate on every integer of a range *)

Lemma forallb_range (P : Z -> bool) (n : nat) :
  forallb P (Z.of_nat <$> seq 0 n) = true ->
  forall z, 0 <= z < Z.of_nat n -> P z = true.
Proof.
  intros H z Hz.
  rewrite forallb_forall in H. apply H.
  apply list_elem_of_In, list_elem_of_fmap.
  exists (Z.to_nat z). split; [lia|].
  apply elem_of_seq. lia.
Qed.

(** ** The format byte (parseSaveFile, reverseBytes) *)

Lemma reverseBytes_bits (byte : Z) :
  0 <= byte < 256 ->
  0 <= reverseBytes byte < 256 /\
  forall i, 0 <= i <= 7 ->
    Z.testbit (reverseBytes byte) (7 - i) = Z.testbit byte i.
Proof.
  intros Hb.
  pose (P := fun b =>
    (0 <=? reverseBytes b) && (reverseBytes b <? 256) &&
    forallb (fun i => eqb (Z.testbit (reverseBytes b) (7 - i)) (Z.testbit b i))
            (Z.of_nat <$> seq 0 8)).
  assert (HP : P byte = true).
  { apply (forallb_range P 256); [vm_compute; reflexivity | lia]. }
  unfold P in HP. apply andb_true_iff in HP as [HP1 HP2].
  apply andb_true_iff in HP1 as [H0 H1].
  split; [lia|].
  intros i Hi.
  apply eqb_prop.
  exact (forallb_range _ 8 HP2 i ltac:(lia)).
Qed.

(** C9. For a raw format byte and the bit-order flag, the parser keeps the
    byte as it is exactly in the branch taken when the flag says
    big-endian bits or when bit 0 of the byte is set and bit 7 is clear; in
    the other branch the format is the bit reversal of the byte: a byte
    whose bit [7 - i] is bit [i] of the raw byte, for every i in 0..7. *)
Theorem resolveFormat_spec (bitBigEndian : bool) (rawFormat : Z) :
  0 <= rawFormat < 256 ->
  (bitBigEndian = true \/ (Z.land rawFormat 1 <> 0 /\ Z.land rawFormat 128 = 0) ->
     keepFormat bitBigEndian rawFormat = true /\
     resolveFormat bitBigEndian rawFormat = rawFormat) /\
  (~ (bitBigEndian = true \/ (Z.land rawFormat 1 <> 0 /\ Z.land rawFormat 128 = 0)) ->
     keepFormat bitBigEndian rawFormat = false /\
     resolveFormat bitBigEndian rawFormat = reverseBytes rawFormat /\
     0 <= resolveFormat bitBigEndian rawFormat < 256 /\
     forall i, 0 <= i <= 7 ->
       Z.testbit (resolveFormat bitBigEndian rawFormat) (7 - i)
       = Z.testbit rawFormat i).
Proof.
  intros Hb.
  assert (Hk : keepFormat bitBigEndian rawFormat = true <->
               (bitBigEndian = true \/
                (Z.land rawFormat 1 <> 0 /\ Z.land rawFormat 128 = 0))).
  { unfold keepFormat.
    rewrite orb_true_iff, andb_true_iff, negb_true_iff, !Z.eqb_eq, Z.eqb_neq.
    reflexivity. }
  split.
  - intros H. apply Hk in H. unfold resolveFormat. rewrite H. auto.
  - intros H.
    assert (Hf : keepFormat bitBigEndian rawFormat = false).
    { destruct (keepFormat bitBigEndian rawFormat) eqn:E; [|reflexivity].
      exfalso. apply H, Hk. reflexivity. }
    unfold resolveFormat. rewrite Hf. simpl.
    destruct (reverseBytes_bits rawFormat Hb) as [Hr Hbits]. auto.
Qed.

Lemma resolveFormat_spec_witness :
  resolveFormat false 0x74 = 0x2E /\ resolveFormat true 0x74 = 0x74 /\
  resolveFormat false 0x05 = 0x05.
Proof.
  pose proof (resolveFormat_spec false 0x74 ltac:(lia)) as [_ H1].
  pose proof (resolveFormat_spec true 0x74 ltac:(lia)) as [H2 _].
  pose proof (resolveFormat_spec false 0x05 ltac:(lia)) as [H3 _].
  split; [|split].
  - destruct H1 as (_ & -> & _); [|reflexivity].
    intros [H | [H _]]; [discriminate H | apply H; reflexivity].
  - apply H2. left. reflexivity.
  - apply H3. right. split; [vm_compute; discriminate | reflexivity].
Defined.

(** ** The resource tables (calculateHP, calculateFP, calculateStamina) *)

Lemma table_keys (l : list (Z * Z)) (v : Z) :
  forallb (fun p => (1 <=? p.1) && (p.1 <=? 99)) l = true ->
  v < 1 \/ 99 < v ->
  (list_to_map l : gmap Z Z) !! v = None.
Proof.
  intros H Hv. apply not_elem_of_list_to_map_1.
  intros Hin. apply list_elem_of_fmap in Hin as (p & -> & Hp).
  rewrite forallb_forall in H. apply list_elem_of_In, H in Hp. lia.
Qed.

Lemma tables_outside (v : Z) :
  v < 1 \/ 99 < v ->
  hpTable !! v = None /\ fpTable !! v = None /\ staminaTable !! v = None.
Proof.
  intros Hv. unfold hpTable, fpTable, staminaTable.
  repeat split; (apply table_keys; [vm_compute; reflexivity | exact Hv]).
Qed.

(** C10. The three lookups are total on the integers: an attribute from 1
    to 99 gives its table entry, an attribute above 99 gives the entry of
    99, and an attribute below 1, such as 0, gives the entry of 99 as
    well. *)
Theorem calculate_total (v : Z) :
  (is_Some (calculateHP v) /\ is_Some (calculateFP v) /\
   is_Some (calculateStamina v)) /\
  (1 <= v <= 99 ->
     is_Some (hpTable !! v) /\ calculateHP v = hpTable !! v /\
     is_Some (fpTable !! v) /\ calculateFP v = fpTable !! v /\
     is_Some (staminaTable !! v) /\ calculateStamina v = staminaTable !! v) /\
  (v < 1 \/ 99 < v ->
     calculateHP v = hpTable !! 99 /\ calculateHP v = Some 2100 /\
     calculateFP v = fpTable !! 99 /\ calculateFP v = Some 450 /\
     calculateStamina v = staminaTable !! 99 /\
     calculateStamina v = Some 170).
Proof.
  assert (Hin : 1 <= v <= 99 ->
     is_Some (hpTable !! v) /\ calculateHP v = hpTable !! v /\
     is_Some (fpTable !! v) /\ calculateFP v = fpTable !! v /\
     is_Some (staminaTable !! v) /\ calculateStamina v = staminaTable !! v).
  { intros Hv.
    pose (P := fun v : Z =>
      bool_decide (is_Some (hpTable !! v) /\ calculateHP v = hpTable !! v /\
        is_Some (fpTable !! v) /\ calculateFP v = fpTable !! v /\
        is_Some (staminaTable !! v) /\ calculateStamina v = staminaTable !! v)).
    assert (HP : P v = true).
    { pose proof (forallb_range (fun z => (z =? 0) || P z) 100
                    ltac:(vm_compute; reflexivity) v ltac:(lia)) as H.
      apply orb_true_iff in H as [H|H]; [lia | exact H]. }
    unfold P in HP. apply bool_decide_eq_true in HP. exact HP. }
  assert (Hout : v < 1 \/ 99 < v ->
     calculateHP v = hpTable !! 99 /\ calculateHP v = Some 2100 /\
     calculateFP v = fpTable !! 99 /\ calculateFP v = Some 450 /\
     calculateStamina v = staminaTable !! 99 /\
     calculateStamina v = Some 170).
  { intros Hv. unfold calculateHP, calculateFP, calculateStamina.
    destruct (Z.min_spec v 99) as [[Hlt ->] | [Hge ->]].
    - destruct (tables_outside v ltac:(lia)) as (-> & -> & ->).
      repeat split; vm_compute; reflexivity.
    - repeat split; vm_compute; reflexivity. }
  split; [|split]; [|exact Hin|exact Hout].
  destruct (decide (1 <= v <= 99)) as [Hv|Hv].
  - destruct (Hin Hv) as (H1 & -> & H2 & -> & H3 & ->). repeat split; assumption.
  - destruct (Hout ltac:(lia)) as (_ & -> & _ & -> & _ & ->). repeat split; eauto.
Qed.

Lemma calculate_total_witness :
  calculateHP 0 = Some 2100 /\ calculateHP 150 = Some 2100 /\
  calculateHP 40 = hpTable !! 40.
Proof.
  split; [|split].
  - apply (calculate_total 0). lia.
  - apply (calculate_total 150). lia.
  - apply (calculate_total 40). lia.
Defined.

(** ** BufferReader: reads at the end of the buffer *)

Lemma at_index_beyond (b : Buffer) (i : Z) :
  Buf.blength b <= i -> Buf.at_index b i = None.
Proof.
  unfold Buf.at_index, Buf.blength. intros H.
  destruct (i <? 0); [reflexivity|].
  apply lookup_ge_None. lia.
Qed.

Lemma at_index_Some (b : Buffer) (i : Z) :
  0 <= i < Buf.blength b -> is_Some (Buf.at_index b i).
Proof.
  unfold Buf.at_index, Buf.blength. intros H.
  destruct (Z.ltb_spec i 0); [lia|].
  apply lookup_lt_is_Some. lia.
Qed.

Lemma at_index_nonneg (b : Buffer) (i : Z) :
  0 <= i -> Buf.at_index b i = b !! Z.to_nat i.
Proof.
  unfold Buf.at_index. intros H. destruct (Z.ltb_spec i 0); [lia|reflexivity].
Qed.

Lemma slice_to_end (b : Buffer) (offset n : Z) :
  0 <= offset -> Buf.blength b < offset + n ->
  Buf.slice b offset (offset + n) = drop (Z.to_nat offset) b.
Proof.
  intros H0 Hn. unfold Buf.slice, Buf.adjustOffset.
  set (len := Buf.blength b) in *.
  assert (Hlen : len = Z.of_nat (length b)) by reflexivity.
  destruct (Z.eqb_spec (offset + n) 0); [lia|].
  destruct (Z.ltb_spec (offset + n) 0); [lia|].
  destruct (Z.ltb_spec (offset + n) len); [lia|].
  destruct (Z.eqb_spec offset 0) as [->|Hne].
  - destruct (Z.ltb_spec 0 len).
    + rewrite Z.sub_0_r. apply take_ge. rewrite length_drop. lia.
    + simpl. destruct b; [reflexivity | simpl in Hlen; lia].
  - destruct (Z.ltb_spec offset 0); [lia|].
    destruct (Z.ltb_spec offset len).
    + destruct (Z.ltb_spec offset len); [|lia].
      apply take_ge. rewrite length_drop. lia.
    + rewrite Z.ltb_irrefl. simpl.
      symmetry. apply drop_ge. lia.
Qed.

Lemma toString_ascii_to_end (b : Buffer) (offset n : Z) :
  0 <= offset -> Buf.blength b < offset + n ->
  Buf.toString_ascii b offset (offset + n)
  = (fun x => Z.land x 127) <$> drop (Z.to_nat offset) b.
Proof.
  intros H0 Hn. unfold Buf.toString_ascii.
  set (len := Buf.blength b) in *.
  assert (Hlen : len = Z.of_nat (length b)) by reflexivity.
  destruct (Z.ltb_spec len (offset + n)); [|lia].
  destruct (Z.leb_spec offset 0).
  - assert (offset = 0) as -> by lia. simpl.
    destruct (Z.leb_spec len 0).
    + destruct b; [reflexivity | simpl in Hlen; lia].
    + rewrite take_ge; [reflexivity | lia].
  - destruct (Z.leb_spec len offset).
    + rewrite drop_ge; [reflexivity | lia].
    + destruct (Z.leb_spec len offset); [lia|].
      rewrite take_ge; [reflexivity | rewrite length_drop; lia].
Qed.

(** C7 (amended). When the position plus the width of the read passes the
    end of the buffer, readUInt8, readBoolean, readInt32LE and
    readBigInt64LE fail with OutOfBounds. readString(n) and readBytes(n)
    never fail: they return the bytes that are left from the position (none
    when the position is at or past the end), fewer than a positive n, and
    still advance the position by n. *)
Theorem reads_past_end (buffer : Buffer) (offset : Z) :
  (Buf.blength buffer < offset + 1 ->
     BufferReader.readUInt8 buffer offset = Throw OutOfBounds /\
     BufferReader.readBoolean buffer offset = Throw OutOfBounds) /\
  (Buf.blength buffer < offset + 4 ->
     BufferReader.readInt32LE buffer offset = Throw OutOfBounds) /\
  (Buf.blength buffer < offset + 8 ->
     BufferReader.readBigInt64LE buffer offset = Throw OutOfBounds) /\
  (forall n, 0 <= offset -> Buf.blength buffer < offset + n ->
     BufferReader.readBytes n buffer offset
       = Ok (drop (Z.to_nat offset) buffer, offset + n) /\
     BufferReader.readString n buffer offset
       = Ok ((fun x => Z.land x 127) <$> drop (Z.to_nat offset) buffer,
             offset + n) /\
     (0 < n -> Z.of_nat (length (drop (Z.to_nat offset) buffer)) < n)).
Proof.
  split; [|split; [|split]].
  - intros H. split.
    + unfold BufferReader.readUInt8, Buf.readUInt8.
      rewrite at_index_beyond; [reflexivity | lia].
    + unfold BufferReader.readBoolean, BufferReader.bind,
        BufferReader.readUInt8, Buf.readUInt8.
      rewrite at_index_beyond; [reflexivity | lia].
  - intros H. unfold BufferReader.readInt32LE, Buf.readInt32LE.
    rewrite (at_index_beyond buffer (offset + 3)); [|lia].
    destruct (Buf.at_index buffer offset); [|reflexivity].
    destruct (Buf.at_index buffer (offset + 1)); [|reflexivity].
    destruct (Buf.at_index buffer (offset + 2)); reflexivity.
  - intros H. unfold BufferReader.readBigInt64LE, Buf.readBigInt64LE.
    rewrite (at_index_beyond buffer (offset + 7)); [|lia].
    destruct (Buf.at_index buffer offset); reflexivity.
  - intros n H0 H. split; [|split].
    + unfold BufferReader.readBytes. rewrite slice_to_end; [|assumption..].
      reflexivity.
    + unfold BufferReader.readString.
      rewrite toString_ascii_to_end; [|assumption..]. reflexivity.
    + intros Hn. rewrite length_drop. unfold Buf.blength in *. lia.
Qed.

Lemma reads_past_end_witness :
  BufferReader.readInt32LE [1; 2] 0 = Throw OutOfBounds /\
  BufferReader.readBytes 4 [1; 2; 3] 1 = Ok ([2; 3], 5).
Proof.
  split.
  - apply (reads_past_end [1; 2] 0). vm_compute. reflexivity.
  - apply (reads_past_end [1; 2; 3] 1 : _ /\ _ /\ _ /\ _).
    + lia.
    + vm_compute. reflexivity.
Defined.

(** C7, as stated, fails for readBytes and readString: four bytes are
    asked of a two-byte buffer, the position plus the width passes the end,
    and both return the two bytes there are instead of failing. *)
Lemma reads_past_end_counterexample :
  Buf.blength [66; 78] < 0 + 4 /\
  BufferReader.readBytes 4 [66; 78] 0 = Ok ([66; 78], 4) /\
  BufferReader.readString 4 [66; 78] 0 = Ok (lit "BN", 4).
Proof. vm_compute. repeat split; reflexivity. Qed.

(** ** The sentinel of an entry header (readGameFileHeaders) *)

Lemma reader_bind_unfold {A B} (m : BufferReader.Reader A)
    (k : A -> BufferReader.Reader B) (b : Buffer) (o : Z) :
  (m ≫= k) b o =
  match m b o with
  | Ok (a, o') => k a b o'
  | Throw e => Throw e
  | Diverge => Diverge
  end.
Proof. reflexivity. Qed.

Lemma other_failures_bind {A B} (m : BufferReader.Reader A)
    (k : A -> BufferReader.Reader B) :
  other_failures m -> (forall a, other_failures (k a)) ->
  other_failures (m ≫= k).
Proof.
  intros Hm Hk b o. rewrite reader_bind_unfold.
  specialize (Hm b o).
  destruct (m b o) as [[a o']|e|]; [apply Hk | congruence | discriminate].
Qed.

Lemma other_failures_ret {A} (a : A) : other_failures (BufferReader.ret a).
Proof. intros b o. discriminate. Qed.

Lemma other_failures_lift {A} (m : outcome A) :
  m <> Throw UnknownTableFormat -> other_failures (BufferReader.lift m).
Proof.
  intros H b o. unfold BufferReader.lift.
  destruct m as [a|e|]; cbn; congruence.
Qed.

Lemma other_failures_readUInt8 : other_failures BufferReader.readUInt8.
Proof.
  intros b o. unfold BufferReader.readUInt8, Buf.readUInt8.
  destruct (Buf.at_index b o); discriminate.
Qed.

Lemma other_failures_readInt32LE : other_failures BufferReader.readInt32LE.
Proof.
  intros b o. unfold BufferReader.readInt32LE, Buf.readInt32LE.
  repeat match goal with
         | |- context [match Buf.at_index ?x ?y with _ => _ end] =>
             destruct (Buf.at_index x y)
         end; discriminate.
Qed.

Lemma other_failures_readBigInt64LE :
  other_failures BufferReader.readBigInt64LE.
Proof.
  intros b o. unfold BufferReader.readBigInt64LE, Buf.readBigInt64LE.
  repeat match goal with
         | |- context [match Buf.at_index ?x ?y with _ => _ end] =>
             destruct (Buf.at_index x y)
         end; discriminate.
Qed.

Lemma other_failures_readBytes (n : Z) :
  other_failures (BufferReader.readBytes n).
Proof. intros b o. discriminate. Qed.

Lemma other_failures_seek (p : Z) : other_failures (BufferReader.seek p).
Proof. intros b o. discriminate. Qed.

Lemma other_failures_offset : other_failures BufferReader.offset.
Proof. intros b o. discriminate. Qed.

Lemma other_failures_readUnicodeString_loop (fuel : nat) (bytes : list Z) :
  other_failures (readUnicodeString_loop fuel bytes).
Proof.
  revert bytes. induction fuel as [|fuel IH]; intros bytes.
  - intros b o. discriminate.
  - cbn [readUnicodeString_loop].
    apply other_failures_bind; [apply other_failures_readBytes|].
    intros charBytes.
    destruct (_ || _); [apply IH | apply other_failures_ret].
Qed.

Lemma other_failures_readUnicodeString (bigEndian : bool) :
  other_failures (readUnicodeString bigEndian).
Proof.
  intros b o. unfold readUnicodeString.
  pose proof (other_failures_readUnicodeString_loop
                (Z.to_nat (Buf.blength b - o)) [] b o) as H.
  destruct (readUnicodeString_loop _ _ b o) as [[bytes o']|e|];
    [|congruence|discriminate].
  destruct (bool_decide _); [discriminate|].
  destruct bigEndian; discriminate.
Qed.

Create HintDb other_failures.
#[export] Hint Resolve other_failures_ret other_failures_readUInt8
  other_failures_readInt32LE other_failures_readBigInt64LE
  other_failures_readBytes other_failures_seek other_failures_offset
  other_failures_readUnicodeString : other_failures.

Ltac other_failures :=
  repeat first
    [ solve [auto with other_failures]
    | match goal with
      | |- other_failures (if ?c then _ else _) => destruct c
      | |- other_failures (_ ≫= _) => apply other_failures_bind; [|intros ?]
      end ].

(** The sentinel check of one entry header at [offset]: once the flag byte
    and the 32-bit field can be read, the entry fails with
    UnknownTableFormat exactly when the field is not -1. *)
Lemma readGameFileHeader_sentinel (format : Z) (unicode bigEndian : bool)
    (b : Buffer) (offset fileFlags sentinel : Z) :
  Buf.readUInt8 b offset = Ok fileFlags ->
  Buf.readInt32LE b (offset + 4) = Ok sentinel ->
  readGameFileHeader format unicode bigEndian b offset = Throw UnknownTableFormat
  <-> sentinel <> -1.
Proof.
  intros H1 H2. unfold readGameFileHeader.
  rewrite reader_bind_unfold. unfold BufferReader.readUInt8 at 1.
  rewrite H1. cbn [mbind outcome_bind].
  rewrite reader_bind_unfold. cbn [BufferReader.skip].
  rewrite reader_bind_unfold. unfold BufferReader.readInt32LE at 1.
  replace (offset + 1 + 3) with (offset + 4) by lia.
  rewrite H2. cbn [mbind outcome_bind].
  destruct (Z.eqb_spec sentinel (-1)) as [->|Hne]; cbn [negb].
  - split; [|intros H; exfalso; apply H; reflexivity].
    intros H. exfalso. revert H.
    match goal with
    | |- ?m b ?o = _ -> False =>
        cut (other_failures m); [intros Hof; exact (Hof b o)|]
    end.
    other_failures.
  - split; [intros _; exact Hne | reflexivity].
Qed.

Lemma readGameFileHeaders_loop_app (k m : nat) (format : Z)
    (unicode bigEndian : bool) (acc : list GameFileHeader) (b : Buffer)
    (o : Z) :
  readGameFileHeaders_loop (k + m) format unicode bigEndian acc b o =
  match readGameFileHeaders_loop k format unicode bigEndian acc b o with
  | Ok (headers, o') =>
      readGameFileHeaders_loop m format unicode bigEndian headers b o'
  | Throw e => Throw e
  | Diverge => Diverge
  end.
Proof.
  revert acc o. induction k as [|k IH]; intros acc o; [reflexivity|].
  cbn [Nat.add readGameFileHeaders_loop]. rewrite !reader_bind_unfold.
  destruct (readGameFileHeader format unicode bigEndian b o) as [[h o']|e|];
    [apply IH | reflexivity | reflexivity].
Qed.

(** C6 (amended). When the entries before entry [k] parse and the 32-bit
    field that follows the flag byte and the 3 skipped bytes of entry [k]
    is anything but -1, readGameFileHeaders fails with UnknownTableFormat;
    when the field is -1, the sentinel the parser expects, the entry does
    not fail with UnknownTableFormat. *)
Theorem sentinel_mismatch_aborts (fileCount : Z) (k : nat) (format : Z)
    (unicode bigEndian : bool) (b : Buffer) (offset offset' : Z)
    (headers : list GameFileHeader) (fileFlags sentinel : Z) :
  Z.of_nat k < fileCount ->
  readGameFileHeaders (Z.of_nat k) format unicode bigEndian b offset
    = Ok (headers, offset') ->
  Buf.readUInt8 b offset' = Ok fileFlags ->
  Buf.readInt32LE b (offset' + 4) = Ok sentinel ->
  (sentinel <> -1 ->
     readGameFileHeaders fileCount format unicode bigEndian b offset
     = Throw UnknownTableFormat) /\
  (sentinel = -1 ->
     readGameFileHeader format unicode bigEndian b offset'
     <> Throw UnknownTableFormat).
Proof.
  intros Hk Hfirst H1 H2.
  pose proof (readGameFileHeader_sentinel format unicode bigEndian b offset'
                fileFlags sentinel H1 H2) as Hs.
  split.
  - intros Hne. unfold readGameFileHeaders in *.
    rewrite Nat2Z.id in Hfirst.
    replace (Z.to_nat fileCount)
      with (k + S (Z.to_nat fileCount - k - 1))%nat by lia.
    rewrite readGameFileHeaders_loop_app, Hfirst.
    cbn [readGameFileHeaders_loop]. rewrite reader_bind_unfold.
    apply Hs in Hne. rewrite Hne. reflexivity.
  - intros -> H. apply Hs in H. apply H. reflexivity.
Qed.

Lemma sentinel_mismatch_aborts_witness :
  readGameFileHeaders 2 0 false false [7; 0; 0; 0; 0; 0; 0; 0] 0
  = Throw UnknownTableFormat.
Proof.
  refine (proj1 (sentinel_mismatch_aborts 2 0 0 false false
                   [7; 0; 0; 0; 0; 0; 0; 0] 0 0 [] 7 0 _ _ _ _) _).
  - lia.
  - reflexivity.
  - reflexivity.
  - reflexivity.
  - lia.
Defined.

(** C6, as stated, fails: the 32-bit field of the entry holds -1 and the
    entry, the table and the whole file parse. *)
Lemma sentinel_counterexample :
  Buf.readInt32LE one_entry_file (64 + 4) = Ok (-1) /\
  readGameFileHeaders 1 0 false false one_entry_file 64
    = Ok ([mkGameFileHeader 0 0 (-1) 0 (-1) None], 84) /\
  (gameFileHeaders <$> parseSaveFile one_entry_file)
    = Ok [mkGameFileHeader 0 0 (-1) 0 (-1) None].
Proof. vm_compute. repeat split; reflexivity. Qed.

(** ** A parsed file went through the format rule and the entry table *)

Lemma readUInt8_range (b : Buffer) (o v : Z) :
  Forall (fun x => 0 <= x < 256) b ->
  Buf.readUInt8 b o = Ok v -> 0 <= v < 256.
Proof.
  intros Hb. unfold Buf.readUInt8, Buf.at_index.
  destruct (o <? 0); [discriminate|].
  destruct (b !! Z.to_nat o) as [x|] eqn:E; [|discriminate].
  intros [= <-]. rewrite Forall_lookup in Hb. exact (Hb _ _ E).
Qed.

Lemma reader_bind_Ok {A B} (m : BufferReader.Reader A)
    (k : A -> BufferReader.Reader B) (b : Buffer) (o : Z) (r : B * Z) :
  (m ≫= k) b o = Ok r ->
  exists a o', m b o = Ok (a, o') /\ k a b o' = Ok r.
Proof.
  rewrite reader_bind_unfold.
  destruct (m b o) as [[a o']|e|]; [eauto | discriminate..].
Qed.

Lemma reader_readUInt8_Ok (b : Buffer) (o v o' : Z) :
  BufferReader.readUInt8 b o = Ok (v, o') ->
  Buf.readUInt8 b o = Ok v /\ o' = o + 1.
Proof.
  unfold BufferReader.readUInt8.
  destruct (Buf.readUInt8 b o); cbn; [|discriminate..].
  intros [= -> ->]. auto.
Qed.

Lemma reader_readBoolean_Ok (b : Buffer) (o : Z) (v : bool) (o' : Z) :
  BufferReader.readBoolean b o = Ok (v, o') ->
  (exists x, Buf.readUInt8 b o = Ok x /\ v = negb (x =? 0)) /\ o' = o + 1.
Proof.
  unfold BufferReader.readBoolean, BufferReader.bind.
  destruct (BufferReader.readUInt8 b o) as [[x o1]|e|] eqn:E; [|discriminate..].
  apply reader_readUInt8_Ok in E as [E ->].
  intros [= <- <-]. eauto.
Qed.

Lemma reader_readInt32LE_Ok (b : Buffer) (o v o' : Z) :
  BufferReader.readInt32LE b o = Ok (v, o') ->
  Buf.readInt32LE b o = Ok v /\ o' = o + 4.
Proof.
  unfold BufferReader.readInt32LE.
  destruct (Buf.readInt32LE b o); cbn; [|discriminate..].
  intros [= -> ->]. auto.
Qed.

Lemma reader_readBigInt64LE_Ok (b : Buffer) (o v o' : Z) :
  BufferReader.readBigInt64LE b o = Ok (v, o') ->
  Buf.readBigInt64LE b o = Ok v /\ o' = o + 8.
Proof.
  unfold BufferReader.readBigInt64LE.
  destruct (Buf.readBigInt64LE b o); cbn; [|discriminate..].
  intros [= -> ->]. auto.
Qed.

Lemma parseSaveFile_inv (b : Buffer) (sf : SaveFile) :
  parseSaveFile b = Ok sf ->
  Buf.readUInt8 b 49 = Ok (rawFormat sf) /\
  format sf = resolveFormat (bitBigEndian sf) (rawFormat sf) /\
  (exists o, readGameFileHeaders (fileCount sf) (format sf) (unicode sf)
               (bigEndian sf) b 64 = Ok (gameFileHeaders sf, o)) /\
  processSaves b (gameFiles sf) = Ok (saves sf) /\
  buffer sf = b.
Proof.
  unfold parseSaveFile. intros H.
  match type of H with
  | (?m ≫= _) = _ => destruct m as [[sf' o]|e|] eqn:E; [|discriminate..]
  end.
  cbn in H. injection H as ->.
  apply reader_bind_Ok in E as (magic & o1 & E1 & E). injection E1 as <- <-.
  destruct (negb _); [discriminate|].
  apply reader_bind_Ok in E as (? & o2 & E2 & E). injection E2 as <-.
  apply reader_bind_Ok in E as (be & o3 & E3 & E).
  apply reader_readBoolean_Ok in E3 as [_ ->].
  apply reader_bind_Ok in E as (bb & o4 & E4 & E).
  apply reader_readBoolean_Ok in E4 as [_ ->].
  apply reader_bind_Ok in E as (? & o5 & E5 & E). injection E5 as <-.
  apply reader_bind_Ok in E as (fc & o6 & E6 & E).
  apply reader_readInt32LE_Ok in E6 as [_ ->].
  apply reader_bind_Ok in E as (hs & o7 & E7 & E).
  apply reader_readBigInt64LE_Ok in E7 as [_ ->].
  apply reader_bind_Ok in E as (ver & o8 & E8 & E). injection E8 as <- <-.
  apply reader_bind_Ok in E as (fhs & o9 & E9 & E).
  apply reader_readBigInt64LE_Ok in E9 as [_ ->].
  apply reader_bind_Ok in E as (? & o10 & E10 & E). injection E10 as <-.
  apply reader_bind_Ok in E as (uni & o11 & E11 & E).
  apply reader_readBoolean_Ok in E11 as [_ ->].
  apply reader_bind_Ok in E as (raw & o12 & E12 & E).
  apply reader_readUInt8_Ok in E12 as [Hraw ->].
  apply reader_bind_Ok in E as (ext & o13 & E13 & E).
  apply reader_readUInt8_Ok in E13 as [_ ->].
  apply reader_bind_Ok in E as (? & o14 & E14 & E). injection E14 as <-.
  apply reader_bind_Ok in E as (gfh & o15 & E15 & E).
  apply reader_bind_Ok in E as (gfs & o16 & E16 & E).
  apply reader_bind_Ok in E as (ss & o17 & E17 & E).
  injection E as <- <-. cbn.
  unfold BufferReader.lift in E17.
  destruct (processSaves b gfs) as [ss'| |] eqn:Eps; [|discriminate..].
  cbn in E17. injection E17 as <- <-. subst.
  replace (0 + 4 + 5 + 1 + 1 + 1 + 4 + 8 + 8 + 8 + 8 + 1) with 49 in Hraw
    by reflexivity.
  replace (0 + 4 + 5 + 1 + 1 + 1 + 4 + 8 + 8 + 8 + 8 + 1 + 1 + 1 + 13)
    with 64 in E15 by reflexivity.
  split; [exact Hraw|]. split; [reflexivity|]. split; [eauto|].
  split; [exact Eps | reflexivity].
Qed.

(** ** The stats locator (getCharacterStats) *)

Lemma readUInt8_Ok (b : Buffer) (i v : Z) :
  0 <= i -> Buf.readUInt8 b i = Ok v <-> b !! Z.to_nat i = Some v.
Proof.
  intros Hi. unfold Buf.readUInt8. rewrite at_index_nonneg by assumption.
  destruct (b !! Z.to_nat i); split; congruence.
Qed.

Lemma readUInt16LE_Ok (b : Buffer) (i v : Z) :
  0 <= i ->
  Buf.readUInt16LE b i = Ok v <->
  exists lo hi, b !! Z.to_nat i = Some lo /\ b !! Z.to_nat (i + 1) = Some hi /\
                v = lo + 256 * hi.
Proof.
  intros Hi. unfold Buf.readUInt16LE.
  rewrite !at_index_nonneg by lia.
  destruct (b !! Z.to_nat i) as [lo|], (b !! Z.to_nat (i + 1)) as [hi|];
    split; try discriminate.
  - intros [= <-]. exists lo, hi. repeat split; lia.
  - intros (lo' & hi' & [= <-] & [= <-] & ->). f_equal. lia.
  - intros (lo' & hi' & _ & H & _). discriminate.
  - intros (lo' & hi' & H & _). discriminate.
  - intros (lo' & hi' & H & _). discriminate.
Qed.

Lemma outcome_bind_Ok {A B} (m : outcome A) (k : A -> outcome B) (r : B) :
  m ≫= k = Ok r <-> exists a, m = Ok a /\ k a = Ok r.
Proof.
  destruct m as [a|e|]; cbn; split.
  - eauto.
  - intros (a' & [= <-] & H). exact H.
  - discriminate.
  - intros (a' & H & _). discriminate.
  - discriminate.
  - intros (a' & H & _). discriminate.
Qed.

(** A round of the search accepts offset [i] with [attrs] exactly when the
    stats block pattern is there. *)
Lemma candidate_statsBlockAt (slotData : Buffer) (level i : Z)
    (attrs : list Z) :
  0 <= i ->
  (exists c, potentialStatsAt slotData i = Ok c /\
             statsMatch level c = true /\ c.1 = attrs)
  <-> statsBlockAt slotData level i attrs.
Proof.
  intros Hi. unfold potentialStatsAt, statsBlockAt. split.
  - intros (c & Hc & Hm & <-).
    repeat (apply outcome_bind_Ok in Hc as (? & ?%readUInt8_Ok & Hc); [|lia]).
    apply outcome_bind_Ok in Hc as (lvl & Hl & Hc).
    apply readUInt16LE_Ok in Hl as (lo & hi & Hlo & Hhi & ->); [|lia].
    injection Hc as <-.
    unfold statsMatch in Hm. cbn in Hm.
    apply andb_true_iff in Hm as [Hs Hl]. apply Z.eqb_eq in Hs, Hl.
    replace (i + 44 + 1) with (i + 45) in Hhi by lia.
    do 10 eexists. repeat split; try eassumption; lia.
  - intros (a0 & a1 & a2 & a3 & a4 & a5 & a6 & a7 & lo & hi & -> &
            H0 & H1 & H2 & H3 & H4 & H5 & H6 & H7 & Hlo & Hhi & Hs & Hl).
    exists ([a0; a1; a2; a3; a4; a5; a6; a7], lo + 256 * hi).
    split; [|split; [|reflexivity]].
    + apply readUInt8_Ok in H0, H1, H2, H3, H4, H5, H6, H7; try lia.
      rewrite H0, H1, H2, H3, H4, H5, H6, H7. cbn.
      assert (Hr : Buf.readUInt16LE slotData (i + 44) = Ok (lo + 256 * hi)).
      { apply readUInt16LE_Ok; [lia|]. exists lo, hi.
        replace (i + 44 + 1) with (i + 45) by lia. auto. }
      rewrite Hr. reflexivity.
    + unfold statsMatch. cbn.
      apply andb_true_iff. split; apply Z.eqb_eq; lia.
Qed.

Lemma findStats_loop_spec (fuel : nat) (slotData : Buffer)
    (level bound i : Z) :
  0 <= i ->
  match findStats_loop fuel slotData level bound i with
  | Some (r, attrs) =>
      i <= r < bound /\ r < i + Z.of_nat fuel /\
      statsBlockAt slotData level r attrs /\
      forall j a, i <= j < r -> ~ statsBlockAt slotData level j a
  | None =>
      forall j a, i <= j < Z.min bound (i + Z.of_nat fuel) ->
                  ~ statsBlockAt slotData level j a
  end.
Proof.
  revert i. induction fuel as [|fuel IH]; intros i Hi.
  - cbn. intros j a Hj. lia.
  - cbn [findStats_loop].
    destruct (Z.ltb_spec i bound) as [Hlt|Hge]; [|intros j a Hj; lia].
    assert (Hnext : (forall a, ~ statsBlockAt slotData level i a) ->
      match findStats_loop fuel slotData level bound (i + 1) with
      | Some (r, attrs) =>
          i <= r < bound /\ r < i + Z.of_nat (S fuel) /\
          statsBlockAt slotData level r attrs /\
          forall j a, i <= j < r -> ~ statsBlockAt slotData level j a
      | None =>
          forall j a, i <= j < Z.min bound (i + Z.of_nat (S fuel)) ->
                      ~ statsBlockAt slotData level j a
      end).
    { intros Hno. specialize (IH (i + 1) ltac:(lia)).
      destruct (findStats_loop fuel slotData level bound (i + 1))
        as [[r attrs]|].
      - destruct IH as (Hr & Hf & Hb & Hmin).
        repeat split; try lia; [exact Hb|].
        intros j a Hj. destruct (Z.eq_dec j i) as [->|Hne]; [apply Hno|].
        apply Hmin. lia.
      - intros j a Hj. destruct (Z.eq_dec j i) as [->|Hne]; [apply Hno|].
        apply IH. lia. }
    destruct (potentialStatsAt slotData i) as [c|e|] eqn:Ec.
    + destruct (statsMatch level c) eqn:Em.
      * split; [lia|]. split; [lia|]. split; [|intros j a Hj; lia].
        apply candidate_statsBlockAt; [lia|]. exists c. auto.
      * apply Hnext. intros a Ha.
        apply candidate_statsBlockAt in Ha as (c' & Hc' & Hm' & _); [|lia].
        congruence.
    + apply Hnext. intros a Ha.
      apply candidate_statsBlockAt in Ha as (c' & Hc' & _); [|lia].
      congruence.
    + apply Hnext. intros a Ha.
      apply candidate_statsBlockAt in Ha as (c' & Hc' & _); [|lia].
      congruence.
Qed.

(** C2. The locator scans the offsets from 0 below
    min(120000, payloadLength - 50) in ascending order and returns the
    lowest one that carries the stats block pattern for the header level,
    with its eight attributes; it reports "not found" when no offset below
    the bound carries it. No offset before the first match is returned. *)
Theorem findStats_lowest_match (slotData : Buffer) (level : Z) :
  let bound := Z.min 120000 (Buf.blength slotData - 50) in
  match findStats slotData level with
  | Some (i, attrs) =>
      0 <= i < bound /\ statsBlockAt slotData level i attrs /\
      forall j a, 0 <= j < i -> ~ statsBlockAt slotData level j a
  | None =>
      forall j a, 0 <= j < bound -> ~ statsBlockAt slotData level j a
  end.
Proof.
  intros bound. unfold findStats. fold bound.
  pose proof (findStats_loop_spec (Z.to_nat bound) slotData level bound 0
                ltac:(lia)) as H.
  destruct (findStats_loop _ _ _ _ _) as [[i attrs]|].
  - destruct H as (Hi & _ & Hb & Hmin). auto.
  - intros j a Hj. apply H. lia.
Qed.

Example findStats_synthetic :
  findStats synthetic_payload 0 = Some (7, [10; 10; 10; 10; 10; 10; 10; 9]).
Proof. vm_compute. reflexivity. Qed.

Example findStats_too_short :
  findStats (take 56 synthetic_payload) 0 = None.
Proof. vm_compute. reflexivity. Qed.

(** ** Buffers: reading back slices, copies and writes by index *)

Lemma at_index_negative (b : Buffer) (j : Z) : j < 0 -> Buf.at_index b j = None.
Proof.
  intros H. unfold Buf.at_index. destruct (Z.ltb_spec j 0); [reflexivity|lia].
Qed.

Lemma at_index_ext (b b' : Buffer) :
  (forall j, 0 <= j -> Buf.at_index b j = Buf.at_index b' j) -> b = b'.
Proof.
  intros H. apply list_eq. intros i.
  specialize (H (Z.of_nat i) ltac:(lia)).
  rewrite !at_index_nonneg, Nat2Z.id in H by lia. exact H.
Qed.

Lemma at_index_is_Some (b : Buffer) (j : Z) :
  is_Some (Buf.at_index b j) <-> 0 <= j < Buf.blength b.
Proof.
  split; [|apply at_index_Some].
  intros [v Hv]. destruct (Z.lt_ge_cases j 0) as [Hn|Hn].
  - rewrite at_index_negative in Hv by assumption. discriminate.
  - destruct (Z.lt_ge_cases j (Buf.blength b)) as [Hl|Hl]; [lia|].
    rewrite at_index_beyond in Hv by assumption. discriminate.
Qed.

Lemma adjustOffset_nonneg (x len : Z) :
  0 <= x -> 0 <= len -> Buf.adjustOffset x len = Z.min x len.
Proof.
  intros Hx Hl. unfold Buf.adjustOffset.
  destruct (Z.eqb_spec x 0); [lia|].
  destruct (Z.ltb_spec x 0); [lia|].
  destruct (Z.ltb_spec x len); lia.
Qed.

Lemma at_index_slice (b : Buffer) (s e k : Z) :
  0 <= s -> 0 <= e -> 0 <= k ->
  Buf.at_index (Buf.slice b s e) k
  = if decide (s + k < e) then Buf.at_index b (s + k) else None.
Proof.
  intros Hs He Hk. rewrite !at_index_nonneg by lia.
  unfold Buf.slice, Buf.blength. cbv zeta.
  rewrite !adjustOffset_nonneg by lia.
  set (len := Z.of_nat (length b)).
  assert (Hlen : len = Z.of_nat (length b)) by reflexivity.
  rewrite lookup_take, lookup_drop.
  assert (Hnone : forall n, (length b <= n)%nat -> b !! n = None).
  { intros n Hn. apply lookup_ge_None. exact Hn. }
  destruct (Z.ltb_spec (Z.min s len) (Z.min e len));
    repeat case_decide; try lia; try reflexivity.
  - f_equal. lia.
  - symmetry. apply Hnone. lia.
  - symmetry. apply Hnone. lia.
Qed.

Lemma slice_ext (b b' : Buffer) (s e : Z) :
  0 <= s -> 0 <= e ->
  (forall j, s <= j < e -> Buf.at_index b j = Buf.at_index b' j) ->
  Buf.slice b s e = Buf.slice b' s e.
Proof.
  intros Hs He H. apply at_index_ext. intros k Hk.
  rewrite !at_index_slice by assumption.
  case_decide; [apply H; lia | reflexivity].
Qed.

Lemma blength_slice (b : Buffer) (s e : Z) :
  0 <= s <= e -> e <= Buf.blength b -> Buf.blength (Buf.slice b s e) = e - s.
Proof.
  intros Hs He. unfold Buf.slice, Buf.blength in *. cbv zeta.
  rewrite !adjustOffset_nonneg by lia.
  rewrite length_take, length_drop.
  destruct (Z.ltb_spec (Z.min s (Z.of_nat (length b)))
                       (Z.min e (Z.of_nat (length b)))); lia.
Qed.

Lemma blength_slice_le (b : Buffer) (s e : Z) :
  0 <= s -> Buf.blength (Buf.slice b s e) <= Z.max 0 (Buf.blength b - s).
Proof.
  intros Hs. unfold Buf.slice, Buf.blength in *. cbv zeta.
  rewrite (adjustOffset_nonneg s) by lia.
  rewrite length_take, length_drop.
  match goal with
  | |- context [Z.ltb ?x ?y] => destruct (Z.ltb_spec x y)
  end; lia.
Qed.

Lemma blength_copy_at (k l : Buffer) (i : Z) :
  Buf.blength (Buf.copy_at k l i) = Buf.blength l.
Proof. unfold Buf.blength, Buf.copy_at. rewrite length_inserts. reflexivity. Qed.

Lemma at_index_copy_at (k l : Buffer) (i j : Z) :
  0 <= i ->
  Buf.at_index (Buf.copy_at k l i) j
  = if decide (i <= j < i + Buf.blength k /\ j < Buf.blength l)
    then Buf.at_index k (j - i) else Buf.at_index l j.
Proof.
  intros Hi. destruct (Z.lt_ge_cases j 0) as [Hj|Hj].
  - rewrite !(at_index_negative _ j) by assumption.
    case_decide; [lia | reflexivity].
  - rewrite (at_index_nonneg _ j), (at_index_nonneg l j) by assumption.
    unfold Buf.copy_at, Buf.blength. case_decide as Hd.
    + rewrite at_index_nonneg by lia.
      rewrite list_lookup_inserts by lia. f_equal. lia.
    + destruct (Z.lt_ge_cases j i).
      * apply list_lookup_inserts_lt. lia.
      * destruct (Z.lt_ge_cases j (i + Z.of_nat (length k))).
        -- rewrite !(proj2 (lookup_ge_None _ _));
             [reflexivity | lia | rewrite length_inserts; lia].
        -- apply list_lookup_inserts_ge. lia.
Qed.

Lemma blength_set_index (b : Buffer) (i v : Z) :
  Buf.blength (Buf.set_index b i v) = Buf.blength b.
Proof.
  unfold Buf.blength, Buf.set_index.
  destruct (i <? 0); [reflexivity|]. rewrite length_insert. reflexivity.
Qed.

Lemma at_index_set_index (b : Buffer) (i v j : Z) :
  Buf.at_index (Buf.set_index b i v) j
  = if decide (i = j /\ 0 <= i < Buf.blength b) then Some v
    else Buf.at_index b j.
Proof.
  unfold Buf.set_index, Buf.blength.
  destruct (Z.ltb_spec i 0) as [Hi|Hi]; [case_decide; [lia|reflexivity]|].
  destruct (Z.lt_ge_cases j 0) as [Hj|Hj].
  - rewrite !(at_index_negative _ j) by assumption.
    case_decide; [lia | reflexivity].
  - rewrite !(at_index_nonneg _ j) by assumption.
    rewrite list_lookup_insert.
    repeat case_decide; try reflexivity; lia.
Qed.

(** ** The checksum engine (recalculateChecksums) *)

Lemma blength_md5 (x : Buffer) : Buf.blength (md5 x) = 16.
Proof. unfold Buf.blength. rewrite md5_length. reflexivity. Qed.

(** The comparison before the copy only saves a write. *)
Lemma recalculateSlot_copy (b : Buffer) (sdi ci : Z) :
  0 <= ci ->
  recalculateSlot b sdi ci
  = Buf.copy_at (md5 (Buf.slice b sdi (sdi + 2621440))) b ci.
Proof.
  intros Hci. unfold recalculateSlot. cbv zeta.
  replace (sdi + 2621439 + 1) with (sdi + 2621440) by lia.
  replace (ci + 15 + 1) with (ci + 16) by lia.
  rewrite blength_md5.
  set (new := md5 (Buf.slice b sdi (sdi + 2621440))).
  assert (Hnew : Buf.blength new = 16) by apply blength_md5.
  unfold Buf.equals. case_bool_decide as Heq; [|reflexivity].
  cbn [negb]. apply at_index_ext. intros j Hj.
  rewrite at_index_copy_at by assumption.
  case_decide as Hd; [|reflexivity].
  rewrite Hnew in Hd.
  rewrite Heq.
  rewrite at_index_slice by lia.
  case_decide; [|lia].
  rewrite at_index_slice by lia.
  case_decide; [|lia].
  f_equal. lia.
Qed.

Lemma slotWindow_copy_at (k0 k : Z) (x b : Buffer) :
  0 <= k0 -> 0 <= k -> Buf.blength x = 16 ->
  slotWindow (Buf.copy_at x b (slotChecksumStart k0)) k = slotWindow b k.
Proof.
  intros H0 Hk Hx. unfold slotDataStart, slotChecksumStart.
  apply slice_ext; [lia | lia |].
  intros j Hj. rewrite at_index_copy_at by lia.
  case_decide; [lia | reflexivity].
Qed.

Lemma recalculateSlots_spec (n : nat) (b : Buffer) (k0 : Z) :
  0 <= k0 ->
  let b' := recalculateSlots n b (slotDataStart k0) (slotChecksumStart k0) in
  Buf.blength b' = Buf.blength b /\
  (forall j,
     (forall k, k0 <= k < k0 + Z.of_nat n ->
                ~ (slotChecksumStart k <= j < slotChecksumStart k + 16)) ->
     Buf.at_index b' j = Buf.at_index b j) /\
  (forall k j,
     k0 <= k < k0 + Z.of_nat n ->
     slotChecksumStart k <= j < slotChecksumStart k + 16 ->
     j < Buf.blength b ->
     Buf.at_index b' j
     = Buf.at_index (md5 (slotWindow b k)) (j - slotChecksumStart k)).
Proof.
  revert b k0. induction n as [|n IH]; intros b k0 Hk0; cbv zeta.
  - cbn [recalculateSlots]. split; [reflexivity|]. split; [reflexivity|].
    intros k j Hk. lia.
  - cbn [recalculateSlots].
    rewrite recalculateSlot_copy by (unfold slotChecksumStart; lia).
    replace (slotDataStart k0 + 2621456) with (slotDataStart (k0 + 1))
      by (unfold slotDataStart; lia).
    replace (slotChecksumStart k0 + 2621456) with (slotChecksumStart (k0 + 1))
      by (unfold slotChecksumStart; lia).
    set (b1 := Buf.copy_at (md5 (slotWindow b k0)) b (slotChecksumStart k0)).
    destruct (IH b1 (k0 + 1) ltac:(lia)) as (Hlen & Hframe & Hslots).
    assert (Hlen1 : Buf.blength b1 = Buf.blength b)
      by apply blength_copy_at.
    assert (Hb1 : forall j, Buf.at_index b1 j =
      if decide (slotChecksumStart k0 <= j < slotChecksumStart k0 + 16
                 /\ j < Buf.blength b)
      then Buf.at_index (md5 (slotWindow b k0)) (j - slotChecksumStart k0)
      else Buf.at_index b j).
    { intros j. unfold b1.
      rewrite at_index_copy_at by (unfold slotChecksumStart; lia).
      rewrite blength_md5. reflexivity. }
    split; [congruence|]. split.
    + intros j Hj. rewrite Hframe.
      * rewrite Hb1. case_decide as Hd; [|reflexivity].
        exfalso. apply (Hj k0); lia.
      * intros k Hk. apply Hj. lia.
    + intros k j Hk Hin Hjl.
      destruct (Z.eq_dec k k0) as [->|Hne].
      * rewrite Hframe.
        -- rewrite Hb1. case_decide; [reflexivity | lia].
        -- intros k Hk'. unfold slotChecksumStart in *. lia.
      * rewrite (Hslots k j) by lia.
        unfold b1. rewrite (slotWindow_copy_at k0 k); [reflexivity | lia | lia |].
        apply blength_md5.
Qed.

(** What recalculateChecksums leaves in the buffer: every byte outside the
    eleven checksum fields is kept, slot checksum [k] is the digest of slot
    window [k] and the general checksum is the digest of the general data,
    both taken from the buffer as it came in. *)
Lemma recalculateChecksums_spec (b : Buffer) :
  let out := recalculateChecksums b in
  Buf.blength out = Buf.blength b /\
  (forall j,
     (forall k, 0 <= k < 10 ->
                ~ (slotChecksumStart k <= j < slotChecksumStart k + 16)) ->
     ~ (0x019003A0 <= j < 0x019003A0 + 16) ->
     Buf.at_index out j = Buf.at_index b j) /\
  (forall k j,
     0 <= k < 10 ->
     slotChecksumStart k <= j < slotChecksumStart k + 16 ->
     j < Buf.blength b ->
     Buf.at_index out j
     = Buf.at_index (md5 (slotWindow b k)) (j - slotChecksumStart k)) /\
  (forall j,
     0x019003A0 <= j < 0x019003A0 + 16 ->
     j < Buf.blength b ->
     Buf.at_index out j
     = Buf.at_index (md5 (generalData b)) (j - 0x019003A0)).
Proof.
  cbv zeta. unfold recalculateChecksums. cbv zeta.
  change 0x00000310 with (slotDataStart 0).
  change 0x00000300 with (slotChecksumStart 0).
  destruct (recalculateSlots_spec 10 b 0 ltac:(lia)) as (Hlen & Hframe & Hslots).
  set (b10 := recalculateSlots 10 b (slotDataStart 0) (slotChecksumStart 0)) in *.
  assert (Hgen : Buf.slice b10 0x019003B0 (0x019603AF + 1) = generalData b).
  { apply slice_ext; [lia | lia |].
    intros j Hj. apply Hframe. intros k Hk.
    unfold slotChecksumStart. lia. }
  rewrite Hgen.
  assert (Hout : forall j,
    Buf.at_index (Buf.copy_at (md5 (generalData b)) b10 0x019003A0) j =
    if decide (0x019003A0 <= j < 0x019003A0 + 16 /\ j < Buf.blength b)
    then Buf.at_index (md5 (generalData b)) (j - 0x019003A0)
    else Buf.at_index b10 j).
  { intros j. rewrite at_index_copy_at by lia.
    rewrite blength_md5, Hlen. reflexivity. }
  split; [rewrite blength_copy_at; exact Hlen|].
  split; [|split].
  - intros j Hj Hg. rewrite Hout. case_decide; [lia|].
    apply Hframe. intros k Hk. apply Hj. lia.
  - intros k j Hk Hin Hjl. rewrite Hout.
    case_decide as Hd.
    + unfold slotChecksumStart in *. lia.
    + apply Hslots; [lia | assumption | assumption].
  - intros j Hj Hjl. rewrite Hout. case_decide; [reflexivity | lia].
Qed.

Lemma slotWindow_recalculateChecksums (b : Buffer) (k : Z) :
  0 <= k < 10 -> slotWindow (recalculateChecksums b) k = slotWindow b k.
Proof.
  intros Hk. destruct (recalculateChecksums_spec b) as (_ & Hframe & _).
  unfold slotDataStart. apply slice_ext; [lia | lia |].
  intros j Hj. apply Hframe; [|lia].
  intros k' Hk'. unfold slotChecksumStart. lia.
Qed.

Lemma generalData_recalculateChecksums (b : Buffer) :
  generalData (recalculateChecksums b) = generalData b.
Proof.
  destruct (recalculateChecksums_spec b) as (_ & Hframe & _).
  apply slice_ext; [lia | lia |].
  intros j Hj. apply Hframe; [|lia].
  intros k' Hk'. unfold slotChecksumStart. lia.
Qed.

Lemma slice_is_digest (out x : Buffer) (a : Z) :
  0 <= a -> Buf.blength x = 16 ->
  (forall j, a <= j < a + 16 -> Buf.at_index out j = Buf.at_index x (j - a)) ->
  Buf.slice out a (a + 16) = x.
Proof.
  intros Ha Hx H. apply at_index_ext. intros k Hk.
  rewrite at_index_slice by lia. case_decide.
  - rewrite H by lia. f_equal. lia.
  - symmetry. apply at_index_beyond. lia.
Qed.

(** C1. On a buffer that holds all the checksum regions,
    recalculateChecksums leaves, for each of the 10 slot windows (data at
    0x310 + i * 2621456, 2621440 bytes), the MD5 digest of the window in the
    16 bytes before it; the digest of the save-headers section in the 16
    bytes before that section; and the digest of the general-data region in
    the 16 bytes before that region. (The last two are one region of the
    file: SAVE_HEADERS_SECTION_OFFSET is 0x019003B0 and the section is
    0x60000 bytes long.) *)
Theorem recalculateChecksums_digests (b : Buffer) :
  0x019603B0 <= Buf.blength b ->
  let out := recalculateChecksums b in
  (forall i, 0 <= i < 10 ->
     Buf.slice out (0x310 + i * 2621456 - 16) (0x310 + i * 2621456)
     = md5 (Buf.slice out (0x310 + i * 2621456)
                      (0x310 + i * 2621456 + 2621440))) /\
  Buf.slice out (SAVE_HEADERS_SECTION_OFFSET - 16) SAVE_HEADERS_SECTION_OFFSET
  = md5 (Buf.slice out SAVE_HEADERS_SECTION_OFFSET
                   (SAVE_HEADERS_SECTION_OFFSET + SAVE_HEADERS_SECTION_LENGTH)) /\
  Buf.slice out (0x019003B0 - 16) 0x019003B0
  = md5 (Buf.slice out 0x019003B0 (0x019603AF + 1)).
Proof.
  intros Hlen. cbv zeta.
  pose proof (generalData_recalculateChecksums b) as Hgd.
  pose proof (slotWindow_recalculateChecksums b) as Hsw.
  destruct (recalculateChecksums_spec b) as (Hl & Hframe & Hslots & Hgen).
  remember (recalculateChecksums b) as out eqn:Hout. clear Hout.
  unfold SAVE_HEADERS_SECTION_OFFSET, SAVE_HEADERS_SECTION_LENGTH.
  replace (26215344 - 16) with 0x019003A0 by reflexivity.
  replace (26215344 + 393216) with (0x019603AF + 1) by reflexivity.
  replace (0x019003B0 - 16) with 0x019003A0 by reflexivity.
  assert (Hg : Buf.slice out 0x019003A0 0x019003B0
               = md5 (Buf.slice out 0x019003B0 (0x019603AF + 1))).
  { rewrite Hgd.
    replace 0x019003B0 with (0x019003A0 + 16) at 1 by reflexivity.
    apply slice_is_digest; [lia | apply blength_md5 |].
    intros j Hj. rewrite Hgen by lia. reflexivity. }
  split; [|split; [exact Hg | exact Hg]].
  intros i Hi.
  specialize (Hsw i Hi). unfold slotDataStart in Hsw. rewrite Hsw.
  replace (0x310 + i * 2621456 - 16) with (slotChecksumStart i)
    by (unfold slotChecksumStart; lia).
  replace (0x310 + i * 2621456) with (slotChecksumStart i + 16) at 1
    by (unfold slotChecksumStart; lia).
  apply slice_is_digest;
    [unfold slotChecksumStart; lia | apply blength_md5 |].
  intros j Hj. rewrite (Hslots i j); [|assumption|assumption|].
  - unfold slotDataStart. reflexivity.
  - unfold slotChecksumStart in *. lia.
Qed.

Lemma checksum_field_cases (j : Z) (n : nat) :
  (exists k, 0 <= k < Z.of_nat n /\
             slotChecksumStart k <= j < slotChecksumStart k + 16) \/
  (forall k, 0 <= k < Z.of_nat n ->
             ~ (slotChecksumStart k <= j < slotChecksumStart k + 16)).
Proof.
  induction n as [|n [(k & Hk & Hin) | Hout]].
  - right. intros k Hk. lia.
  - left. exists k. split; [lia | exact Hin].
  - destruct (decide (slotChecksumStart (Z.of_nat n) <= j
                      < slotChecksumStart (Z.of_nat n) + 16)) as [Hin|Hnot].
    + left. exists (Z.of_nat n). split; [lia | exact Hin].
    + right. intros k Hk.
      destruct (Z.eq_dec k (Z.of_nat n)) as [->|Hne]; [exact Hnot|].
      apply Hout. lia.
Qed.

(** C5. Running recalculateChecksums twice gives the buffer that running it
    once gives; this holds for every buffer, so also for those long enough
    to hold all the checksum regions. *)
Theorem recalculateChecksums_idempotent (b : Buffer) :
  recalculateChecksums (recalculateChecksums b) = recalculateChecksums b.
Proof.
  pose proof (generalData_recalculateChecksums b) as Hgd.
  pose proof (slotWindow_recalculateChecksums b) as Hsw.
  destruct (recalculateChecksums_spec b) as (Hl & Hframe & Hslots & Hgen).
  destruct (recalculateChecksums_spec (recalculateChecksums b))
    as (Hl2 & Hframe2 & Hslots2 & Hgen2).
  remember (recalculateChecksums b) as out eqn:Hout. clear Hout.
  remember (recalculateChecksums out) as out2 eqn:Hout2. clear Hout2.
  apply at_index_ext. intros j Hj.
  destruct (Z.lt_ge_cases j (Buf.blength b)) as [Hin|Hbeyond].
  - destruct (checksum_field_cases j 10) as [(k & Hk & Hjk) | Hno].
    + rewrite (Hslots2 k j) by (try assumption; lia).
      rewrite (Hslots k j) by (try assumption; lia).
      rewrite Hsw by lia. reflexivity.
    + destruct (decide (0x019003A0 <= j < 0x019003A0 + 16)) as [Hg|Hg].
      * rewrite Hgen2 by lia. rewrite Hgen by lia.
        rewrite Hgd. reflexivity.
      * apply Hframe2; assumption.
  - rewrite !at_index_beyond by lia. reflexivity.
Qed.

(** ** Located stats (getCharacterStats) *)

Lemma slot_tables (s o l : Z) :
  Buf.at_index slotOffsets s = Some o ->
  Buf.at_index slotLengths s = Some l ->
  0 <= s <= 9 /\ o = slotDataStart s /\ l = 2621440.
Proof.
  intros Ho Hl.
  assert (Hs : 0 <= s < 10).
  { apply (at_index_is_Some slotOffsets s). eauto. }
  pose (P := fun s : Z =>
    bool_decide (Buf.at_index slotOffsets s = Some (slotDataStart s)
                 /\ Buf.at_index slotLengths s = Some 2621440)).
  assert (H : P s = true).
  { apply (forallb_range P 10); [vm_compute; reflexivity | exact Hs]. }
  apply bool_decide_eq_true in H as [H1 H2].
  split; [lia|]. split; congruence.
Qed.

Lemma findStats_bound (slotData : Buffer) (level i : Z) (attrs : list Z) :
  findStats slotData level = Some (i, attrs) ->
  0 <= i < Z.min 120000 (Buf.blength slotData - 50) /\ length attrs = 8%nat.
Proof.
  unfold findStats. intros H.
  pose proof (findStats_loop_spec
    (Z.to_nat (Z.min 120000 (Buf.blength slotData - 50))) slotData level
    (Z.min 120000 (Buf.blength slotData - 50)) 0 ltac:(lia)) as Hs.
  rewrite H in Hs. destruct Hs as (Hi & _ & Hb & _).
  split; [exact Hi|].
  destruct Hb as (a0 & a1 & a2 & a3 & a4 & a5 & a6 & a7 & lo & hi & -> & _).
  reflexivity.
Qed.

Lemma readUInt16LE_nonneg (b : Buffer) (o v : Z) :
  Buf.readUInt16LE b o = Ok v -> 0 <= o.
Proof.
  unfold Buf.readUInt16LE. intros H.
  destruct (Z.lt_ge_cases o 0) as [Hn|Hn]; [|exact Hn].
  rewrite (at_index_negative b o Hn) in H. discriminate.
Qed.

(** What a successful getCharacterStats says about the buffer: the slot
    index is one of the ten slots, the header level is readable, the search
    found the block at an offset [i] of the slot window with room for the
    resource values before it and the level field after it, and the offsets
    reported are absolute. *)
Lemma getCharacterStats_inv (b : Buffer) (s : Z) (cs : CharacterStats) :
  getCharacterStats b s = Some cs ->
  exists i attrs,
    0 <= s <= 9 /\
    26221872 + s * 588 + 2 <= Buf.blength b /\
    Buf.readUInt16LE b (26221872 + s * 588) = Ok (level cs) /\
    findStats (slotWindow b s) (level cs) = Some (i, attrs) /\
    44 <= i /\ slotDataStart s + i + 50 < Buf.blength b /\
    i + 50 < 2621440 /\
    statsOffset cs = slotDataStart s + i /\
    stats cs = statsOfList attrs /\
    hpOffsets cs = [statsOffset cs - 44; statsOffset cs - 40; statsOffset cs - 36] /\
    fpOffsets cs = [statsOffset cs - 32; statsOffset cs - 28; statsOffset cs - 24] /\
    staminaOffsets cs
      = [statsOffset cs - 16; statsOffset cs - 12; statsOffset cs - 8].
Proof.
  unfold getCharacterStats, getCharacterStats_body. cbv zeta. intros H.
  destruct (Z.ltb_spec (Buf.blength b) (26221872 + s * 588 + 2)) as [|Hlen];
    [discriminate|].
  destruct (Buf.readUInt16LE b (26221872 + s * 588)) as [lvl| |] eqn:Hlvl;
    cbn [mbind outcome_bind] in H; [|discriminate..].
  destruct (Buf.at_index slotOffsets s) as [o|] eqn:Ho; [|discriminate].
  destruct (Buf.at_index slotLengths s) as [l|] eqn:Hl; [|discriminate].
  destruct (slot_tables s o l Ho Hl) as (Hs & -> & ->).
  destruct (findStats _ lvl) as [[i attrs]|] eqn:Hfind; [|discriminate].
  destruct (findStats_bound _ _ _ _ Hfind) as [Hi _].
  destruct (Buf.readUInt16LE _ (i - 44)) as [hp0| |] eqn:Hhp0;
    cbn [mbind outcome_bind] in H; [|discriminate..].
  apply readUInt16LE_nonneg in Hhp0.
  repeat match type of H with
         | match (match ?m with _ => _ end) with _ => _ end = _ =>
             destruct m; cbn [mbind outcome_bind] in H; [|discriminate..]
         | match (?m ≫= _) with _ => _ end = _ =>
             destruct m; cbn [mbind outcome_bind] in H; [|discriminate..]
         end.
  injection H as <-. cbn.
  pose proof (blength_slice_le b (slotDataStart s) (slotDataStart s + 2621440)
                ltac:(unfold slotDataStart; lia)) as Hle.
  assert (Hle2 : Buf.blength (slotWindow b s) <= 2621440).
  { unfold Buf.slice, Buf.blength. cbv zeta.
    rewrite length_take.
    match goal with |- context [Z.ltb ?x ?y] => destruct (Z.ltb_spec x y) end;
      [|lia].
    unfold Buf.adjustOffset in *.
    repeat match goal with
           | |- context [Z.eqb ?x ?y] => destruct (Z.eqb_spec x y)
           | |- context [Z.ltb ?x ?y] => destruct (Z.ltb_spec x y)
           | H : context [Z.eqb ?x ?y] |- _ => destruct (Z.eqb_spec x y)
           | H : context [Z.ltb ?x ?y] |- _ => destruct (Z.ltb_spec x y)
           end; unfold slotDataStart in *; lia. }
  exists i, attrs.
  repeat split; try reflexivity; try assumption; lia.
Qed.

Lemma slot_tables_in_range (s : Z) :
  0 <= s <= 9 ->
  Buf.at_index slotOffsets s = Some (slotDataStart s) /\
  Buf.at_index slotLengths s = Some 2621440.
Proof.
  intros Hs.
  pose (P := fun s : Z =>
    bool_decide (Buf.at_index slotOffsets s = Some (slotDataStart s)
                 /\ Buf.at_index slotLengths s = Some 2621440)).
  assert (H : P s = true).
  { apply (forallb_range P 10); [vm_compute; reflexivity | lia]. }
  apply bool_decide_eq_true in H. exact H.
Qed.

(** The offset getCharacterStats reports is the lowest offset of the slot
    window that carries the stats block pattern for the header level. *)
Lemma getCharacterStats_lowest (b : Buffer) (s : Z) (cs : CharacterStats) :
  getCharacterStats b s = Some cs ->
  exists i attrs,
    statsOffset cs = slotDataStart s + i /\
    statsBlockAt (slotWindow b s) (level cs) i attrs /\
    forall j a, 0 <= j < i -> ~ statsBlockAt (slotWindow b s) (level cs) j a.
Proof.
  intros H.
  destruct (getCharacterStats_inv b s cs H)
    as (i & attrs & _ & _ & _ & Hfind & _ & _ & _ & Hso & _).
  exists i, attrs. split; [exact Hso|].
  unfold findStats in Hfind.
  pose proof (findStats_loop_spec
    (Z.to_nat (Z.min 120000 (Buf.blength (slotWindow b s) - 50)))
    (slotWindow b s) (level cs)
    (Z.min 120000 (Buf.blength (slotWindow b s) - 50)) 0 ltac:(lia)) as Hs.
  rewrite Hfind in Hs. destruct Hs as (_ & _ & Hb & Hmin). auto.
Qed.

(** A block found in the first 44 bytes of the window has no room for the
    resource values before it: their reads throw and getCharacterStats
    reports nothing. *)
Lemma getCharacterStats_early_match (b : Buffer) (s lvl i : Z)
    (attrs : list Z) :
  0 <= s <= 9 ->
  Buf.readUInt16LE b (26221872 + s * 588) = Ok lvl ->
  findStats (slotWindow b s) lvl = Some (i, attrs) ->
  i < 44 ->
  getCharacterStats b s = None.
Proof.
  intros Hs Hlvl Hfind Hi.
  unfold getCharacterStats, getCharacterStats_body. cbv zeta.
  destruct (Buf.blength b <? 26221872 + s * 588 + 2); [reflexivity|].
  rewrite Hlvl. cbn [mbind outcome_bind].
  destruct (slot_tables_in_range s Hs) as [-> ->].
  rewrite Hfind.
  assert (Hneg : forall x, Buf.readUInt16LE x (i - 44) = Throw OutOfBounds).
  { intros x. unfold Buf.readUInt16LE.
    rewrite (at_index_negative x (i - 44)) by lia. reflexivity. }
  rewrite Hneg. reflexivity.
Qed.

(** ** Writes (writeUInt8, writeUInt16LE) and what they leave untouched *)

Lemma same_except_refl (P : Z -> Prop) (b : Buffer) : same_except P b b.
Proof. split; reflexivity. Qed.

Lemma same_except_trans (P Q R : Z -> Prop) (b1 b2 b3 : Buffer) :
  same_except P b1 b2 -> same_except Q b2 b3 ->
  (forall j, P j \/ Q j -> R j) ->
  same_except R b1 b3.
Proof.
  intros [Hl1 H1] [Hl2 H2] HR. split; [congruence|].
  intros j Hj. rewrite H2, H1; [reflexivity | |]; intros H; apply Hj, HR; auto.
Qed.

Lemma writeUInt8_Ok (b : Buffer) (v o : Z) :
  0 <= v <= 255 -> 0 <= o < Buf.blength b ->
  Buf.writeUInt8 b v o = Ok (Buf.set_index b o v).
Proof.
  intros Hv Ho. unfold Buf.writeUInt8.
  destruct (Z.ltb_spec 255 v); [lia|].
  destruct (Z.ltb_spec v 0); [lia|]. cbn [orb].
  destruct (at_index_Some b o Ho) as [x ->]. reflexivity.
Qed.

Lemma writeUInt16LE_Ok (b : Buffer) (v o : Z) :
  0 <= v <= 65535 -> 0 <= o -> o + 1 < Buf.blength b ->
  exists b', Buf.writeUInt16LE b v o = Ok b' /\
    same_except (fun j => o <= j < o + 2) b b' /\
    Buf.readUInt16LE b' o = Ok v.
Proof.
  intros Hv Ho Hl. unfold Buf.writeUInt16LE.
  destruct (Z.ltb_spec 65535 v); [lia|].
  destruct (Z.ltb_spec v 0); [lia|]. cbn [orb].
  destruct (at_index_Some b o ltac:(lia)) as [x ->].
  destruct (at_index_Some b (o + 1) ltac:(lia)) as [y ->].
  eexists. split; [reflexivity|]. split.
  - split; [rewrite !blength_set_index; reflexivity|].
    intros j Hj. rewrite !at_index_set_index.
    repeat case_decide; try reflexivity; lia.
  - unfold Buf.readUInt16LE. rewrite !at_index_set_index.
    rewrite !blength_set_index.
    repeat case_decide; try lia.
    f_equal. pose proof (Z.div_mod v 256 ltac:(lia)). lia.
Qed.

Lemma writeUInt16LE_rejects (b : Buffer) (v o : Z) :
  v < 0 -> Buf.writeUInt16LE b v o = Throw ValueOutOfRange.
Proof.
  intros Hv. unfold Buf.writeUInt16LE.
  destruct (Z.ltb_spec v 0); [|lia]. rewrite orb_true_r. reflexivity.
Qed.

Lemma readUInt16LE_same (b b' : Buffer) (o : Z) :
  Buf.at_index b' o = Buf.at_index b o ->
  Buf.at_index b' (o + 1) = Buf.at_index b (o + 1) ->
  Buf.readUInt16LE b' o = Buf.readUInt16LE b o.
Proof. intros H1 H2. unfold Buf.readUInt16LE. rewrite H1, H2. reflexivity. Qed.

Lemma writeEach_Ok (offsets : list Z) (b : Buffer) (v : Z) :
  0 <= v <= 65535 ->
  Forall (fun o => 0 <= o /\ o + 1 < Buf.blength b) offsets ->
  exists b', writeEach b v offsets = Ok b' /\
    same_except (fun j => Exists (fun o => o <= j < o + 2) offsets) b b'.
Proof.
  intros Hv. revert b. induction offsets as [|o rest IH]; intros b Hall.
  - exists b. split; [reflexivity|]. apply same_except_refl.
  - apply Forall_cons in Hall as [[Ho Hl] Hrest].
    destruct (writeUInt16LE_Ok b v o Hv Ho Hl) as (b1 & Hw & Hs & _).
    cbn [writeEach]. rewrite Hw. cbn [mbind outcome_bind].
    destruct (IH b1) as (b' & Hw' & Hs').
    { destruct Hs as [Hlen _]. rewrite Hlen. exact Hrest. }
    exists b'. split; [exact Hw'|].
    eapply same_except_trans; [exact Hs | exact Hs' |].
    intros j [Hj|Hj]; [apply Exists_cons_hd | apply Exists_cons_tl]; assumption.
Qed.

Lemma writeStats_Ok (values : list Z) (b : Buffer)
    (statsOffset slotOffset index : Z) :
  Forall (fun v => 0 <= v <= 255) values ->
  0 <= index ->
  0 <= statsOffset ->
  statsOffset + 4 * (index + Z.of_nat (length values)) <= Buf.blength b ->
  exists b', writeStats b statsOffset slotOffset index values = Ok b' /\
    Buf.blength b' = Buf.blength b /\
    (forall k v, values !! k = Some v ->
       Buf.at_index b' (statsOffset + 4 * (index + Z.of_nat k)) = Some v) /\
    (forall j, ~ (statsOffset + 4 * index <= j
                  < statsOffset + 4 * (index + Z.of_nat (length values))) ->
       Buf.at_index b' j = Buf.at_index b j).
Proof.
  intros Hv. revert b index.
  induction Hv as [|v rest Hv Hrest IH]; intros b index Hi Ho Hl.
  - exists b. split; [reflexivity|]. split; [reflexivity|].
    split; [intros k v Hk; discriminate | reflexivity].
  - cbn [length] in Hl. cbn [writeStats].
    replace (slotOffset + (statsOffset - slotOffset + index * 4))
      with (statsOffset + 4 * index) by lia.
    rewrite writeUInt8_Ok by lia. cbn [mbind outcome_bind].
    destruct (IH (Buf.set_index b (statsOffset + 4 * index) v) (index + 1))
      as (b' & Hw & Hlen & Hwritten & Hframe);
      [lia | lia | rewrite blength_set_index; lia |].
    exists b'. split; [exact Hw|].
    rewrite blength_set_index in Hlen. split; [exact Hlen|]. split.
    + intros [|k] x Hk.
      * injection Hk as <-.
        replace (index + Z.of_nat 0) with index by lia.
        rewrite Hframe by lia. rewrite at_index_set_index.
        case_decide; [reflexivity | lia].
      * replace (index + Z.of_nat (S k)) with (index + 1 + Z.of_nat k) by lia.
        apply Hwritten. exact Hk.
    + intros j Hj. cbn [length] in Hj.
      rewrite Hframe by lia. rewrite at_index_set_index.
      case_decide; [lia | reflexivity].
Qed.

Lemma calculate_values (v : Z) :
  0 <= tableValue (calculateHP v) <= 65535 /\
  0 <= tableValue (calculateFP v) <= 65535 /\
  0 <= tableValue (calculateStamina v) <= 65535.
Proof.
  destruct (decide (1 <= v <= 99)) as [Hv|Hv].
  - pose (P := fun v : Z =>
      (0 <=? tableValue (calculateHP v)) && (tableValue (calculateHP v) <=? 65535)
      && (0 <=? tableValue (calculateFP v)) && (tableValue (calculateFP v) <=? 65535)
      && (0 <=? tableValue (calculateStamina v))
      && (tableValue (calculateStamina v) <=? 65535)).
    assert (HP : P v = true).
    { apply (forallb_range P 100); [vm_compute; reflexivity | lia]. }
    unfold P in HP. rewrite !andb_true_iff in HP. lia.
  - unfold calculateHP, calculateFP, calculateStamina.
    destruct (Z.min_spec v 99) as [[Hlt ->] | [Hge ->]].
    + destruct (tables_outside v ltac:(lia)) as (-> & -> & ->).
      vm_compute. repeat split; discriminate.
    + vm_compute. repeat split; discriminate.
Qed.

(** The god-mode and custom-attribute writes: nine 16-bit fields between
    44 and 6 bytes before the stats origin. *)
Lemma resource_writes (b : Buffer) (origin v1 v2 v3 : Z) :
  0 <= v1 <= 65535 -> 0 <= v2 <= 65535 -> 0 <= v3 <= 65535 ->
  44 <= origin -> origin <= Buf.blength b ->
  exists b',
    (b1 ← writeEach b v1 [origin - 44; origin - 40; origin - 36];
     b2 ← writeEach b1 v2 [origin - 32; origin - 28; origin - 24];
     writeEach b2 v3 [origin - 16; origin - 12; origin - 8]) = Ok b' /\
    same_except (fun j => origin - 44 <= j < origin - 6) b b'.
Proof.
  intros H1 H2 H3 Ho Hl.
  destruct (writeEach_Ok [origin - 44; origin - 40; origin - 36] b v1 H1)
    as (b1 & Hw1 & Hs1).
  { repeat constructor; lia. }
  destruct (writeEach_Ok [origin - 32; origin - 28; origin - 24] b1 v2 H2)
    as (b2 & Hw2 & Hs2).
  { destruct Hs1 as [-> _]. repeat constructor; lia. }
  destruct (writeEach_Ok [origin - 16; origin - 12; origin - 8] b2 v3 H3)
    as (b3 & Hw3 & Hs3).
  { destruct Hs2 as [-> _]. destruct Hs1 as [-> _]. repeat constructor; lia. }
  exists b3. rewrite Hw1. cbn [mbind outcome_bind].
  rewrite Hw2. cbn [mbind outcome_bind]. split; [exact Hw3|].
  assert (Hin : forall (l : list Z) j,
            Forall (fun o => origin - 44 <= o <= origin - 8) l ->
            Exists (fun o => o <= j < o + 2) l ->
            origin - 44 <= j < origin - 6).
  { intros l j Hall Hex. apply Exists_exists in Hex as (o & Hin & Hj).
    rewrite Forall_forall in Hall. specialize (Hall o Hin). lia. }
  eapply same_except_trans; [|exact Hs3|].
  - eapply same_except_trans; [exact Hs1 | exact Hs2 |].
    intros j Hj. exact Hj.
  - intros j [[Hj|Hj]|Hj];
      (eapply Hin; [|exact Hj]); repeat constructor; lia.
Qed.

Lemma statValues_sum (newStats : Stats) :
  Forall (fun v => 0 <= v <= 255) (statValues newStats) ->
  0 <= foldl Z.add 0 (statValues newStats) <= 2040.
Proof.
  unfold statValues. intros H.
  repeat (apply Forall_cons in H as [? H]). cbn. lia.
Qed.

(** With a sum below 79 the new level is negative and the first level
    write rejects it. *)
Lemma setCharacterStats_below_79 (b : Buffer) (s : Z) (cs : CharacterStats)
    (newStats : Stats) (options : Options) :
  getCharacterStats b s = Some cs ->
  Forall (fun v => 0 <= v <= 255) (statValues newStats) ->
  foldl Z.add 0 (statValues newStats) < 79 ->
  setCharacterStats b s newStats options = Throw ValueOutOfRange.
Proof.
  intros Hget Hbytes HS.
  destruct (getCharacterStats_inv b s cs Hget)
    as (i & attrs & Hs & Hlen & Hlvl & Hfind & Hi44 & Hend & Hi & Hso & _).
  unfold setCharacterStats. rewrite Hget. cbv zeta.
  destruct (writeStats_Ok (statValues newStats) b (statsOffset cs)
              (0x310 + s * 2621456) 0 Hbytes)
    as (b1 & Hw1 & _);
    [lia | unfold slotDataStart in *; lia
     | cbn [statValues length]; unfold slotDataStart in *; lia |].
  rewrite Hw1. cbn [mbind outcome_bind].
  rewrite writeUInt16LE_rejects by lia. reflexivity.
Qed.

(** C3 (amended). On a buffer with a locatable stats block for the slot,
    setCharacterStats, called with eight attribute bytes (0..255) whose sum
    S is at least 79, returns a buffer in which the 16-bit little-endian
    level is S - 79 both at the stats origin + 44 and at the header mirror
    26221872 + slotIndex * 588, and attribute k is the byte at the stats
    origin + 4k; with a sum below 79 it fails with a range error and
    returns no buffer. *)
Theorem setCharacterStats_level (b : Buffer) (s : Z) (cs : CharacterStats)
    (newStats : Stats) (options : Options) :
  getCharacterStats b s = Some cs ->
  Forall (fun v => 0 <= v <= 255) (statValues newStats) ->
  let S := foldl Z.add 0 (statValues newStats) in
  (79 <= S ->
   exists out,
     setCharacterStats b s newStats options = Ok out /\
     Buf.readUInt16LE out (statsOffset cs + 44) = Ok (S - 79) /\
     Buf.readUInt16LE out (26221872 + s * 588) = Ok (S - 79) /\
     forall k v, statValues newStats !! k = Some v ->
       Buf.readUInt8 out (statsOffset cs + 4 * Z.of_nat k) = Ok v) /\
  (S < 79 ->
   setCharacterStats b s newStats options = Throw ValueOutOfRange).
Proof.
  intros Hget Hbytes S.
  destruct (getCharacterStats_inv b s cs Hget)
    as (i & attrs & Hs & Hlen & Hlvl & Hfind & Hi44 & Hend & Hi & Hso & _ &
        Hhp & Hfp & Hst).
  pose proof (statValues_sum newStats Hbytes) as Hsum. fold S in Hsum.
  unfold setCharacterStats. rewrite Hget. cbv zeta. fold S.
  rewrite Hhp, Hfp, Hst.
  set (origin := statsOffset cs) in *.
  assert (Horigin : 0x310 + 44 <= origin /\ origin + 50 < Buf.blength b /\
                    origin + 50 < slotDataStart s + 2621440).
  { unfold slotDataStart in *. lia. }
  assert (Hfar : origin + 50 < 0x019003A0).
  { unfold slotDataStart in *. lia. }
  destruct (writeStats_Ok (statValues newStats) b origin
              (0x310 + s * 2621456) 0 Hbytes)
    as (b1 & Hw1 & Hl1 & Hwritten & Hframe1);
    [lia | lia | cbn [statValues length]; lia |].
  rewrite Hw1. cbn [mbind outcome_bind].
  split.
  - intros HS.
    destruct (writeUInt16LE_Ok b1 (S - 79) (origin + 44))
      as (b2 & Hw2 & [Hl2 Hframe2] & Hr2); [lia | lia | lia |].
    rewrite Hw2. cbn [mbind outcome_bind].
    destruct (writeUInt16LE_Ok b2 (S - 79) (26221872 + s * 588))
      as (b3 & Hw3 & [Hl3 Hframe3] & Hr3); [lia | lia | lia |].
    rewrite Hw3. cbn [mbind outcome_bind].
    assert (Hres : exists b4,
      (if godMode options
       then b5 ← writeEach b3 60000 [origin - 44; origin - 40; origin - 36];
            b6 ← writeEach b5 60000 [origin - 32; origin - 28; origin - 24];
            writeEach b6 60000 [origin - 16; origin - 12; origin - 8]
       else if customAttributes options
       then b5 ← writeEach b3 (tableValue (calculateHP (vigor newStats)))
                   [origin - 44; origin - 40; origin - 36];
            b6 ← writeEach b5 (tableValue (calculateFP (mind newStats)))
                   [origin - 32; origin - 28; origin - 24];
            writeEach b6 (tableValue (calculateStamina (endurance newStats)))
                   [origin - 16; origin - 12; origin - 8]
       else Ok b3) = Ok b4 /\
      same_except (fun j => origin - 44 <= j < origin - 6) b3 b4).
    { destruct (godMode options); [|destruct (customAttributes options)].
      - apply resource_writes; lia.
      - destruct (calculate_values (vigor newStats)) as (Hv1 & _ & _).
        destruct (calculate_values (mind newStats)) as (_ & Hv2 & _).
        destruct (calculate_values (endurance newStats)) as (_ & _ & Hv3).
        apply resource_writes; lia.
      - exists b3. split; [reflexivity | apply same_except_refl]. }
    destruct Hres as (b4 & Hw4 & [Hl4 Hframe4]).
    rewrite Hw4. cbn [mbind outcome_bind].
    destruct (recalculateChecksums_spec b4) as (Hl5 & Hframe5 & _).
    remember (recalculateChecksums b4) as out eqn:Hout. clear Hout.
    exists out. split; [reflexivity|].
    assert (Hkeep : forall j,
      origin <= j < origin + 46 \/
      26221872 + s * 588 <= j < 26221872 + s * 588 + 2 ->
      Buf.at_index out j = Buf.at_index b3 j).
    { intros j Hj. rewrite Hframe5.
      - apply Hframe4. unfold slotDataStart in *. lia.
      - intros k Hk. unfold slotChecksumStart, slotDataStart in *. lia.
      - unfold slotDataStart in *. lia. }
    split; [|split].
    + rewrite (readUInt16LE_same b3 out) by (apply Hkeep; lia).
      rewrite (readUInt16LE_same b2 b3) by (apply Hframe3; lia).
      exact Hr2.
    + rewrite (readUInt16LE_same b3 out) by (apply Hkeep; lia).
      exact Hr3.
    + intros k v Hk.
      assert (Hk8 : (k < 8)%nat).
      { apply lookup_lt_Some in Hk. exact Hk. }
      unfold Buf.readUInt8.
      rewrite Hkeep by lia.
      rewrite Hframe3 by lia. rewrite Hframe2 by lia.
      replace (origin + 4 * Z.of_nat k) with (origin + 4 * (0 + Z.of_nat k))
        by lia.
      rewrite (Hwritten k v Hk). reflexivity.
  - intros HS. rewrite writeUInt16LE_rejects by lia. reflexivity.
Qed.

(** ** The sample file with a character in slot 0 *)

Lemma sample_slot0_length : length sample_slot0 = 90%nat.
Proof. reflexivity. Qed.

Lemma sample_file_length : Buf.blength sample_file = 26608560.
Proof.
  unfold Buf.blength, sample_file.
  rewrite !length_app, !length_replicate, sample_slot0_length.
  cbn [length]. lia.
Qed.

Lemma sample_file_level : Buf.readUInt16LE sample_file 26221872 = Ok 1.
Proof.
  assert (H : forall k : nat, (k < 2)%nat ->
            sample_file !! (Z.to_nat 26221872 + k)%nat = [1; 0] !! k).
  { intros k Hk. unfold sample_file.
    rewrite lookup_app_r by (rewrite length_replicate; lia).
    rewrite lookup_app_r
      by (rewrite length_replicate, sample_slot0_length; lia).
    rewrite lookup_app_r
      by (rewrite !length_replicate, sample_slot0_length; lia).
    rewrite !length_replicate, sample_slot0_length.
    rewrite lookup_app_l by (cbn [length]; lia).
    match goal with
    | |- _ !! ?n = _ => replace n with k by lia
    end.
    reflexivity. }
  unfold Buf.readUInt16LE. rewrite !at_index_nonneg by lia.
  replace (Z.to_nat 26221872) with (Z.to_nat 26221872 + 0)%nat by lia.
  replace (Z.to_nat (26221872 + 1)) with (Z.to_nat 26221872 + 1)%nat by lia.
  rewrite !H by lia. reflexivity.
Qed.

Lemma sample_file_window :
  Buf.slice sample_file 784 (784 + 2621440) = sample_window.
Proof.
  unfold Buf.slice. cbv zeta. rewrite sample_file_length.
  rewrite !adjustOffset_nonneg by lia.
  replace (Z.min 784 26608560) with 784 by lia.
  replace (Z.min (784 + 2621440) 26608560) with 2622224 by lia.
  replace (if 784 <? 2622224 then 2622224 - 784 else 0) with 2621440
    by reflexivity.
  unfold sample_file, sample_window.
  rewrite drop_app_length' by (rewrite length_replicate; lia).
  rewrite take_app_ge by (rewrite sample_slot0_length; lia).
  rewrite take_app_le by (rewrite length_replicate, sample_slot0_length; lia).
  rewrite take_replicate, sample_slot0_length.
  match goal with
  | |- _ ++ replicate ?n _ = _ =>
      replace n with (Z.to_nat (2621440 - 90)) by lia
  end.
  reflexivity.
Qed.

Lemma sample_window_length : Buf.blength sample_window = 2621440.
Proof.
  unfold Buf.blength, sample_window.
  rewrite length_app, length_replicate, sample_slot0_length. lia.
Qed.

Lemma sample_window_findStats :
  findStats sample_window 1 = Some (44, [10; 10; 10; 10; 10; 10; 10; 10]).
Proof.
  unfold findStats. cbv zeta. rewrite sample_window_length.
  replace (Z.min 120000 (2621440 - 50)) with 120000 by reflexivity.
  lazy. reflexivity.
Qed.

Lemma sample_file_stats : getCharacterStats sample_file 0 = Some sample_stats.
Proof.
  unfold getCharacterStats, getCharacterStats_body. cbv zeta.
  rewrite sample_file_length.
  replace (26221872 + 0 * 588) with 26221872 by reflexivity.
  replace (26608560 <? 26221872 + 2) with false by reflexivity.
  rewrite sample_file_level. cbn [mbind outcome_bind].
  replace (Buf.at_index slotOffsets 0) with (Some 784) by reflexivity.
  replace (Buf.at_index slotLengths 0) with (Some 2621440) by reflexivity.
  rewrite sample_file_window, sample_window_findStats.
  lazy. reflexivity.
Qed.

Lemma setCharacterStats_level_witness :
  exists out,
    setCharacterStats sample_file 0 (mkStats 10 10 10 10 10 10 10 11)
                      (mkOptions false false) = Ok out /\
    Buf.readUInt16LE out (statsOffset sample_stats + 44)
      = Ok (foldl Z.add 0 (statValues (mkStats 10 10 10 10 10 10 10 11)) - 79) /\
    Buf.readUInt16LE out (26221872 + 0 * 588)
      = Ok (foldl Z.add 0 (statValues (mkStats 10 10 10 10 10 10 10 11)) - 79).
Proof.
  destruct (setCharacterStats_level sample_file 0 sample_stats
              (mkStats 10 10 10 10 10 10 10 11) (mkOptions false false)
              sample_file_stats) as [H _].
  - repeat constructor; cbn; lia.
  - destruct H as (out & H1 & H2 & H3 & _); [cbn; lia|].
    exists out. auto.
Defined.

(** C3, as stated, fails when the attributes sum to less than 79: the
    sample file has a locatable stats block in slot 0, the eight new
    attributes are all 1 (S = 8), and setCharacterStats fails with a range
    error instead of returning a buffer with level S - 79. *)
Lemma setCharacterStats_counterexample :
  getCharacterStats sample_file 0 = Some sample_stats /\
  foldl Z.add 0 (statValues (mkStats 1 1 1 1 1 1 1 1)) = 8 /\
  setCharacterStats sample_file 0 (mkStats 1 1 1 1 1 1 1 1)
                    (mkOptions false false) = Throw ValueOutOfRange.
Proof.
  split; [exact sample_file_stats|]. split; [reflexivity|].
  apply (setCharacterStats_below_79 sample_file 0 sample_stats).
  - exact sample_file_stats.
  - repeat constructor; cbn; lia.
  - cbn. lia.
Qed.

Lemma recalculateChecksums_digests_witness :
  Buf.slice (recalculateChecksums sample_file) (0x019003B0 - 16) 0x019003B0
  = md5 (Buf.slice (recalculateChecksums sample_file)
                   0x019003B0 (0x019603AF + 1)).
Proof.
  apply (recalculateChecksums_digests sample_file).
  rewrite sample_file_length. lia.
Defined.

(** ** Copying a slot (copySave) *)

Lemma copy_Ok (source target : Buffer) (start : Z) :
  0 <= start -> Buf.copy source target start = Ok (Buf.copy_at source target start).
Proof.
  intros H. unfold Buf.copy. destruct (Z.ltb_spec start 0); [lia|reflexivity].
Qed.

(** The buffer copySave returns, byte by byte. *)
Lemma copySave_bytes (source : Save) (target : SaveFile) (idx : Z)
    (targetSave : Save) :
  valid_target target idx targetSave -> valid_source source ->
  exists out,
    copySave source target idx = Ok out /\
    Buf.blength out = Buf.blength (buffer target) /\
    Buf.at_index out (ACTIVE_SAVE_SLOT_OFFSET + idx) = Some 1 /\
    (forall k, 0 <= k < 588 ->
       Buf.at_index out (HEADER_DATA_OFFSET + idx * HEADER_DATA_LENGTH + k)
       = Buf.at_index (headerData source) k) /\
    (forall j,
       ~ (slotChecksumStart idx <= j < slotChecksumStart idx + 2621456) ->
       ~ (HEADER_DATA_OFFSET + idx * 588 <= j
          < HEADER_DATA_OFFSET + idx * 588 + 588) ->
       j <> ACTIVE_SAVE_SLOT_OFFSET + idx ->
       ~ (0x019003A0 <= j < 0x019003B0) ->
       Buf.at_index out j = Buf.at_index (buffer target) j).
Proof.
  intros (Hlen & Hidx & (n & Hfind) & Hoff) (Hh & Hc & Hd).
  unfold copySave. rewrite Hfind. cbv zeta. rewrite Hoff.
  unfold HEADER_DATA_OFFSET, HEADER_DATA_LENGTH, CHECKSUM_LENGTH,
    SAVE_DATA_LENGTH, ACTIVE_SAVE_SLOT_OFFSET, SAVE_HEADERS_SECTION_OFFSET,
    SAVE_HEADERS_SECTION_LENGTH in *.
  assert (Hd0 : 0 <= slotChecksumStart idx) by (unfold slotChecksumStart; lia).
  rewrite copy_Ok by lia. cbn [mbind outcome_bind].
  rewrite copy_Ok by lia. cbn [mbind outcome_bind].
  rewrite copy_Ok by lia. cbn [mbind outcome_bind].
  rewrite copy_Ok by lia. cbn [mbind outcome_bind].
  rewrite copy_Ok by lia.
  eexists. split; [reflexivity|].
  match goal with
  | |- context [Buf.copy_at (md5 ?x) _ (26215344 - 16)] =>
      generalize (blength_md5 x); generalize (md5 x)
  end.
  generalize (blength_md5 (saveData source)).
  generalize (md5 (saveData source)).
  intros h1 Hh1 h2 Hh2.
  assert (Hb : forall j,
    Buf.at_index
      (Buf.copy_at h2
         (Buf.copy_at h1
            (Buf.set_index
               (Buf.copy_at (headerData source)
                  (Buf.copy_at (saveData source)
                     (Buf.copy_at (saveDataChecksum source) (buffer target)
                        (slotChecksumStart idx))
                     (slotChecksumStart idx + 16))
                  (26221838 + idx * 588))
               (26221828 + idx) 1)
            (slotChecksumStart idx))
         (26215344 - 16)) j
    = if decide (26215344 - 16 <= j < 26215344) then Buf.at_index h2 (j - (26215344 - 16))
      else if decide (slotChecksumStart idx <= j < slotChecksumStart idx + 16)
      then Buf.at_index h1 (j - slotChecksumStart idx)
      else if decide (j = 26221828 + idx) then Some 1
      else if decide (26221838 + idx * 588 <= j < 26221838 + idx * 588 + 588)
      then Buf.at_index (headerData source) (j - (26221838 + idx * 588))
      else if decide (slotChecksumStart idx + 16 <= j
                      < slotChecksumStart idx + 16 + Buf.blength (saveData source))
      then Buf.at_index (saveData source) (j - (slotChecksumStart idx + 16))
      else if decide (slotChecksumStart idx <= j
                      < slotChecksumStart idx + Buf.blength (saveDataChecksum source))
      then Buf.at_index (saveDataChecksum source) (j - slotChecksumStart idx)
      else Buf.at_index (buffer target) j).
  { intros j.
    rewrite !at_index_copy_at by lia.
    rewrite !at_index_set_index.
    rewrite !at_index_copy_at by lia.
    rewrite ?blength_copy_at, ?blength_set_index.
    rewrite ?blength_copy_at, ?blength_set_index.
    rewrite Hh1, Hh2, Hh.
    unfold slotChecksumStart in *.
    repeat case_decide; try reflexivity; try lia. }
  split; [rewrite ?blength_copy_at, ?blength_set_index, ?blength_copy_at;
          reflexivity|].
  split; [|split].
  - rewrite Hb. unfold slotChecksumStart in *.
    repeat case_decide; try reflexivity; lia.
  - intros k Hk. rewrite Hb. unfold slotChecksumStart in *.
    repeat case_decide; try lia. f_equal. lia.
  - intros j H1 H2 H3 H4. rewrite Hb. unfold slotChecksumStart in *.
    repeat case_decide; try reflexivity; lia.
Qed.

(** C4 (amended). For a supported target container, a target index that
    exists in the target and a source slot of slot sizes (a 588-byte
    summary record, a checksum of at most 16 bytes, save data of at most
    2621440 bytes), copySave returns a buffer in which the active flag of
    the slot is 1, the 588-byte summary record at the fixed position of the
    slot is the source's summary record byte for byte, and every other slot
    keeps its bytes: its checksum and window, its summary record and its
    active flag. *)
Theorem copySave_other_slots (source : Save) (target : SaveFile) (idx : Z)
    (targetSave : Save) :
  valid_target target idx targetSave -> valid_source source ->
  exists out,
    copySave source target idx = Ok out /\
    Buf.at_index out (ACTIVE_SAVE_SLOT_OFFSET + idx) = Some 1 /\
    Buf.slice out (HEADER_DATA_OFFSET + idx * HEADER_DATA_LENGTH)
              (HEADER_DATA_OFFSET + idx * HEADER_DATA_LENGTH + HEADER_DATA_LENGTH)
      = headerData source /\
    forall k, 0 <= k <= 9 -> k <> idx ->
      Buf.slice out (slotChecksumStart k) (slotDataStart k + 2621440)
        = Buf.slice (buffer target) (slotChecksumStart k)
                    (slotDataStart k + 2621440) /\
      Buf.slice out (HEADER_DATA_OFFSET + k * HEADER_DATA_LENGTH)
                (HEADER_DATA_OFFSET + k * HEADER_DATA_LENGTH + HEADER_DATA_LENGTH)
        = Buf.slice (buffer target) (HEADER_DATA_OFFSET + k * HEADER_DATA_LENGTH)
            (HEADER_DATA_OFFSET + k * HEADER_DATA_LENGTH + HEADER_DATA_LENGTH) /\
      Buf.at_index out (ACTIVE_SAVE_SLOT_OFFSET + k)
        = Buf.at_index (buffer target) (ACTIVE_SAVE_SLOT_OFFSET + k).
Proof.
  intros Ht Hs.
  destruct (copySave_bytes source target idx targetSave Ht Hs)
    as (out & Hcopy & Hlen & Hactive & Hrecord & Hframe).
  destruct Ht as (Hl & Hidx & _ & _). destruct Hs as (Hh & _ & _).
  exists out. split; [exact Hcopy|]. split; [exact Hactive|].
  unfold HEADER_DATA_OFFSET, HEADER_DATA_LENGTH, ACTIVE_SAVE_SLOT_OFFSET in *.
  split.
  - apply at_index_ext. intros k Hk.
    rewrite at_index_slice by lia. case_decide.
    + apply Hrecord. lia.
    + symmetry. apply at_index_beyond. lia.
  - intros k Hk Hne. split; [|split].
    + apply slice_ext;
        [unfold slotChecksumStart; lia | unfold slotDataStart; lia |].
      intros j Hj. unfold slotChecksumStart, slotDataStart in *.
      apply Hframe; lia.
    + apply slice_ext; [lia | lia |].
      intros j Hj. unfold slotChecksumStart in *. apply Hframe; lia.
    + unfold slotChecksumStart in *. apply Hframe; lia.
Qed.

Lemma copySave_other_slots_witness :
  exists out,
    copySave sample_save sample_target 0 = Ok out /\
    Buf.at_index out (ACTIVE_SAVE_SLOT_OFFSET + 0) = Some 1.
Proof.
  destruct (copySave_other_slots sample_save sample_target 0 sample_save)
    as (out & H1 & H2 & _).
  - split; [|split; [|split]].
    + change (buffer sample_target) with sample_file.
      rewrite sample_file_length. lia.
    + lia.
    + exists 0%nat. reflexivity.
    + reflexivity.
  - split; [|split].
    + reflexivity.
    + change (saveDataChecksum sample_save) with (replicate 16 0).
      unfold CHECKSUM_LENGTH. reflexivity.
    + change (saveData sample_save) with (replicate (Z.to_nat 2621440) 0).
      unfold Buf.blength, SAVE_DATA_LENGTH. rewrite length_replicate. lia.
  - exists out. auto.
Defined.

(** copySave does not look at the size of the source: save data longer
    than a slot window are copied as they are, and what lies past the
    window of slot [idx] and before the general checksum gets their
    bytes. *)
Lemma copySave_overrun (source : Save) (target : SaveFile) (idx : Z)
    (targetSave : Save) (j : Z) :
  valid_target target idx targetSave ->
  slotDataStart idx + SAVE_DATA_LENGTH <= j
    < slotDataStart idx + Buf.blength (saveData source) ->
  j < 0x019003A0 ->
  exists out,
    copySave source target idx = Ok out /\
    Buf.at_index out j = Buf.at_index (saveData source) (j - slotDataStart idx).
Proof.
  intros (Hlen & Hidx & (n & Hfind) & Hoff) Hj Hj2.
  unfold copySave. rewrite Hfind. cbv zeta. rewrite Hoff.
  unfold HEADER_DATA_OFFSET, HEADER_DATA_LENGTH, CHECKSUM_LENGTH,
    SAVE_DATA_LENGTH, ACTIVE_SAVE_SLOT_OFFSET, SAVE_HEADERS_SECTION_OFFSET,
    SAVE_HEADERS_SECTION_LENGTH in *.
  assert (Hd0 : 0 <= slotChecksumStart idx) by (unfold slotChecksumStart; lia).
  rewrite copy_Ok by lia. cbn [mbind outcome_bind].
  rewrite copy_Ok by lia. cbn [mbind outcome_bind].
  rewrite copy_Ok by lia. cbn [mbind outcome_bind].
  rewrite copy_Ok by lia. cbn [mbind outcome_bind].
  rewrite copy_Ok by lia.
  eexists. split; [reflexivity|].
  match goal with
  | |- context [Buf.copy_at (md5 ?x) _ (26215344 - 16)] =>
      generalize (blength_md5 x); generalize (md5 x)
  end.
  generalize (blength_md5 (saveData source)).
  generalize (md5 (saveData source)).
  intros h1 Hh1 h2 Hh2.
  rewrite !at_index_copy_at by lia.
  rewrite !at_index_set_index.
  rewrite !at_index_copy_at by lia.
  rewrite ?blength_copy_at, ?blength_set_index.
  rewrite ?blength_copy_at, ?blength_set_index.
  rewrite Hh1, Hh2.
  unfold slotChecksumStart, slotDataStart in *.
  repeat case_decide; try lia. f_equal. lia.
Qed.

(** C4, as stated, fails for a source slot with more save data than a slot
    window holds: copied into slot 0 of the sample file, save data of
    2621440 + 17 bytes run over the checksum of slot 1 into its window,
    whose first byte turns from 0 to 1. *)
Lemma copySave_counterexample :
  valid_target sample_target 0 sample_save /\
  Buf.blength (headerData oversized_save) = HEADER_DATA_LENGTH /\
  Buf.blength (saveDataChecksum oversized_save) = CHECKSUM_LENGTH /\
  Buf.blength (saveData oversized_save) = SAVE_DATA_LENGTH + 17 /\
  exists out,
    copySave oversized_save sample_target 0 = Ok out /\
    Buf.at_index (buffer sample_target) (slotDataStart 1) = Some 0 /\
    Buf.at_index out (slotDataStart 1) = Some 1.
Proof.
  assert (Ht : valid_target sample_target 0 sample_save).
  { split; [|split; [|split]].
    - change (buffer sample_target) with sample_file.
      rewrite sample_file_length. lia.
    - lia.
    - exists 0%nat. reflexivity.
    - reflexivity. }
  assert (Hl : Buf.blength (saveData oversized_save) = SAVE_DATA_LENGTH + 17).
  { change (saveData oversized_save)
      with (replicate (Z.to_nat 2621456) 0 ++ [1]).
    unfold Buf.blength, SAVE_DATA_LENGTH.
    rewrite length_app, length_replicate. cbn [length]. lia. }
  split; [exact Ht|]. split; [reflexivity|]. split; [reflexivity|].
  split; [exact Hl|].
  destruct (copySave_overrun oversized_save sample_target 0 sample_save
              (slotDataStart 1) Ht) as (out & Hout & Hbyte).
  { rewrite Hl. unfold slotDataStart, SAVE_DATA_LENGTH. lia. }
  { unfold slotDataStart. lia. }
  exists out. split; [exact Hout|]. split.
  - change (buffer sample_target) with sample_file.
    unfold slotDataStart. rewrite at_index_nonneg by lia.
    unfold sample_file.
    rewrite lookup_app_r by (rewrite length_replicate; lia).
    rewrite lookup_app_r
      by (rewrite length_replicate, sample_slot0_length; lia).
    rewrite lookup_app_l
      by (rewrite !length_replicate, sample_slot0_length; lia).
    apply lookup_replicate_2.
    rewrite !length_replicate, sample_slot0_length. lia.
  - rewrite Hbyte.
    change (saveData oversized_save)
      with (replicate (Z.to_nat 2621456) 0 ++ [1]).
    unfold slotDataStart. rewrite at_index_nonneg by lia.
    rewrite lookup_app_r by (rewrite length_replicate; lia).
    rewrite length_replicate.
    match goal with
    | |- _ !! ?n = _ => replace n with 0%nat by lia
    end.
    reflexivity.
Qed.

(** ** The slot list (processSaves) *)

Lemma processSave_skipped (b : Buffer) (gf : GameFile) :
  skipped gf = true -> processSave b gf = Ok None.
Proof.
  unfold skipped, entryIndex, processSave.
  destruct (name (header gf)) as [n|]; [|reflexivity].
  destruct (bool_decide (n = []) || negb (startsWith n SAVE_IDENTIFIER));
    [reflexivity|].
  cbn [orb]. cbv zeta. intros ->. reflexivity.
Qed.

Lemma slice_0_0 (b : Buffer) : Buf.slice b 0 0 = [].
Proof. reflexivity. Qed.

Lemma processSave_retained (b : Buffer) (gf : GameFile) (r : option Save) :
  skipped gf = false -> processSave b gf = Ok r ->
  exists sv z, r = Some sv /\ gameFile sv = gf /\ index sv = Int z /\
               entryIndex gf = Int z /\ z <= 9.
Proof.
  unfold skipped, entryIndex, processSave.
  destruct (name (header gf)) as [n|]; [|discriminate].
  destruct (bool_decide (n = []) || negb (startsWith n SAVE_IDENTIFIER));
    [discriminate|].
  cbn [orb]. cbv zeta. intros Hgt. rewrite Hgt.
  destruct (parseInt (substring n (length SAVE_IDENTIFIER))) as [|z] eqn:Hp.
  - cbn [num_lift2 num_offset]. rewrite slice_0_0.
    replace (extractSaveHeaderInfo []) with (@Throw SaveHeaderInfo OutOfBounds)
      by reflexivity.
    discriminate.
  - destruct (extractSaveHeaderInfo _) as [info|e|];
      cbn [mbind outcome_bind]; [|discriminate..].
    intros [= <-]. eexists _, z. cbn.
    repeat split. cbn in Hgt. lia.
Qed.

(** A name with the prefix but no digit after it is not skipped: its
    index is NaN, the header read comes back empty and the decoding of the
    summary record throws. *)
Lemma processSave_no_index (b : Buffer) (gf : GameFile) :
  skipped gf = false -> entryIndex gf = NaN ->
  processSave b gf = Throw OutOfBounds.
Proof.
  unfold skipped, entryIndex, processSave.
  destruct (name (header gf)) as [n|]; [|discriminate].
  destruct (bool_decide (n = []) || negb (startsWith n SAVE_IDENTIFIER));
    [discriminate|].
  cbn [orb]. cbv zeta. intros Hgt Hnan. rewrite Hnan.
  cbn [num_gt num_lift2 num_offset]. rewrite slice_0_0. reflexivity.
Qed.

Lemma processSaves_loop_spec (b : Buffer) (gfs : list GameFile)
    (acc r : list Save) :
  processSaves_loop b gfs acc = Ok r ->
  exists news, r = acc ++ news /\
    Forall2 (fun gf sv => gameFile sv = gf /\
               exists z, index sv = Int z /\ entryIndex gf = Int z /\ z <= 9)
            (filter retained gfs) news.
Proof.
  revert acc. induction gfs as [|gf gfs IH]; intros acc H.
  - injection H as <-. exists []. rewrite app_nil_r. split; [reflexivity|].
    constructor.
  - cbn [processSaves_loop] in H.
    destruct (skipped gf) eqn:Hsk.
    + rewrite processSave_skipped in H by assumption. cbn in H.
      rewrite filter_cons_False by (unfold retained; congruence).
      apply IH. exact H.
    + destruct (processSave b gf) as [o|e|] eqn:Hp;
        cbn [mbind outcome_bind] in H; [|discriminate..].
      destruct (processSave_retained b gf o Hsk Hp)
        as (sv & z & -> & Hgf & Hidx & Hei & Hz).
      rewrite filter_cons_True by exact Hsk.
      destruct (IH _ H) as (news & -> & Hall).
      exists (sv :: news). rewrite <- app_assoc. split; [reflexivity|].
      constructor; [|exact Hall]. eauto.
Qed.

(** Skipped entries do not change the result, whatever it is. *)
Lemma processSaves_loop_skip (b : Buffer) (gfs : list GameFile)
    (acc : list Save) :
  processSaves_loop b (filter retained gfs) acc = processSaves_loop b gfs acc.
Proof.
  revert acc. induction gfs as [|gf gfs IH]; intros acc; [reflexivity|].
  destruct (skipped gf) eqn:Hsk.
  - rewrite filter_cons_False by (unfold retained; congruence).
    cbn [processSaves_loop]. rewrite processSave_skipped by assumption.
    cbn. apply IH.
  - rewrite filter_cons_True by exact Hsk. cbn [processSaves_loop].
    destruct (processSave b gf) as [[sv|]|e|]; cbn; try reflexivity; apply IH.
Qed.

Lemma sort_insert_Permutation (x : Save) (l : list Save) :
  sort_insert x l ≡ₚ x :: l.
Proof.
  induction l as [|y l IH]; [reflexivity|]. cbn [sort_insert].
  destruct (compareSaves x y <=? 0); [reflexivity|].
  rewrite IH. apply Permutation_swap.
Qed.

Lemma sort_saves_Permutation (l : list Save) : sort_saves l ≡ₚ l.
Proof.
  induction l as [|x l IH]; [reflexivity|]. cbn [sort_saves foldr].
  rewrite sort_insert_Permutation. fold (sort_saves l). rewrite IH. reflexivity.
Qed.

Lemma sort_insert_sorted (x : Save) (l : list Save) :
  has_index x -> Forall has_index l ->
  StronglySorted index_le l ->
  StronglySorted index_le (sort_insert x l).
Proof.
  intros [z Hx] Hall Hs. induction Hs as [|y l Hl IH Hy].
  - repeat constructor.
  - apply Forall_cons in Hall as [[w Hw] Hall]. cbn [sort_insert].
    unfold compareSaves. rewrite Hx, Hw. cbn [num_lift2 num_offset].
    destruct (Z.leb_spec (z - w) 0) as [Hle|Hgt].
    + constructor; [constructor; assumption|].
      constructor; [exists z, w; repeat split; try assumption; lia|].
      eapply Forall_impl; [exact Hy|].
      intros s (a & c & Ha & Hc & Hac). rewrite Hw in Ha. injection Ha as <-.
      exists z, c. repeat split; try assumption; lia.
    + constructor; [exact (IH Hall)|].
      rewrite sort_insert_Permutation. constructor; [|exact Hy].
      exists w, z. repeat split; try assumption; lia.
Qed.

Lemma sort_saves_sorted (l : list Save) :
  Forall has_index l -> StronglySorted index_le (sort_saves l).
Proof.
  induction 1 as [|x l Hx Hl IH]; [constructor|].
  cbn [sort_saves foldr]. fold (sort_saves l).
  apply sort_insert_sorted; [exact Hx | | exact IH].
  rewrite sort_saves_Permutation. exact Hl.
Qed.

Lemma sorted_indexes (l : list Save) :
  StronglySorted index_le l -> Forall has_index l ->
  exists zs, index <$> l = Int <$> zs /\ StronglySorted Z.le zs.
Proof.
  induction 1 as [|x l Hl IH Hx]; intros Hall.
  - exists []. split; [reflexivity | constructor].
  - apply Forall_cons in Hall as [[z Hz] Hall].
    destruct (IH Hall) as (zs & Hzs & Hsorted).
    exists (z :: zs). cbn [fmap list_fmap]. split.
    + change (index x :: (index <$> l) = Int z :: (Int <$> zs)).
      rewrite Hz, Hzs. reflexivity.
    + constructor; [exact Hsorted|].
      apply Forall_forall. intros w Hw.
      assert (Hin : Int w ∈ index <$> l).
      { rewrite Hzs. apply list_elem_of_fmap. eauto. }
      apply list_elem_of_fmap in Hin as (s & Hs & Hsl).
      rewrite Forall_forall in Hx.
      destruct (Hx s Hsl) as (a & c & Ha & Hc & Hac).
      rewrite Hz in Ha. injection Ha as <-.
      rewrite <- Hs in Hc. injection Hc as <-. exact Hac.
Qed.

Lemma bounded_NoDup_length (zs : list Z) :
  NoDup zs -> Forall (fun z => 0 <= z <= 9) zs -> (length zs <= 10)%nat.
Proof.
  intros Hnd Hall.
  change 10%nat with (length (seqZ 0 10)).
  apply submseteq_length, NoDup_submseteq; [exact Hnd|].
  intros z Hz. rewrite Forall_forall in Hall.
  apply elem_of_seqZ. specialize (Hall z Hz). lia.
Qed.

(** C8 (amended). When processSaves returns, the list has one slot for
    each retained entry, so at most as many slots as there are entries;
    every slot index is an integer not above 9; the list is in ascending
    order of index; and the entries without a name, with a name that does
    not start with USER_DATA or with an index above 9 are skipped without
    an error: leaving them out of the input gives the same list. When the
    retained entries have pairwise distinct indexes that are not negative,
    the list has at most 10 slots, no two slots share an index and every
    index is in 0..9. *)
Theorem processSaves_slots (b : Buffer) (entries : list GameFile)
    (slots : list Save) :
  processSaves b entries = Ok slots ->
  (exists zs, index <$> slots = Int <$> zs /\ StronglySorted Z.le zs /\
              Forall (fun z => z <= 9) zs) /\
  gameFile <$> slots ≡ₚ filter retained entries /\
  (length slots <= length entries)%nat /\
  processSaves b (filter retained entries) = Ok slots /\
  (NoDup (entryIndex <$> filter retained entries) ->
   Forall (fun gf => exists z, entryIndex gf = Int z /\ 0 <= z)
          (filter retained entries) ->
   (length slots <= 10)%nat /\ NoDup (index <$> slots) /\
   Forall (fun s => exists z, index s = Int z /\ 0 <= z <= 9) slots).
Proof.
  unfold processSaves. intros H.
  destruct (processSaves_loop b entries []) as [found|e|] eqn:Hloop;
    cbn [mbind outcome_bind] in H; [|discriminate..].
  injection H as <-.
  destruct (processSaves_loop_spec b entries [] found Hloop)
    as (news & -> & Hall). cbn [app] in *.
  pose proof (sort_saves_Permutation news) as Hperm.
  assert (Hfiles : gameFile <$> news = filter retained entries).
  { clear -Hall. induction Hall as [|gf sv gfs svs [Hgf _] _ IH];
      [reflexivity|]. cbn. rewrite Hgf. f_equal. exact IH. }
  assert (Hidx : index <$> news = entryIndex <$> filter retained entries).
  { clear -Hall. induction Hall as [|gf sv gfs svs (_ & z & Hi & He & _) _ IH];
      [reflexivity|]. cbn. rewrite Hi, He. f_equal. exact IH. }
  assert (Hint : Forall (fun s => exists z, index s = Int z /\ z <= 9) news).
  { clear -Hall. induction Hall as [|gf sv gfs svs (_ & z & Hi & _ & Hz) _ IH];
      constructor; eauto. }
  assert (Hhas : Forall has_index news).
  { eapply Forall_impl; [exact Hint|]. intros s (z & Hz & _). exists z. exact Hz. }
  split; [|split; [|split; [|split]]].
  - destruct (sorted_indexes (sort_saves news)) as (zs & Hzs & Hsorted).
    + apply sort_saves_sorted. exact Hhas.
    + rewrite Hperm. exact Hhas.
    + exists zs. split; [exact Hzs|]. split; [exact Hsorted|].
      apply Forall_forall. intros z Hz.
      assert (Hin : Int z ∈ index <$> sort_saves news).
      { rewrite Hzs. apply list_elem_of_fmap. eauto. }
      apply list_elem_of_fmap in Hin as (s & Hs & Hsl).
      rewrite Hperm in Hsl. rewrite Forall_forall in Hint.
      destruct (Hint s Hsl) as (w & Hw & Hle). congruence.
  - rewrite Hperm, Hfiles. reflexivity.
  - rewrite Hperm. rewrite <- (length_fmap gameFile), Hfiles.
    apply length_filter.
  - rewrite processSaves_loop_skip, Hloop. reflexivity.
  - intros Hnd Hnonneg.
    assert (Hrange : Forall (fun s => exists z, index s = Int z /\ 0 <= z <= 9)
                            news).
    { apply Forall_forall. intros s Hs.
      rewrite Forall_forall in Hint. destruct (Hint s Hs) as (z & Hz & Hle).
      exists z. split; [exact Hz|]. split; [|exact Hle].
      assert (Hin : index s ∈ entryIndex <$> filter retained entries).
      { rewrite <- Hidx. apply list_elem_of_fmap. eauto. }
      apply list_elem_of_fmap in Hin as (gf & Hgf & Hgfin).
      rewrite Forall_forall in Hnonneg.
      destruct (Hnonneg gf Hgfin) as (w & Hw & Hw0). congruence. }
    assert (Hnd' : NoDup (index <$> sort_saves news)).
    { rewrite Hperm, Hidx. exact Hnd. }
    split; [|split; [exact Hnd' | rewrite Hperm; exact Hrange]].
    rewrite Hperm.
    assert (Hzs : exists zs, index <$> news = Int <$> zs /\
                             Forall (fun z => 0 <= z <= 9) zs).
    { clear -Hrange. induction Hrange as [|s l (z & Hz & Hr) _ (zs & Hzs & Hall)].
      - exists []. split; [reflexivity | constructor].
      - exists (z :: zs). cbn. rewrite Hz, Hzs. split; [reflexivity|].
        constructor; assumption. }
    destruct Hzs as (zs & Hzs & Hall').
    rewrite <- (length_fmap index), Hzs, length_fmap.
    apply bounded_NoDup_length; [|exact Hall'].
    rewrite Hperm, Hzs in Hnd'.
    apply (NoDup_fmap_1 Int). exact Hnd'.
Qed.

Lemma zero_file_length : Buf.blength zero_file = 26608560.
Proof. unfold Buf.blength, zero_file. rewrite length_replicate. lia. Qed.

Lemma zero_file_slice (s n : Z) :
  0 <= s -> 0 <= n -> s + n <= 26608560 ->
  Buf.slice zero_file s (s + n) = replicate (Z.to_nat n) 0.
Proof.
  intros Hs Hn Hl. unfold Buf.slice. cbv zeta. rewrite zero_file_length.
  rewrite !adjustOffset_nonneg by lia.
  replace (Z.min s 26608560) with s by lia.
  replace (Z.min (s + n) 26608560) with (s + n) by lia.
  replace (if s <? s + n then s + n - s else 0) with n
    by (destruct (Z.ltb_spec s (s + n)); lia).
  unfold zero_file. rewrite drop_replicate, take_replicate.
  match goal with
  | |- replicate ?m _ = _ => replace m with (Z.to_nat n) by lia
  end.
  reflexivity.
Qed.

Lemma zero_file_at (j : Z) :
  0 <= j < 26608560 -> Buf.at_index zero_file j = Some 0.
Proof.
  intros Hj. rewrite at_index_nonneg by lia. unfold zero_file.
  apply lookup_replicate_2. lia.
Qed.

Lemma processSave_zero_file (gf : GameFile) (z : Z) :
  skipped gf = false -> entryIndex gf = Int z -> 0 <= z <= 9 ->
  processSave zero_file gf = Ok (Some (empty_slot z gf)).
Proof.
  unfold skipped, entryIndex, processSave.
  destruct (name (header gf)) as [n|]; [|discriminate].
  destruct (bool_decide (n = []) || negb (startsWith n SAVE_IDENTIFIER));
    [discriminate|].
  cbn [orb]. cbv zeta. intros Hgt Hidx Hz. rewrite Hidx in *. rewrite Hgt.
  cbn [num_lift2 num_offset at_num].
  unfold HEADER_DATA_OFFSET, HEADER_DATA_LENGTH, ACTIVE_SAVE_SLOT_OFFSET.
  rewrite zero_file_slice by lia.
  rewrite zero_file_at by lia.
  replace (extractSaveHeaderInfo (replicate (Z.to_nat 588) 0))
    with (Ok (mkSaveHeaderInfo (lit "Empty Slot") 0 0))
    by (vm_compute; reflexivity).
  reflexivity.
Qed.

Lemma processSaves_loop_Some (b : Buffer) (gf : GameFile)
    (gfs : list GameFile) (acc : list Save) (sv : Save) :
  processSave b gf = Ok (Some sv) ->
  processSaves_loop b (gf :: gfs) acc = processSaves_loop b gfs (acc ++ [sv]).
Proof. intros H. cbn [processSaves_loop]. rewrite H. reflexivity. Qed.

Lemma processSaves_loop_None (b : Buffer) (gf : GameFile)
    (gfs : list GameFile) (acc : list Save) :
  processSave b gf = Ok None ->
  processSaves_loop b (gf :: gfs) acc = processSaves_loop b gfs acc.
Proof. intros H. cbn [processSaves_loop]. rewrite H. reflexivity. Qed.

Lemma processSaves_of_loop (b : Buffer) (gfs : list GameFile)
    (found : list Save) :
  processSaves_loop b gfs [] = Ok found ->
  processSaves b gfs = Ok (sort_saves found).
Proof. intros H. unfold processSaves. rewrite H. reflexivity. Qed.

Lemma processSaves_sample :
  processSaves zero_file
    [entry_named "USER_DATA001"; entry_named "INFO"; entry_named "USER_DATA000"]
  = Ok [empty_slot 0 (entry_named "USER_DATA000");
        empty_slot 1 (entry_named "USER_DATA001")].
Proof.
  rewrite (processSaves_of_loop zero_file _
             [empty_slot 1 (entry_named "USER_DATA001");
              empty_slot 0 (entry_named "USER_DATA000")]);
    [reflexivity|].
  rewrite (processSaves_loop_Some zero_file _ _ _
             (empty_slot 1 (entry_named "USER_DATA001")))
    by (apply processSave_zero_file; [reflexivity | reflexivity | lia]).
  rewrite (processSaves_loop_None zero_file)
    by (apply processSave_skipped; reflexivity).
  rewrite (processSaves_loop_Some zero_file _ _ _
             (empty_slot 0 (entry_named "USER_DATA000")))
    by (apply processSave_zero_file; [reflexivity | reflexivity | lia]).
  reflexivity.
Qed.

Lemma processSaves_slots_witness :
  (length [empty_slot 0 (entry_named "USER_DATA000");
           empty_slot 1 (entry_named "USER_DATA001")]
   <= length [entry_named "USER_DATA001"; entry_named "INFO";
              entry_named "USER_DATA000"])%nat.
Proof.
  exact (proj1 (proj2 (proj2 (processSaves_slots _ _ _ processSaves_sample)))).
Defined.

(** C8, as stated, fails: a container whose entry table lists USER_DATA000
    twice gives two slots with index 0. *)
Lemma processSaves_counterexample :
  processSaves zero_file
    [entry_named "USER_DATA000"; entry_named "USER_DATA000"]
  = Ok [empty_slot 0 (entry_named "USER_DATA000");
        empty_slot 0 (entry_named "USER_DATA000")] /\
  ~ NoDup (index <$> [empty_slot 0 (entry_named "USER_DATA000");
                      empty_slot 0 (entry_named "USER_DATA000")]).
Proof.
  split.
  - rewrite (processSaves_of_loop zero_file _
               [empty_slot 0 (entry_named "USER_DATA000");
                empty_slot 0 (entry_named "USER_DATA000")]);
      [reflexivity|].
    rewrite (processSaves_loop_Some zero_file _ _ _
               (empty_slot 0 (entry_named "USER_DATA000")))
      by (apply processSave_zero_file; [reflexivity | reflexivity | lia]).
    rewrite (processSaves_loop_Some zero_file _ _ _
               (empty_slot 0 (entry_named "USER_DATA000")))
      by (apply processSave_zero_file; [reflexivity | reflexivity | lia]).
    reflexivity.
  - cbn. intros H. apply NoDup_cons in H as [H _]. apply H. left.
Qed.

(** * Further properties *)

(** ** Bit reversal, resource tables and the checksum engine again *)

(** X17. On a byte, reverseBytes gives a byte and is its own inverse. *)
Theorem reverseBytes_involutive (byte : Z) :
  0 <= byte < 256 ->
  0 <= reverseBytes byte < 256 /\ reverseBytes (reverseBytes byte) = byte.
Proof.
  intros Hb.
  pose (P := fun x : Z =>
    (0 <=? reverseBytes x) && (reverseBytes x <? 256)
    && (reverseBytes (reverseBytes x) =? x)).
  assert (H : P byte = true).
  { apply (forallb_range P 256); [vm_compute; reflexivity | lia]. }
  unfold P in H. rewrite !andb_true_iff in H. lia.
Qed.

Lemma reverseBytes_involutive_witness :
  reverseBytes (reverseBytes 0x74) = 0x74.
Proof. apply (reverseBytes_involutive 0x74). lia. Defined.

Lemma calculate_clamp (v : Z) :
  calculateHP (Z.min v 99) = calculateHP v /\
  calculateFP (Z.min v 99) = calculateFP v /\
  calculateStamina (Z.min v 99) = calculateStamina v.
Proof.
  unfold calculateHP, calculateFP, calculateStamina.
  rewrite <- Z.min_assoc, Z.min_id. auto.
Qed.

(** X25. From attribute 1 on, a higher attribute never gives less HP,
    FP or stamina. *)
Theorem calculate_monotone (v w : Z) :
  1 <= v <= w ->
  tableValue (calculateHP v) <= tableValue (calculateHP w) /\
  tableValue (calculateFP v) <= tableValue (calculateFP w) /\
  tableValue (calculateStamina v) <= tableValue (calculateStamina w).
Proof.
  intros Hvw.
  destruct (calculate_clamp v) as (Hv1 & Hv2 & Hv3).
  destruct (calculate_clamp w) as (Hw1 & Hw2 & Hw3).
  rewrite <- Hv1, <- Hv2, <- Hv3, <- Hw1, <- Hw2, <- Hw3.
  assert (Hr : 1 <= Z.min v 99 <= Z.min w 99 /\ Z.min w 99 <= 99) by lia.
  revert Hr. generalize (Z.min v 99) (Z.min w 99). clear.
  intros v w Hr.
  pose (Q := fun v w : Z =>
    (tableValue (calculateHP v) <=? tableValue (calculateHP (v + w)))
    && (tableValue (calculateFP v) <=? tableValue (calculateFP (v + w)))
    && (tableValue (calculateStamina v)
        <=? tableValue (calculateStamina (v + w)))).
  pose (P := fun v : Z =>
    (v =? 0) || forallb (Q v) (Z.of_nat <$> seq 0 100)).
  assert (HP : P v = true).
  { apply (forallb_range P 100); [vm_compute; reflexivity | lia]. }
  assert (HQ : Q v (w - v) = true).
  { unfold P in HP. apply orb_true_iff in HP as [HP|HP]; [lia|].
    apply (forallb_range (Q v) 100); [exact HP | lia]. }
  unfold Q in HQ. replace (v + (w - v)) with w in HQ by lia.
  rewrite !andb_true_iff in HQ. lia.
Qed.

Lemma calculate_monotone_witness :
  tableValue (calculateHP 40) <= tableValue (calculateHP 60).
Proof. apply (calculate_monotone 40 60). lia. Defined.

Lemma recalculateChecksums_valid (b : Buffer) :
  0x019003B0 <= Buf.blength b -> checksums_valid (recalculateChecksums b).
Proof.
  intros Hlen.
  pose proof (generalData_recalculateChecksums b) as Hgd.
  pose proof (slotWindow_recalculateChecksums b) as Hsw.
  destruct (recalculateChecksums_spec b) as (Hl & Hframe & Hslots & Hgen).
  remember (recalculateChecksums b) as out eqn:Hout. clear Hout.
  split.
  - intros k Hk. rewrite Hsw by lia.
    apply slice_is_digest;
      [unfold slotChecksumStart; lia | apply blength_md5 |].
    intros j Hj. apply Hslots; [lia | lia |].
    unfold slotChecksumStart in *. lia.
  - rewrite Hgd.
    replace 0x019003B0 with (0x019003A0 + 16) at 1 by reflexivity.
    apply slice_is_digest; [lia | apply blength_md5 |].
    intros j Hj. apply Hgen; lia.
Qed.

(** X26. recalculateChecksums keeps the length of the buffer and every
    byte outside the eleven checksum fields; a buffer of at most 0x300
    bytes comes back unchanged. *)
Theorem recalculateChecksums_frame (b : Buffer) :
  same_except checksumField b (recalculateChecksums b) /\
  (Buf.blength b <= 0x300 -> recalculateChecksums b = b).
Proof.
  destruct (recalculateChecksums_spec b) as (Hl & Hframe & _).
  remember (recalculateChecksums b) as out eqn:Hout. clear Hout.
  split.
  - split; [exact Hl|].
    intros j Hj. apply Hframe.
    + intros k Hk Hin. apply Hj. left. exists k. auto.
    + intros Hin. apply Hj. right. lia.
  - intros Hshort. apply at_index_ext. intros j Hj.
    destruct (Z.lt_ge_cases j (Buf.blength b)) as [Hin|Hbeyond].
    + apply Hframe; [|lia].
      intros k Hk. unfold slotChecksumStart. lia.
    + rewrite !at_index_beyond by lia. reflexivity.
Qed.

Lemma recalculateChecksums_frame_witness :
  recalculateChecksums (lit "BND4") = lit "BND4".
Proof.
  apply (recalculateChecksums_frame (lit "BND4")). vm_compute. discriminate.
Defined.

Lemma slice_at_index (b : Buffer) (s e j : Z) :
  0 <= s -> s <= j < e ->
  Buf.at_index (Buf.slice b s e) (j - s) = Buf.at_index b j.
Proof.
  intros Hs Hj. rewrite at_index_slice by lia.
  case_decide; [f_equal; lia | lia].
Qed.

Lemma recalculateChecksums_fixed (b : Buffer) :
  checksums_valid b -> recalculateChecksums b = b.
Proof.
  intros [Hslots Hgen].
  destruct (recalculateChecksums_spec b) as (Hl & Hframe & Hs & Hg).
  remember (recalculateChecksums b) as out eqn:Hout. clear Hout.
  apply at_index_ext. intros j Hj.
  destruct (Z.lt_ge_cases j (Buf.blength b)) as [Hin|Hbeyond].
  - destruct (checksum_field_cases j 10) as [(k & Hk & Hjk) | Hno].
    + rewrite (Hs k j) by (try assumption; lia).
      rewrite <- (Hslots k) by lia.
      apply slice_at_index; [unfold slotChecksumStart; lia | lia].
    + destruct (decide (0x019003A0 <= j < 0x019003A0 + 16)) as [Hgj|Hgj].
      * rewrite Hg by lia. rewrite <- Hgen.
        apply slice_at_index; lia.
      * apply Hframe; [|assumption].
        intros k Hk. apply Hno. lia.
  - rewrite !at_index_beyond by lia. reflexivity.
Qed.

(** X27. On a buffer that reaches the end of the general checksum
    field, recalculateChecksums returns the buffer unchanged exactly when
    all eleven checksums are valid. *)
Theorem recalculateChecksums_fixpoint (b : Buffer) :
  0x019003B0 <= Buf.blength b ->
  recalculateChecksums b = b <-> checksums_valid b.
Proof.
  intros Hlen. split.
  - intros H. rewrite <- H. apply recalculateChecksums_valid. exact Hlen.
  - apply recalculateChecksums_fixed.
Qed.

Lemma recalculateChecksums_fixpoint_witness :
  recalculateChecksums (recalculateChecksums sample_file)
  = recalculateChecksums sample_file.
Proof.
  apply (recalculateChecksums_fixpoint (recalculateChecksums sample_file)).
  - destruct (recalculateChecksums_spec sample_file) as (Hl & _).
    rewrite Hl, sample_file_length. lia.
  - apply recalculateChecksums_valid. rewrite sample_file_length. lia.
Defined.

(** ** Reading and editing the stats (getCharacterStats, setCharacterStats) *)

Lemma Ok_inj {A} (x y : A) : Ok x = Ok y -> x = y.
Proof. intros H. injection H as H. exact H. Qed.

Lemma readUInt16LE_slice (b : Buffer) (s e i v : Z) :
  0 <= s -> 0 <= e ->
  Buf.readUInt16LE (Buf.slice b s e) i = Ok v ->
  Buf.readUInt16LE b (s + i) = Ok v /\ 0 <= i /\ s + i + 1 < e.
Proof.
  intros Hs He H.
  pose proof (readUInt16LE_nonneg _ _ _ H) as Hi.
  unfold Buf.readUInt16LE in *.
  rewrite !at_index_slice in H by lia.
  repeat case_decide; try discriminate;
    try (destruct (Buf.at_index b (s + i)); discriminate).
  replace (s + i + 1) with (s + (i + 1)) by lia.
  split; [exact H | lia].
Qed.

Lemma readUInt8_slice (b : Buffer) (s e i v : Z) :
  0 <= s -> 0 <= e -> 0 <= i ->
  Buf.readUInt8 (Buf.slice b s e) i = Ok v ->
  Buf.readUInt8 b (s + i) = Ok v.
Proof.
  intros Hs He Hi H. unfold Buf.readUInt8 in *.
  rewrite at_index_slice in H by lia.
  case_decide; [exact H | discriminate].
Qed.

Lemma getCharacterStats_fields (b : Buffer) (s : Z) (cs : CharacterStats) :
  getCharacterStats b s = Some cs ->
  exists i attrs hp0 hp1 hp2 st0 st1 st2 fp0 fp1 fp2,
    findStats (slotWindow b s) (level cs) = Some (i, attrs) /\
    cs = mkCharacterStats s (level cs) (slotDataStart s + i)
           (statsOfList attrs) [hp0; hp1; hp2] [st0; st1; st2] [fp0; fp1; fp2]
           [slotDataStart s + i - 44; slotDataStart s + i - 40;
            slotDataStart s + i - 36]
           [slotDataStart s + i - 16; slotDataStart s + i - 12;
            slotDataStart s + i - 8]
           [slotDataStart s + i - 32; slotDataStart s + i - 28;
            slotDataStart s + i - 24] /\
    Buf.readUInt16LE b (slotDataStart s + i - 44) = Ok hp0 /\
    Buf.readUInt16LE b (slotDataStart s + i - 40) = Ok hp1 /\
    Buf.readUInt16LE b (slotDataStart s + i - 36) = Ok hp2 /\
    Buf.readUInt16LE b (slotDataStart s + i - 16) = Ok st0 /\
    Buf.readUInt16LE b (slotDataStart s + i - 12) = Ok st1 /\
    Buf.readUInt16LE b (slotDataStart s + i - 8) = Ok st2 /\
    Buf.readUInt16LE b (slotDataStart s + i - 32) = Ok fp0 /\
    Buf.readUInt16LE b (slotDataStart s + i - 28) = Ok fp1 /\
    Buf.readUInt16LE b (slotDataStart s + i - 24) = Ok fp2.
Proof.
  intros Hget.
  destruct (getCharacterStats_inv b s cs Hget)
    as (i0 & attrs0 & Hs & Hlen & Hlvl & Hfind & _).
  revert Hget.
  unfold getCharacterStats, getCharacterStats_body. cbv zeta.
  destruct (Z.ltb_spec (Buf.blength b) (26221872 + s * 588 + 2)) as [|_];
    [discriminate|].
  rewrite Hlvl. cbn [mbind outcome_bind].
  destruct (slot_tables_in_range s Hs) as [-> ->].
  rewrite Hfind.
  assert (Hst : 0 <= slotDataStart s) by (unfold slotDataStart; lia).
  assert (R : forall d v,
    Buf.readUInt16LE (slotWindow b s) (i0 - d) = Ok v ->
    Buf.readUInt16LE b (slotDataStart s + i0 - d) = Ok v).
  { intros d v H. apply readUInt16LE_slice in H as (H & _); [|lia..].
    replace (slotDataStart s + i0 - d) with (slotDataStart s + (i0 - d))
      by lia. exact H. }
  destruct (Buf.readUInt16LE _ (i0 - 44)) as [hp0| |] eqn:E1;
    cbn [mbind outcome_bind]; [|discriminate..].
  destruct (Buf.readUInt16LE _ (i0 - 40)) as [hp1| |] eqn:E2;
    cbn [mbind outcome_bind]; [|discriminate..].
  destruct (Buf.readUInt16LE _ (i0 - 36)) as [hp2| |] eqn:E3;
    cbn [mbind outcome_bind]; [|discriminate..].
  destruct (Buf.readUInt16LE _ (i0 - 16)) as [st0| |] eqn:E4;
    cbn [mbind outcome_bind]; [|discriminate..].
  destruct (Buf.readUInt16LE _ (i0 - 12)) as [st1| |] eqn:E5;
    cbn [mbind outcome_bind]; [|discriminate..].
  destruct (Buf.readUInt16LE _ (i0 - 8)) as [st2| |] eqn:E6;
    cbn [mbind outcome_bind]; [|discriminate..].
  destruct (Buf.readUInt16LE _ (i0 - 32)) as [fp0| |] eqn:E7;
    cbn [mbind outcome_bind]; [|discriminate..].
  destruct (Buf.readUInt16LE _ (i0 - 28)) as [fp1| |] eqn:E8;
    cbn [mbind outcome_bind]; [|discriminate..].
  destruct (Buf.readUInt16LE _ (i0 - 24)) as [fp2| |] eqn:E9;
    cbn [mbind outcome_bind]; [|discriminate..].
  intros H. injection H as H.
  exists i0, attrs0, hp0, hp1, hp2, st0, st1, st2, fp0, fp1, fp2.
  split; [reflexivity|]. split; [symmetry; exact H|].
  repeat split; apply R; assumption.
Qed.

Lemma slice_lookup (b : Buffer) (s e i v : Z) :
  0 <= s -> 0 <= e -> 0 <= i ->
  Buf.slice b s e !! Z.to_nat i = Some v ->
  Buf.at_index b (s + i) = Some v /\ s + i < e.
Proof.
  intros Hs He Hi H. rewrite <- at_index_nonneg in H by lia.
  rewrite at_index_slice in H by lia.
  case_decide; [auto | discriminate].
Qed.

Lemma lookup_slice (b : Buffer) (s e i v : Z) :
  0 <= s -> 0 <= e -> 0 <= i -> s + i < e ->
  Buf.at_index b (s + i) = Some v ->
  Buf.slice b s e !! Z.to_nat i = Some v.
Proof.
  intros Hs He Hi Hie H. rewrite <- at_index_nonneg by lia.
  rewrite at_index_slice by lia.
  case_decide; [exact H | lia].
Qed.

Lemma findStats_block (slotData : Buffer) (level i : Z) (attrs : list Z) :
  findStats slotData level = Some (i, attrs) ->
  0 <= i < Z.min 120000 (Buf.blength slotData - 50) /\
  statsBlockAt slotData level i attrs /\
  forall j a, 0 <= j < i -> ~ statsBlockAt slotData level j a.
Proof.
  unfold findStats. intros H.
  pose proof (findStats_loop_spec
    (Z.to_nat (Z.min 120000 (Buf.blength slotData - 50))) slotData level
    (Z.min 120000 (Buf.blength slotData - 50)) 0 ltac:(lia)) as Hs.
  rewrite H in Hs. destruct Hs as (Hi & _ & Hb & Hmin). auto.
Qed.

Lemma findStats_at_most (slotData : Buffer) (level i : Z) (attrs : list Z) :
  0 <= i < Z.min 120000 (Buf.blength slotData - 50) ->
  statsBlockAt slotData level i attrs ->
  exists r a, findStats slotData level = Some (r, a) /\ 0 <= r <= i /\
              (r = i -> a = attrs).
Proof.
  intros Hi Hb.
  pose proof (findStats_loop_spec
    (Z.to_nat (Z.min 120000 (Buf.blength slotData - 50))) slotData level
    (Z.min 120000 (Buf.blength slotData - 50)) 0 ltac:(lia)) as Hs.
  unfold findStats.
  destruct (findStats_loop _ _ _ _ _) as [[r a]|].
  - destruct Hs as (Hr & _ & Hra & Hmin).
    exists r, a. split; [reflexivity|]. split.
    + destruct (Z.le_gt_cases r i) as [Hle|Hgt]; [lia|].
      exfalso. apply (Hmin i attrs); [lia | exact Hb].
    + intros ->.
      destruct Hra as (a0 & a1 & a2 & a3 & a4 & a5 & a6 & a7 & lo & hi & -> &
                       ? & ? & ? & ? & ? & ? & ? & ? & _).
      destruct Hb as (c0 & c1 & c2 & c3 & c4 & c5 & c6 & c7 & lo' & hi' & -> &
                      ? & ? & ? & ? & ? & ? & ? & ? & _).
      congruence.
  - exfalso. apply (Hs i attrs); [lia | exact Hb].
Qed.

Lemma statValues_statsOfList (a0 a1 a2 a3 a4 a5 a6 a7 : Z) :
  statValues (statsOfList [a0; a1; a2; a3; a4; a5; a6; a7])
  = [a0; a1; a2; a3; a4; a5; a6; a7].
Proof. reflexivity. Qed.

Lemma statsOfList_statValues (s : Stats) : statsOfList (statValues s) = s.
Proof. destruct s. reflexivity. Qed.

(** X20. What getCharacterStats reports is what the buffer holds at the
    absolute offsets it reports: the level is the 16-bit field at 26221872
    + 588 * slot and again at statsOffset + 44, the eight attributes are
    the bytes at statsOffset + 4k and sum to level + 79, and each HP, FP
    and stamina value is the 16-bit field at its reported offset. *)
Theorem getCharacterStats_reads (b : Buffer) (s : Z) (cs : CharacterStats) :
  getCharacterStats b s = Some cs ->
  slotIndex cs = s /\
  Buf.readUInt16LE b (26221872 + s * 588) = Ok (level cs) /\
  Buf.readUInt16LE b (statsOffset cs + 44) = Ok (level cs) /\
  foldl Z.add 0 (statValues (stats cs)) = level cs + 79 /\
  (forall k v, statValues (stats cs) !! k = Some v ->
     Buf.readUInt8 b (statsOffset cs + 4 * Z.of_nat k) = Ok v) /\
  Forall2 (fun o v => Buf.readUInt16LE b o = Ok v) (hpOffsets cs) (hp cs) /\
  Forall2 (fun o v => Buf.readUInt16LE b o = Ok v) (fpOffsets cs) (fp cs) /\
  Forall2 (fun o v => Buf.readUInt16LE b o = Ok v)
          (staminaOffsets cs) (stamina cs).
Proof.
  intros Hget.
  destruct (getCharacterStats_inv b s cs Hget)
    as (i0 & attrs0 & Hs & Hlen & Hlvl & Hfind0 & _).
  destruct (getCharacterStats_fields b s cs Hget)
    as (i & attrs & hp0 & hp1 & hp2 & st0 & st1 & st2 & fp0 & fp1 & fp2 &
        Hfind & Hcs & R1 & R2 & R3 & R4 & R5 & R6 & R7 & R8 & R9).
  destruct (findStats_block _ _ _ _ Hfind) as (Hi & Hblock & _).
  destruct Hblock as (a0 & a1 & a2 & a3 & a4 & a5 & a6 & a7 & lo & hi & -> &
                      H0 & H1 & H2 & H3 & H4 & H5 & H6 & H7 & Hlo & Hhi &
                      Hsum & Hlevel).
  assert (Hst : 0 <= slotDataStart s) by (unfold slotDataStart; lia).
  assert (L : forall d v, 0 <= d ->
    slotWindow b s !! Z.to_nat (i + d) = Some v ->
    Buf.at_index b (slotDataStart s + i + d) = Some v).
  { intros d v Hd H. apply slice_lookup in H as [H _]; [|lia..].
    replace (slotDataStart s + i + d) with (slotDataStart s + (i + d)) by lia.
    exact H. }
  replace i with (i + 0) in H0 by lia.
  apply L in H0, H1, H2, H3, H4, H5, H6, H7, Hlo, Hhi; try lia.
  rewrite Hcs. cbn [slotIndex level statsOffset stats hp fp stamina hpOffsets
                    fpOffsets staminaOffsets].
  rewrite statValues_statsOfList.
  split; [reflexivity|]. split; [exact Hlvl|]. split.
  { unfold Buf.readUInt16LE.
    replace (slotDataStart s + i + 44 + 1) with (slotDataStart s + i + 45)
      by lia.
    rewrite Hlo, Hhi. f_equal. lia. }
  split; [cbn; lia|]. split.
  { intros k v Hk. unfold Buf.readUInt8.
    do 8 (destruct k as [|k];
          [injection Hk as <-; cbn [Z.of_nat Z.mul];
           match goal with
           | |- context [Buf.at_index b ?o] =>
               match goal with
               | H : Buf.at_index b ?o' = Some _ |- _ =>
                   replace o with o' by lia; rewrite H; reflexivity
               end
           end|]).
    discriminate. }
  repeat split; repeat constructor; assumption.
Qed.

Lemma writeStats_exact (values : list Z) (b : Buffer)
    (statsOffset slotOffset index : Z) :
  Forall isByte values ->
  0 <= index ->
  0 <= statsOffset ->
  statsOffset + 4 * (index + Z.of_nat (length values)) <= Buf.blength b ->
  exists b', writeStats b statsOffset slotOffset index values = Ok b' /\
    Buf.blength b' = Buf.blength b /\
    (forall k v, values !! k = Some v ->
       Buf.at_index b' (statsOffset + 4 * (index + Z.of_nat k)) = Some v) /\
    (forall j, (forall k, (k < length values)%nat ->
                  j <> statsOffset + 4 * (index + Z.of_nat k)) ->
       Buf.at_index b' j = Buf.at_index b j).
Proof.
  intros Hv. revert b index.
  induction Hv as [|v rest Hv Hrest IH]; intros b index Hi Ho Hl.
  - exists b. split; [reflexivity|]. split; [reflexivity|].
    split; [intros k v Hk; discriminate | reflexivity].
  - cbn [length] in Hl. cbn [writeStats].
    replace (slotOffset + (statsOffset - slotOffset + index * 4))
      with (statsOffset + 4 * index) by lia.
    rewrite writeUInt8_Ok by (unfold isByte in Hv; lia).
    cbn [mbind outcome_bind].
    destruct (IH (Buf.set_index b (statsOffset + 4 * index) v) (index + 1))
      as (b' & Hw & Hlen & Hwritten & Hframe);
      [lia | lia | rewrite blength_set_index; lia |].
    exists b'. split; [exact Hw|].
    rewrite blength_set_index in Hlen. split; [exact Hlen|]. split.
    + intros [|k] x Hk.
      * injection Hk as <-.
        replace (index + Z.of_nat 0) with index by lia.
        rewrite Hframe by (intros k Hk; lia). rewrite at_index_set_index.
        case_decide; [reflexivity | lia].
      * replace (index + Z.of_nat (S k)) with (index + 1 + Z.of_nat k) by lia.
        apply Hwritten. exact Hk.
    + intros j Hj. cbn [length] in Hj.
      rewrite Hframe.
      * rewrite at_index_set_index.
        case_decide as Hd; [|reflexivity].
        exfalso. apply (Hj 0%nat); lia.
      * intros k Hk. specialize (Hj (S k) ltac:(lia)). lia.
Qed.

Lemma writeStats_rejects (values : list Z) (b : Buffer)
    (statsOffset slotOffset index : Z) :
  Exists (fun v => ~ isByte v) values ->
  0 <= index ->
  0 <= statsOffset ->
  statsOffset + 4 * (index + Z.of_nat (length values)) <= Buf.blength b ->
  writeStats b statsOffset slotOffset index values = Throw ValueOutOfRange.
Proof.
  revert b index.
  induction values as [|v rest IH]; intros b index Hex Hi Ho Hl.
  - inversion Hex.
  - cbn [length] in Hl. cbn [writeStats].
    replace (slotOffset + (statsOffset - slotOffset + index * 4))
      with (statsOffset + 4 * index) by lia.
    destruct (decide (isByte v)) as [Hv|Hv].
    + rewrite writeUInt8_Ok by (unfold isByte in Hv; lia).
      cbn [mbind outcome_bind].
      apply IH; [|lia|lia|rewrite blength_set_index; lia].
      apply Exists_cons in Hex as [Hex|Hex]; [contradiction | exact Hex].
    + unfold Buf.writeUInt8.
      destruct (Z.ltb_spec 255 v); [reflexivity|].
      destruct (Z.ltb_spec v 0); [reflexivity|].
      exfalso. apply Hv. unfold isByte. lia.
Qed.

Lemma writeEach_reads (offsets : list Z) (b : Buffer) (v : Z) :
  0 <= v <= 65535 ->
  Forall (fun o => 0 <= o /\ o + 1 < Buf.blength b) offsets ->
  (forall o o', o ∈ offsets -> o' ∈ offsets ->
     o = o' \/ o + 2 <= o' \/ o' + 2 <= o) ->
  exists b', writeEach b v offsets = Ok b' /\
    same_except (fun j => Exists (fun o => o <= j < o + 2) offsets) b b' /\
    Forall (fun o => Buf.readUInt16LE b' o = Ok v) offsets.
Proof.
  intros Hv. revert b. induction offsets as [|o rest IH]; intros b Hall Hdis.
  - exists b. split; [reflexivity|]. split; [apply same_except_refl|].
    constructor.
  - apply Forall_cons in Hall as [[Ho Hl] Hrest].
    destruct (writeUInt16LE_Ok b v o Hv Ho Hl) as (b1 & Hw & Hs & Hr).
    cbn [writeEach]. rewrite Hw. cbn [mbind outcome_bind].
    destruct (IH b1) as (b' & Hw' & Hs' & Hr').
    { destruct Hs as [Hlen _]. rewrite Hlen. exact Hrest. }
    { intros x y Hx Hy. apply Hdis; apply elem_of_cons; auto. }
    exists b'. split; [exact Hw'|]. split.
    + eapply same_except_trans; [exact Hs | exact Hs' |].
      intros j [Hj|Hj]; [apply Exists_cons_hd | apply Exists_cons_tl];
        assumption.
    + constructor; [|exact Hr'].
      destruct (decide (o ∈ rest)) as [Hin|Hnin].
      * rewrite Forall_forall in Hr'. apply Hr'. exact Hin.
      * rewrite <- Hr. destruct Hs' as [_ Hf].
        apply readUInt16LE_same; apply Hf; intros Hex;
          apply Exists_exists in Hex as (o' & Hin' & Hj);
          (assert (o = o' \/ o + 2 <= o' \/ o' + 2 <= o) as [->|?]
             by (apply Hdis; [apply elem_of_cons; auto
                             |apply elem_of_cons; auto]);
           [contradiction | lia]).
Qed.

Lemma readUInt16LE_kept (P : Z -> Prop) (b b' : Buffer) (o : Z) :
  same_except P b b' -> ~ P o -> ~ P (o + 1) ->
  Buf.readUInt16LE b' o = Buf.readUInt16LE b o.
Proof.
  intros [_ H] H1 H2. apply readUInt16LE_same; apply H; assumption.
Qed.

Lemma resource_writes_reads (b : Buffer) (origin v1 v2 v3 : Z) :
  0 <= v1 <= 65535 -> 0 <= v2 <= 65535 -> 0 <= v3 <= 65535 ->
  44 <= origin -> origin <= Buf.blength b ->
  exists b',
    (b1 ← writeEach b v1 [origin - 44; origin - 40; origin - 36];
     b2 ← writeEach b1 v2 [origin - 32; origin - 28; origin - 24];
     writeEach b2 v3 [origin - 16; origin - 12; origin - 8]) = Ok b' /\
    same_except
      (fun j => Exists (fun o => o <= j < o + 2)
         ([origin - 44; origin - 40; origin - 36]
          ++ [origin - 32; origin - 28; origin - 24]
          ++ [origin - 16; origin - 12; origin - 8])) b b' /\
    Forall (fun o => Buf.readUInt16LE b' o = Ok v1)
           [origin - 44; origin - 40; origin - 36] /\
    Forall (fun o => Buf.readUInt16LE b' o = Ok v2)
           [origin - 32; origin - 28; origin - 24] /\
    Forall (fun o => Buf.readUInt16LE b' o = Ok v3)
           [origin - 16; origin - 12; origin - 8].
Proof.
  intros H1 H2 H3 Ho Hl.
  assert (Hdis : forall l : list Z,
    (exists d, l = [origin - d; origin - (d - 4); origin - (d - 8)]) ->
    forall o o', o ∈ l -> o' ∈ l -> o = o' \/ o + 2 <= o' \/ o' + 2 <= o).
  { intros l (d & ->) o o' Hin Hin'.
    repeat (apply elem_of_cons in Hin as [->|Hin]);
      repeat (apply elem_of_cons in Hin' as [->|Hin']);
      try (apply elem_of_nil in Hin; contradiction);
      try (apply elem_of_nil in Hin'; contradiction); lia. }
  destruct (writeEach_reads [origin - 44; origin - 40; origin - 36] b v1 H1)
    as (b1 & Hw1 & Hs1 & Hr1).
  { repeat constructor; lia. }
  { apply Hdis. exists 44. repeat f_equal; lia. }
  destruct (writeEach_reads [origin - 32; origin - 28; origin - 24] b1 v2 H2)
    as (b2 & Hw2 & Hs2 & Hr2).
  { destruct Hs1 as [-> _]. repeat constructor; lia. }
  { apply Hdis. exists 32. repeat f_equal; lia. }
  destruct (writeEach_reads [origin - 16; origin - 12; origin - 8] b2 v3 H3)
    as (b3 & Hw3 & Hs3 & Hr3).
  { destruct Hs2 as [-> _]. destruct Hs1 as [-> _]. repeat constructor; lia. }
  { apply Hdis. exists 16. repeat f_equal; lia. }
  exists b3. rewrite Hw1. cbn [mbind outcome_bind].
  rewrite Hw2. cbn [mbind outcome_bind]. split; [exact Hw3|].
  assert (Hout : forall (l : list Z) j lo hi,
    Forall (fun o => lo <= o <= hi) l ->
    Exists (fun o => o <= j < o + 2) l -> lo <= j < hi + 2).
  { intros l j lo hi Hall Hex. apply Exists_exists in Hex as (o & Hin & Hj).
    rewrite Forall_forall in Hall. specialize (Hall o Hin). lia. }
  split; [|split; [|split]].
  - eapply same_except_trans; [|exact Hs3|].
    + eapply same_except_trans; [exact Hs1 | exact Hs2 |].
      intros j Hj. exact Hj.
    + intros j [[Hj|Hj]|Hj]; rewrite !Exists_app; auto.
  - rewrite Forall_forall in Hr1 |- *. intros o Hin.
    rewrite <- (Hr1 o Hin).
    assert (origin - 44 <= o <= origin - 36).
    { repeat (apply elem_of_cons in Hin as [->|Hin]);
        try (apply elem_of_nil in Hin; contradiction); lia. }
    rewrite (readUInt16LE_kept _ b2 b3 o Hs3),
            (readUInt16LE_kept _ b1 b2 o Hs2); [reflexivity|..];
      intros Hex;
      eapply (Hout _ _ (origin - 32) (origin - 8)) in Hex;
      try lia; repeat constructor; lia.
  - rewrite Forall_forall in Hr2 |- *. intros o Hin.
    rewrite <- (Hr2 o Hin).
    assert (origin - 32 <= o <= origin - 24).
    { repeat (apply elem_of_cons in Hin as [->|Hin]);
        try (apply elem_of_nil in Hin; contradiction); lia. }
    rewrite (readUInt16LE_kept _ b2 b3 o Hs3); [reflexivity|..];
      intros Hex;
      eapply (Hout _ _ (origin - 16) (origin - 8)) in Hex;
      try lia; repeat constructor; lia.
  - exact Hr3.
Qed.

Lemma setCharacterStats_run (b : Buffer) (s : Z) (cs : CharacterStats)
    (newStats : Stats) (options : Options) :
  getCharacterStats b s = Some cs ->
  Forall isByte (statValues newStats) ->
  79 <= foldl Z.add 0 (statValues newStats) ->
  exists m,
    setCharacterStats b s newStats options = Ok (recalculateChecksums m) /\
    same_except (statsField cs options) b m /\
    (forall k v, statValues newStats !! k = Some v ->
       Buf.at_index m (statsOffset cs + 4 * Z.of_nat k) = Some v) /\
    Buf.readUInt16LE m (statsOffset cs + 44)
      = Ok (foldl Z.add 0 (statValues newStats) - 79) /\
    Buf.readUInt16LE m (26221872 + s * 588)
      = Ok (foldl Z.add 0 (statValues newStats) - 79) /\
    (godMode options = true ->
       Forall (fun o => Buf.readUInt16LE m o = Ok 60000)
              (hpOffsets cs ++ fpOffsets cs ++ staminaOffsets cs)) /\
    (godMode options = false -> customAttributes options = true ->
       Forall (fun o => Buf.readUInt16LE m o
                        = Ok (tableValue (calculateHP (vigor newStats))))
              (hpOffsets cs) /\
       Forall (fun o => Buf.readUInt16LE m o
                        = Ok (tableValue (calculateFP (mind newStats))))
              (fpOffsets cs) /\
       Forall (fun o => Buf.readUInt16LE m o
                        = Ok (tableValue (calculateStamina (endurance newStats))))
              (staminaOffsets cs)).
Proof.
  intros Hget Hbytes HS.
  destruct (getCharacterStats_inv b s cs Hget)
    as (i & attrs & Hs & Hlen & Hlvl & Hfind & Hi44 & Hend & Hi & Hso & _ &
        Hhp & Hfp & Hst).
  destruct (getCharacterStats_fields b s cs Hget)
    as (? & ? & ? & ? & ? & ? & ? & ? & ? & ? & ? & _ & Hcs & _).
  assert (Hsi : slotIndex cs = s) by (rewrite Hcs; reflexivity).
  clear Hcs.
  pose proof (statValues_sum newStats Hbytes) as Hsum.
  unfold setCharacterStats. rewrite Hget. cbv zeta.
  unfold statsField. rewrite Hsi, Hhp, Hfp, Hst.
  set (S := foldl Z.add 0 (statValues newStats)) in *.
  set (origin := statsOffset cs) in *.
  assert (Horigin : 0x310 + 44 <= origin /\ origin + 50 < Buf.blength b /\
                    origin + 50 < slotDataStart s + 2621440).
  { unfold slotDataStart in *. lia. }
  assert (Hfar : origin + 50 < 0x019003A0).
  { unfold slotDataStart in *. lia. }
  destruct (writeStats_exact (statValues newStats) b origin
              (0x310 + s * 2621456) 0 Hbytes)
    as (b1 & Hw1 & Hl1 & Hwritten & Hframe1);
    [lia | lia | cbn [statValues length]; lia |].
  rewrite Hw1. cbn [mbind outcome_bind].
  destruct (writeUInt16LE_Ok b1 (S - 79) (origin + 44))
    as (b2 & Hw2 & [Hl2 Hframe2] & Hr2); [lia | lia | lia |].
  rewrite Hw2. cbn [mbind outcome_bind].
  destruct (writeUInt16LE_Ok b2 (S - 79) (26221872 + s * 588))
    as (b3 & Hw3 & [Hl3 Hframe3] & Hr3); [lia | lia | lia |].
  rewrite Hw3. cbn [mbind outcome_bind].
  set (R := [origin - 44; origin - 40; origin - 36]
            ++ [origin - 32; origin - 28; origin - 24]
            ++ [origin - 16; origin - 12; origin - 8]).
  assert (HR : forall j, Exists (fun o => o <= j < o + 2) R ->
                         origin - 44 <= j < origin - 6).
  { intros j Hex. apply Exists_exists in Hex as (o & Hin & Hj).
    unfold R in Hin. cbn [app] in Hin.
    repeat (apply elem_of_cons in Hin as [->|Hin]);
      try (apply elem_of_nil in Hin; contradiction); lia. }
  assert (Hres : exists b4,
    (if godMode options
     then b5 ← writeEach b3 60000 [origin - 44; origin - 40; origin - 36];
          b6 ← writeEach b5 60000 [origin - 32; origin - 28; origin - 24];
          writeEach b6 60000 [origin - 16; origin - 12; origin - 8]
     else if customAttributes options
     then b5 ← writeEach b3 (tableValue (calculateHP (vigor newStats)))
                 [origin - 44; origin - 40; origin - 36];
          b6 ← writeEach b5 (tableValue (calculateFP (mind newStats)))
                 [origin - 32; origin - 28; origin - 24];
          writeEach b6 (tableValue (calculateStamina (endurance newStats)))
                 [origin - 16; origin - 12; origin - 8]
     else Ok b3) = Ok b4 /\
    same_except
      (fun j => (godMode options = true \/ customAttributes options = true)
                /\ Exists (fun o => o <= j < o + 2) R) b3 b4 /\
    (godMode options = true ->
       Forall (fun o => Buf.readUInt16LE b4 o = Ok 60000) R) /\
    (godMode options = false -> customAttributes options = true ->
       Forall (fun o => Buf.readUInt16LE b4 o
                        = Ok (tableValue (calculateHP (vigor newStats))))
              [origin - 44; origin - 40; origin - 36] /\
       Forall (fun o => Buf.readUInt16LE b4 o
                        = Ok (tableValue (calculateFP (mind newStats))))
              [origin - 32; origin - 28; origin - 24] /\
       Forall (fun o => Buf.readUInt16LE b4 o
                        = Ok (tableValue (calculateStamina (endurance newStats))))
              [origin - 16; origin - 12; origin - 8])).
  { destruct (godMode options); [|destruct (customAttributes options)].
    - destruct (resource_writes_reads b3 origin 60000 60000 60000)
        as (b4 & Hw & [Hl Hf] & G1 & G2 & G3); try lia.
      exists b4. split; [exact Hw|]. split.
      + split; [exact Hl|]. intros j Hj. apply Hf. intros Hex.
        apply Hj. split; [auto | exact Hex].
      + split; [|discriminate]. intros _. unfold R.
        rewrite !Forall_app. auto.
    - destruct (calculate_values (vigor newStats)) as (Hv1 & _ & _).
      destruct (calculate_values (mind newStats)) as (_ & Hv2 & _).
      destruct (calculate_values (endurance newStats)) as (_ & _ & Hv3).
      destruct (resource_writes_reads b3 origin _ _ _ Hv1 Hv2 Hv3)
        as (b4 & Hw & [Hl Hf] & G1 & G2 & G3); try lia.
      exists b4. split; [exact Hw|]. split.
      + split; [exact Hl|]. intros j Hj. apply Hf. intros Hex.
        apply Hj. split; [auto | exact Hex].
      + split; [discriminate|]. auto.
    - exists b3. split; [reflexivity|]. split; [apply same_except_refl|].
      split; discriminate. }
  destruct Hres as (b4 & Hw4 & [Hl4 Hframe4] & Hgod & Hcustom).
  rewrite Hw4. cbn [mbind outcome_bind].
  exists b4. split; [reflexivity|].
  assert (Hkeep : forall j,
    origin <= j < origin + 46 \/
    26221872 + s * 588 <= j < 26221872 + s * 588 + 2 ->
    Buf.at_index b4 j = Buf.at_index b3 j).
  { intros j Hj. apply Hframe4. intros [_ Hex]. apply HR in Hex.
    unfold slotDataStart in *. lia. }
  split; [|split; [|split; [|split; [|split]]]].
  - split; [congruence|].
    intros j Hj.
    rewrite Hframe4.
    2:{ intros [Ho Hex]. apply Hj. right. right. right. auto. }
    rewrite Hframe3.
    2:{ intros Hin. apply Hj. right. right. left. lia. }
    rewrite Hframe2.
    2:{ intros Hin. apply Hj. right. left. lia. }
    apply Hframe1. intros k Hk Hjk. apply Hj. left.
    exists (Z.of_nat k). cbn [statValues length] in Hk. split; lia.
  - intros k v Hk.
    assert (Hk8 : (k < 8)%nat).
    { apply lookup_lt_Some in Hk. exact Hk. }
    rewrite Hkeep by lia.
    rewrite Hframe3 by lia. rewrite Hframe2 by lia.
    replace (origin + 4 * Z.of_nat k) with (origin + 4 * (0 + Z.of_nat k))
      by lia.
    apply (Hwritten k v Hk).
  - rewrite (readUInt16LE_same b3 b4) by (apply Hkeep; lia).
    rewrite (readUInt16LE_same b2 b3) by (apply Hframe3; lia).
    exact Hr2.
  - rewrite (readUInt16LE_same b3 b4) by (apply Hkeep; lia).
    exact Hr3.
  - exact Hgod.
  - exact Hcustom.
Qed.

Lemma calculate_is_Some (v : Z) :
  is_Some (calculateHP v) /\ is_Some (calculateFP v) /\
  is_Some (calculateStamina v).
Proof.
  destruct (decide (1 <= v <= 99)) as [Hv|Hv].
  - pose (P := fun v : Z =>
      bool_decide (is_Some (calculateHP v) /\ is_Some (calculateFP v) /\
                   is_Some (calculateStamina v))).
    assert (HP : P v = true).
    { apply (forallb_range P 100); [vm_compute; reflexivity | lia]. }
    apply bool_decide_eq_true in HP. exact HP.
  - unfold calculateHP, calculateFP, calculateStamina.
    destruct (Z.min_spec v 99) as [[Hlt ->] | [Hge ->]].
    + destruct (tables_outside v ltac:(lia)) as (-> & -> & ->).
      vm_compute. repeat split; eauto.
    + vm_compute. repeat split; eauto.
Qed.

Lemma setCharacterStats_rejects (b : Buffer) (s : Z) (cs : CharacterStats)
    (newStats : Stats) (options : Options) :
  getCharacterStats b s = Some cs ->
  Exists (fun v => ~ isByte v) (statValues newStats) ->
  setCharacterStats b s newStats options = Throw ValueOutOfRange.
Proof.
  intros Hget Hex.
  destruct (getCharacterStats_inv b s cs Hget)
    as (i & attrs & Hs & Hlen & Hlvl & Hfind & Hi44 & Hend & Hi & Hso & _).
  unfold setCharacterStats. rewrite Hget. cbv zeta.
  rewrite (writeStats_rejects (statValues newStats) b (statsOffset cs)
             (0x310 + s * 2621456) 0 Hex);
    [reflexivity | lia | unfold slotDataStart in *; lia
     | cbn [statValues length]; unfold slotDataStart in *; lia].
Qed.

Lemma setCharacterStats_Ok_inv (b : Buffer) (s : Z) (cs : CharacterStats)
    (newStats : Stats) (options : Options) (out : Buffer) :
  getCharacterStats b s = Some cs ->
  setCharacterStats b s newStats options = Ok out ->
  Forall isByte (statValues newStats) /\
  79 <= foldl Z.add 0 (statValues newStats).
Proof.
  intros Hget Hset.
  destruct (decide (Forall isByte (statValues newStats))) as [Hb|Hb].
  - split; [exact Hb|].
    destruct (Z.le_gt_cases 79 (foldl Z.add 0 (statValues newStats)))
      as [H|H]; [exact H|].
    rewrite (setCharacterStats_below_79 b s cs newStats options Hget Hb)
      in Hset by lia.
    discriminate.
  - apply not_Forall_Exists in Hb; [|apply _].
    rewrite (setCharacterStats_rejects b s cs newStats options Hget) in Hset
      by exact Hb.
    discriminate.
Qed.

(** Bytes of a slot window and of the summary area are not checksum
    fields. *)
Lemma not_checksumField (j : Z) :
  (exists s, 0 <= s <= 9 /\
             slotDataStart s <= j < slotDataStart s + 2621440) \/
  0x019003B0 <= j ->
  ~ checksumField j.
Proof.
  intros H [(k & Hk & Hin) | Hg]; unfold slotChecksumStart, slotDataStart in *.
  - destruct H as [(s & Hs & Hj) | Hj]; lia.
  - destruct H as [(s & Hs & Hj) | Hj]; lia.
Qed.

Lemma blength_slice_eq (b b' : Buffer) (s e : Z) :
  Buf.blength b = Buf.blength b' ->
  Buf.blength (Buf.slice b s e) = Buf.blength (Buf.slice b' s e).
Proof.
  intros H. unfold Buf.slice. cbv zeta. rewrite H.
  unfold Buf.blength in *. rewrite !length_take, !length_drop.
  assert (length b = length b') by lia. congruence.
Qed.

(** X21. setCharacterStats returns a buffer exactly when the stats are
    located, the eight attributes are bytes and their sum is at least 79;
    the buffer has the length of the input. It fails with StatsNotFound
    when no stats are located, and with ValueOutOfRange when they are
    located and an attribute is not a byte or the sum is below 79; it never
    hangs. *)
Theorem setCharacterStats_outcomes (b : Buffer) (s : Z) (newStats : Stats)
    (options : Options) :
  match setCharacterStats b s newStats options with
  | Ok out =>
      is_Some (getCharacterStats b s) /\
      Forall isByte (statValues newStats) /\
      79 <= foldl Z.add 0 (statValues newStats) /\
      Buf.blength out = Buf.blength b
  | Throw e =>
      (e = StatsNotFound /\ getCharacterStats b s = None) \/
      (e = ValueOutOfRange /\ is_Some (getCharacterStats b s) /\
       (Exists (fun v => ~ isByte v) (statValues newStats) \/
        foldl Z.add 0 (statValues newStats) < 79))
  | Diverge => False
  end.
Proof.
  destruct (getCharacterStats b s) as [cs|] eqn:Hget.
  - destruct (decide (Forall isByte (statValues newStats))) as [Hb|Hb].
    + destruct (Z.le_gt_cases 79 (foldl Z.add 0 (statValues newStats)))
        as [HS|HS].
      * destruct (setCharacterStats_run b s cs newStats options Hget Hb HS)
          as (m & -> & [Hl _] & _).
        split; [eauto|]. split; [exact Hb|]. split; [exact HS|].
        destruct (recalculateChecksums_spec m) as (-> & _). exact Hl.
      * rewrite (setCharacterStats_below_79 b s cs newStats options Hget Hb)
          by lia.
        right. split; [reflexivity|]. split; [eauto|]. right. lia.
    + apply not_Forall_Exists in Hb; [|apply _].
      rewrite (setCharacterStats_rejects b s cs newStats options Hget Hb).
      right. split; [reflexivity|]. split; [eauto|]. left. exact Hb.
  - unfold setCharacterStats. rewrite Hget. left. auto.
Qed.

(** X22. A successful setCharacterStats changes the buffer only at the
    eight attribute bytes, the two level fields, the nine resource fields
    (these only with god mode or custom attributes) and the checksum
    fields; the length is kept. *)
Theorem setCharacterStats_frame (b : Buffer) (s : Z) (cs : CharacterStats)
    (newStats : Stats) (options : Options) (out : Buffer) :
  getCharacterStats b s = Some cs ->
  setCharacterStats b s newStats options = Ok out ->
  same_except (fun j => statsField cs options j \/ checksumField j) b out.
Proof.
  intros Hget Hset.
  destruct (setCharacterStats_Ok_inv b s cs newStats options out Hget Hset)
    as [Hb HS].
  destruct (setCharacterStats_run b s cs newStats options Hget Hb HS)
    as (m & Hrun & Hm & _).
  rewrite Hrun in Hset. apply Ok_inj in Hset. subst out.
  destruct (recalculateChecksums_spec m) as (Hl & Hframe & _).
  remember (recalculateChecksums m) as out eqn:Hout. clear Hout.
  destruct Hm as [Hlm Hm]. split; [congruence|].
  intros j Hj. rewrite Hframe.
  - apply Hm. intros Hin. apply Hj. left. exact Hin.
  - intros k Hk Hin. apply Hj. right. left. exists k. auto.
  - intros Hin. apply Hj. right. right. lia.
Qed.

Lemma recalculateChecksums_kept (m : Buffer) (j : Z) :
  (exists s, 0 <= s <= 9 /\
             slotDataStart s <= j < slotDataStart s + 2621440) \/
  0x019003B0 <= j ->
  Buf.at_index (recalculateChecksums m) j = Buf.at_index m j.
Proof.
  intros H. destruct (recalculateChecksums_spec m) as (_ & Hframe & _).
  pose proof (not_checksumField j H) as Hn.
  apply Hframe.
  - intros k Hk Hin. apply Hn. left. exists k. auto.
  - intros Hin. apply Hn. right. lia.
Qed.

Lemma readUInt16LE_recalculateChecksums (m : Buffer) (o : Z) :
  (exists s, 0 <= s <= 9 /\
             slotDataStart s <= o /\ o + 1 < slotDataStart s + 2621440) \/
  0x019003B0 <= o ->
  Buf.readUInt16LE (recalculateChecksums m) o = Buf.readUInt16LE m o.
Proof.
  intros H. apply readUInt16LE_same; apply recalculateChecksums_kept;
    (destruct H as [(s & Hs & H1 & H2) | H];
     [left; exists s; split; [exact Hs | lia] | right; lia]).
Qed.

(** X23. After a successful setCharacterStats: with god mode the nine
    HP, FP and stamina fields read 60000, whatever the custom-attributes
    option says; without god mode and with custom attributes the HP fields
    read calculateHP(vigor), the FP fields calculateFP(mind) and the
    stamina fields calculateStamina(endurance); with neither option the
    nine fields read what they read before. *)
Theorem setCharacterStats_resources (b : Buffer) (s : Z) (cs : CharacterStats)
    (newStats : Stats) (options : Options) (out : Buffer) :
  getCharacterStats b s = Some cs ->
  setCharacterStats b s newStats options = Ok out ->
  (godMode options = true ->
     Forall (fun o => Buf.readUInt16LE out o = Ok 60000)
            (hpOffsets cs ++ fpOffsets cs ++ staminaOffsets cs)) /\
  (godMode options = false -> customAttributes options = true ->
     exists hpValue fpValue staminaValue,
       calculateHP (vigor newStats) = Some hpValue /\
       calculateFP (mind newStats) = Some fpValue /\
       calculateStamina (endurance newStats) = Some staminaValue /\
       Forall (fun o => Buf.readUInt16LE out o = Ok hpValue) (hpOffsets cs) /\
       Forall (fun o => Buf.readUInt16LE out o = Ok fpValue) (fpOffsets cs) /\
       Forall (fun o => Buf.readUInt16LE out o = Ok staminaValue)
              (staminaOffsets cs)) /\
  (godMode options = false -> customAttributes options = false ->
     Forall (fun o => Buf.readUInt16LE out o = Buf.readUInt16LE b o)
            (hpOffsets cs ++ fpOffsets cs ++ staminaOffsets cs)).
Proof.
  intros Hget Hset.
  destruct (setCharacterStats_Ok_inv b s cs newStats options out Hget Hset)
    as [Hb HS].
  destruct (setCharacterStats_run b s cs newStats options Hget Hb HS)
    as (m & Hrun & Hm & _ & _ & _ & Hgod & Hcustom).
  rewrite Hrun in Hset. apply Ok_inj in Hset. subst out.
  destruct (getCharacterStats_inv b s cs Hget)
    as (i & attrs & Hs & Hlen & Hlvl & Hfind & Hi44 & Hend & Hi & Hso & _ &
        Hhp & Hfp & Hst).
  destruct (getCharacterStats_fields b s cs Hget)
    as (? & ? & ? & ? & ? & ? & ? & ? & ? & ? & ? & _ & Hcs & _).
  assert (Hsi : slotIndex cs = s) by (rewrite Hcs; reflexivity).
  clear Hcs.
  assert (Hin : forall o,
    o ∈ hpOffsets cs ++ fpOffsets cs ++ staminaOffsets cs ->
    statsOffset cs - 44 <= o <= statsOffset cs - 8).
  { intros o Ho. rewrite Hhp, Hfp, Hst in Ho. cbn [app] in Ho.
    repeat (apply elem_of_cons in Ho as [->|Ho]);
      try (apply elem_of_nil in Ho; contradiction); lia. }
  assert (Hout : forall o,
    o ∈ hpOffsets cs ++ fpOffsets cs ++ staminaOffsets cs ->
    Buf.readUInt16LE (recalculateChecksums m) o = Buf.readUInt16LE m o).
  { intros o Ho. apply Hin in Ho.
    apply readUInt16LE_recalculateChecksums. left. exists s.
    split; [exact Hs | lia]. }
  remember (recalculateChecksums m) as out eqn:Eout. clear Eout.
  split; [|split].
  - intros Hg. specialize (Hgod Hg).
    rewrite Forall_forall in Hgod |- *. intros o Ho.
    rewrite Hout by exact Ho. apply Hgod. exact Ho.
  - intros Hg Hc. destruct (Hcustom Hg Hc) as (C1 & C2 & C3).
    destruct (calculate_is_Some (vigor newStats)) as ([hpv E1] & _ & _).
    destruct (calculate_is_Some (mind newStats)) as (_ & [fpv E2] & _).
    destruct (calculate_is_Some (endurance newStats)) as (_ & _ & [stv E3]).
    rewrite E1, E2, E3 in *. cbn [tableValue default] in *.
    exists hpv, fpv, stv.
    split; [reflexivity|]. split; [reflexivity|]. split; [reflexivity|].
    rewrite Forall_forall in C1, C2, C3.
    split; [|split]; apply Forall_forall; intros o Ho;
      (rewrite Hout by (rewrite !elem_of_app; auto)); auto.
  - intros Hg Hc. apply Forall_forall. intros o Ho.
    rewrite Hout by exact Ho. apply Hin in Ho.
    apply (readUInt16LE_kept _ b m o Hm);
      unfold statsField; rewrite Hsi, Hg, Hc;
      intros [(k & Hk & Hj) | [Hj | [Hj | [[Hj|Hj] _]]]];
      try discriminate; unfold slotDataStart in *; lia.
Qed.

(** X24. After a successful setCharacterStats every checksum of the
    buffer is valid, and the slot window carries the stats block pattern
    for the new level S - 79 at the old stats offset, with the new
    attributes. So a getCharacterStats of the result that reports stats
    reports the new level and an offset not above the old one, and the new
    attributes when it reports the old offset. *)
Theorem setCharacterStats_then_get (b : Buffer) (s : Z) (cs : CharacterStats)
    (newStats : Stats) (options : Options) (out : Buffer) :
  getCharacterStats b s = Some cs ->
  setCharacterStats b s newStats options = Ok out ->
  let newLevel := foldl Z.add 0 (statValues newStats) - 79 in
  checksums_valid out /\
  statsBlockAt (slotWindow out s) newLevel (statsOffset cs - slotDataStart s)
               (statValues newStats) /\
  forall cs', getCharacterStats out s = Some cs' ->
    level cs' = newLevel /\
    statsOffset cs' <= statsOffset cs /\
    (statsOffset cs' = statsOffset cs -> stats cs' = newStats).
Proof.
  intros Hget Hset. cbv zeta.
  destruct (setCharacterStats_Ok_inv b s cs newStats options out Hget Hset)
    as [Hb HS].
  destruct (setCharacterStats_run b s cs newStats options Hget Hb HS)
    as (m & Hrun & [Hlm _] & Hattr & Hlvl' & Hhdr & _).
  rewrite Hrun in Hset. apply Ok_inj in Hset. subst out.
  destruct (getCharacterStats_inv b s cs Hget)
    as (i & attrs & Hs & Hlen & Hlvl & Hfind & Hi44 & Hend & Hi & Hso & _).
  destruct (findStats_bound _ _ _ _ Hfind) as [Hib _].
  assert (Hvalid : checksums_valid (recalculateChecksums m)).
  { apply recalculateChecksums_valid. lia. }
  pose proof (slotWindow_recalculateChecksums m s ltac:(lia)) as Hwin.
  assert (Hhdr' : Buf.readUInt16LE (recalculateChecksums m)
                    (26221872 + s * 588)
                  = Ok (foldl Z.add 0 (statValues newStats) - 79)).
  { rewrite readUInt16LE_recalculateChecksums by (right; lia). exact Hhdr. }
  destruct (recalculateChecksums_spec m) as (Hlout & _).
  remember (recalculateChecksums m) as out eqn:Eout. clear Eout.
  assert (Hwl : Buf.blength (slotWindow out s)
                = Buf.blength (slotWindow b s)).
  { apply blength_slice_eq. congruence. }
  set (S := foldl Z.add 0 (statValues newStats)) in *.
  assert (Hblock : statsBlockAt (slotWindow out s) (S - 79)
                     (statsOffset cs - slotDataStart s) (statValues newStats)).
  { rewrite Hwin. rewrite Hso.
    replace (slotDataStart s + i - slotDataStart s) with i by lia.
    assert (Hst : 0 <= slotDataStart s) by (unfold slotDataStart; lia).
    apply readUInt16LE_Ok in Hlvl' as (lo & hi & Hlo & Hhi & Hv);
      [|unfold slotDataStart in *; lia].
    rewrite <- !at_index_nonneg in Hlo, Hhi
      by (unfold slotDataStart in *; lia).
    assert (L : forall d v, 0 <= d < 50 ->
      Buf.at_index m (statsOffset cs + d) = Some v ->
      slotWindow m s !! Z.to_nat (i + d) = Some v).
    { intros d v Hd H. apply lookup_slice; [lia | lia | lia | lia |].
      rewrite <- H. f_equal. lia. }
    destruct newStats as [a0 a1 a2 a3 a4 a5 a6 a7].
    unfold statValues in *.
    cbn [vigor mind endurance strength dexterity intelligence faith arcane]
      in *.
    exists a0, a1, a2, a3, a4, a5, a6, a7, lo, hi.
    split; [reflexivity|].
    pose proof (Hattr 0%nat a0 eq_refl) as A0.
    pose proof (Hattr 1%nat a1 eq_refl) as A1.
    pose proof (Hattr 2%nat a2 eq_refl) as A2.
    pose proof (Hattr 3%nat a3 eq_refl) as A3.
    pose proof (Hattr 4%nat a4 eq_refl) as A4.
    pose proof (Hattr 5%nat a5 eq_refl) as A5.
    pose proof (Hattr 6%nat a6 eq_refl) as A6.
    pose proof (Hattr 7%nat a7 eq_refl) as A7.
    replace i with (i + 0) at 1 by lia.
    replace (statsOffset cs + 44 + 1) with (statsOffset cs + 45) in Hhi by lia.
    repeat (split; [apply L; [lia | assumption]|]).
    split; [|lia]. subst S. cbn [foldl]. lia. }
  split; [exact Hvalid|]. split; [exact Hblock|].
  intros cs' Hget'.
  destruct (getCharacterStats_inv out s cs' Hget')
    as (i' & attrs' & _ & _ & Hlvl2 & Hfind' & _ & _ & _ & Hso' & Hstats' & _).
  assert (Hl' : level cs' = S - 79) by congruence.
  split; [exact Hl'|].
  rewrite Hl' in Hfind'.
  destruct (findStats_at_most (slotWindow out s) (S - 79)
              (statsOffset cs - slotDataStart s) (statValues newStats))
    as (r & a & Hf & Hr & Heq); [rewrite Hwl; lia | exact Hblock |].
  rewrite Hf in Hfind'. apply (inj Some) in Hfind'.
  assert (r = i') by congruence. assert (a = attrs') by congruence.
  subst r a. split; [lia|].
  intros Hsame. rewrite Hstats', Heq by lia.
  apply statsOfList_statValues.
Qed.

(** X19. For a slot index outside 0..9, or a buffer that ends before
    the header level field of the slot, getCharacterStats reports nothing
    and setCharacterStats fails with StatsNotFound. *)
Theorem getCharacterStats_absent (b : Buffer) (s : Z) :
  s < 0 \/ 9 < s \/ Buf.blength b < 26221872 + s * 588 + 2 ->
  getCharacterStats b s = None /\
  forall newStats options,
    setCharacterStats b s newStats options = Throw StatsNotFound.
Proof.
  intros H.
  assert (Hnone : getCharacterStats b s = None).
  { destruct (getCharacterStats b s) as [cs|] eqn:Hget; [|reflexivity].
    destruct (getCharacterStats_inv b s cs Hget) as (i & attrs & Hs & Hl & _).
    lia. }
  split; [exact Hnone|].
  intros newStats options. unfold setCharacterStats. rewrite Hnone.
  reflexivity.
Qed.

Lemma getCharacterStats_absent_witness :
  getCharacterStats sample_file 10 = None.
Proof.
  apply (getCharacterStats_absent sample_file 10). lia.
Defined.

(** ** Copying a slot: outcomes and the installed content (copySave) *)

Lemma copy_outcome (source target : Buffer) (start : Z) :
  (start < 0 /\ Buf.copy source target start = Throw OutOfBounds) \/
  (0 <= start /\
   Buf.copy source target start = Ok (Buf.copy_at source target start)).
Proof.
  unfold Buf.copy. destruct (Z.ltb_spec start 0); [left | right]; auto.
Qed.

(** X14. copySave fails with TargetSlotNotFound exactly when no slot of
    the target has the index, with OutOfBounds exactly when the slot is
    there and the data offset of its entry or the summary offset of the
    index is negative, and otherwise returns a buffer of the target's
    length; it never hangs. *)
Theorem copySave_outcomes (source : Save) (target : SaveFile) (idx : Z) :
  match copySave source target idx with
  | Ok out =>
      Buf.blength out = Buf.blength (buffer target) /\
      exists n targetSave,
        list_find (fun save => index save = Int idx) (saves target)
          = Some (n, targetSave) /\
        0 <= dataOffset (header (gameFile targetSave)) /\
        0 <= HEADER_DATA_OFFSET + idx * HEADER_DATA_LENGTH
  | Throw e =>
      (e = TargetSlotNotFound /\
       Forall (fun save => index save <> Int idx) (saves target)) \/
      (e = OutOfBounds /\
       exists n targetSave,
         list_find (fun save => index save = Int idx) (saves target)
           = Some (n, targetSave) /\
         (dataOffset (header (gameFile targetSave)) < 0 \/
          HEADER_DATA_OFFSET + idx * HEADER_DATA_LENGTH < 0))
  | Diverge => False
  end.
Proof.
  unfold copySave. cbv zeta.
  destruct (list_find _ (saves target)) as [[n targetSave]|] eqn:Hfind.
  - unfold CHECKSUM_LENGTH, SAVE_HEADERS_SECTION_OFFSET.
    set (off := dataOffset (header (gameFile targetSave))).
    destruct (copy_outcome (saveDataChecksum source) (buffer target) off)
      as [[Hn ->] | [Hp ->]]; cbn [mbind outcome_bind].
    { right. split; [reflexivity|]. exists n, targetSave. auto. }
    rewrite copy_Ok by lia. cbn [mbind outcome_bind].
    match goal with
    | |- context [Buf.copy (headerData source) ?t ?o] =>
        destruct (copy_outcome (headerData source) t o) as [[Hn ->] | [Hh ->]]
    end; cbn [mbind outcome_bind].
    { right. split; [reflexivity|]. exists n, targetSave. auto. }
    rewrite copy_Ok by lia. cbn [mbind outcome_bind].
    rewrite copy_Ok by lia.
    split.
    + rewrite ?blength_copy_at, ?blength_set_index, ?blength_copy_at.
      reflexivity.
    + exists n, targetSave. auto.
  - left. split; [reflexivity|]. apply list_find_None in Hfind. exact Hfind.
Qed.

(** The buffer copySave returns: [pre] with the digest of its general data
    written in front of that region, where [pre] is the target with the
    source's checksum, save data and summary record copied in, the active
    flag set and the digest of the source's save data over the slot
    checksum. *)
Lemma copySave_result (source : Save) (target : SaveFile) (idx : Z)
    (targetSave : Save) :
  valid_target target idx targetSave -> valid_source source ->
  exists pre,
    copySave source target idx
      = Ok (Buf.copy_at (md5 (generalData pre)) pre 0x019003A0) /\
    Buf.blength pre = Buf.blength (buffer target) /\
    forall j,
      Buf.at_index pre j
      = if decide (slotChecksumStart idx <= j < slotChecksumStart idx + 16)
        then Buf.at_index (md5 (saveData source)) (j - slotChecksumStart idx)
        else if decide (j = ACTIVE_SAVE_SLOT_OFFSET + idx) then Some 1
        else if decide (HEADER_DATA_OFFSET + idx * 588 <= j
                        < HEADER_DATA_OFFSET + idx * 588 + 588)
        then Buf.at_index (headerData source)
                          (j - (HEADER_DATA_OFFSET + idx * 588))
        else if decide (slotDataStart idx <= j
                        < slotDataStart idx + Buf.blength (saveData source))
        then Buf.at_index (saveData source) (j - slotDataStart idx)
        else Buf.at_index (buffer target) j.
Proof.
  intros (Hlen & Hidx & (n & Hfind) & Hoff) (Hh & Hc & Hd).
  unfold copySave. rewrite Hfind. cbv zeta. rewrite Hoff.
  unfold HEADER_DATA_OFFSET, HEADER_DATA_LENGTH, CHECKSUM_LENGTH,
    SAVE_DATA_LENGTH, ACTIVE_SAVE_SLOT_OFFSET, SAVE_HEADERS_SECTION_OFFSET,
    SAVE_HEADERS_SECTION_LENGTH in *.
  assert (Hd0 : 0 <= slotChecksumStart idx) by (unfold slotChecksumStart; lia).
  rewrite copy_Ok by lia. cbn [mbind outcome_bind].
  rewrite copy_Ok by lia. cbn [mbind outcome_bind].
  rewrite copy_Ok by lia. cbn [mbind outcome_bind].
  rewrite copy_Ok by lia. cbn [mbind outcome_bind].
  rewrite copy_Ok by lia.
  replace (26215344 - 16) with 0x019003A0 by reflexivity.
  replace (26215344 + 393216) with (0x019603AF + 1) by reflexivity.
  eexists. split; [reflexivity|].
  generalize (blength_md5 (saveData source)).
  generalize (md5 (saveData source)).
  intros h1 Hh1.
  split; [rewrite ?blength_copy_at, ?blength_set_index, ?blength_copy_at;
          reflexivity|].
  intros j.
  rewrite !at_index_copy_at by lia.
  rewrite !at_index_set_index.
  rewrite !at_index_copy_at by lia.
  rewrite ?blength_copy_at, ?blength_set_index.
  rewrite ?blength_copy_at, ?blength_set_index.
  rewrite Hh1, Hh.
  unfold slotChecksumStart, slotDataStart in *.
  repeat case_decide; try reflexivity; try lia; f_equal; lia.
Qed.

(** X15. For a supported target and a source slot of full size (a
    588-byte summary record, a checksum of at most 16 bytes and 2621440
    bytes of save data), copySave returns a buffer whose slot window is the
    source's save data, whose slot checksum is the MD5 of that window and
    whose general checksum is the MD5 of the general data. If every
    checksum of the target was valid, every checksum of the result is
    valid, and recalculateChecksums leaves the result unchanged. *)
Theorem copySave_installs (source : Save) (target : SaveFile) (idx : Z)
    (targetSave : Save) :
  valid_target target idx targetSave -> valid_source source ->
  Buf.blength (saveData source) = SAVE_DATA_LENGTH ->
  exists out,
    copySave source target idx = Ok out /\
    slotWindow out idx = saveData source /\
    Buf.slice out (slotChecksumStart idx) (slotChecksumStart idx + 16)
      = md5 (slotWindow out idx) /\
    Buf.slice out 0x019003A0 0x019003B0 = md5 (generalData out) /\
    (checksums_valid (buffer target) ->
     checksums_valid out /\ recalculateChecksums out = out).
Proof.
  intros Ht Hs Hfull.
  destruct (copySave_result source target idx targetSave Ht Hs)
    as (pre & Hcopy & Hlpre & Hpre).
  destruct Ht as (Hlen & Hidx & _ & _). destruct Hs as (Hh & Hc & _).
  unfold SAVE_DATA_LENGTH, HEADER_DATA_OFFSET, ACTIVE_SAVE_SLOT_OFFSET in *.
  rewrite Hfull in Hpre.
  set (g := md5 (generalData pre)) in *.
  assert (Hg : Buf.blength g = 16) by apply blength_md5.
  assert (Hout : forall j,
    Buf.at_index (Buf.copy_at g pre 0x019003A0) j
    = if decide (0x019003A0 <= j < 0x019003B0)
      then Buf.at_index g (j - 0x019003A0) else Buf.at_index pre j).
  { intros j. rewrite at_index_copy_at by lia. rewrite Hg.
    repeat case_decide; try reflexivity; lia. }
  assert (Hlo : Buf.blength (Buf.copy_at g pre 0x019003A0)
                = Buf.blength (buffer target)).
  { rewrite blength_copy_at. exact Hlpre. }
  assert (Hgd : generalData (Buf.copy_at g pre 0x019003A0) = generalData pre).
  { apply slice_ext; [lia | lia |]. intros j Hj. rewrite Hout.
    case_decide; [lia | reflexivity]. }
  remember (Buf.copy_at g pre 0x019003A0) as out eqn:Eout. clear Eout.
  exists out. split; [exact Hcopy|].
  assert (Hwin : slotWindow out idx = saveData source).
  { apply at_index_ext. intros k Hk.
    rewrite at_index_slice by (unfold slotDataStart; lia).
    case_decide as Hd.
    - rewrite Hout, Hpre. unfold slotChecksumStart, slotDataStart in *.
      repeat case_decide; try lia. f_equal. lia.
    - symmetry. apply at_index_beyond. lia. }
  assert (Hsum : Buf.slice out (slotChecksumStart idx)
                   (slotChecksumStart idx + 16) = md5 (slotWindow out idx)).
  { rewrite Hwin.
    apply slice_is_digest;
      [unfold slotChecksumStart; lia | apply blength_md5 |].
    intros j Hj. rewrite Hout, Hpre.
    unfold slotChecksumStart in *.
    repeat case_decide; try lia. reflexivity. }
  assert (Hgen : Buf.slice out 0x019003A0 0x019003B0 = md5 (generalData out)).
  { rewrite Hgd. fold g.
    replace 0x019003B0 with (0x019003A0 + 16) at 1 by reflexivity.
    apply slice_is_digest; [lia | exact Hg |].
    intros j Hj. rewrite Hout. case_decide; [reflexivity | lia]. }
  split; [exact Hwin|]. split; [exact Hsum|]. split; [exact Hgen|].
  intros [Hslots _].
  assert (Hv : checksums_valid out).
  { split; [|exact Hgen].
    intros k Hk. destruct (Z.eq_dec k idx) as [->|Hne]; [exact Hsum|].
    assert (Hother : forall j,
      slotChecksumStart k <= j < slotChecksumStart k + 2621456 ->
      Buf.at_index out j = Buf.at_index (buffer target) j).
    { intros j Hj. rewrite Hout, Hpre.
      unfold slotChecksumStart, slotDataStart in *.
      repeat case_decide; try lia. reflexivity. }
    rewrite (slice_ext out (buffer target) (slotDataStart k));
      [|unfold slotDataStart; lia | unfold slotDataStart; lia
       |intros j Hj; apply Hother;
        unfold slotChecksumStart, slotDataStart in *; lia].
    rewrite <- (Hslots k Hk).
    apply slice_ext;
      [unfold slotChecksumStart; lia | unfold slotChecksumStart; lia |].
    intros j Hj. apply Hother. lia. }
  split; [exact Hv|].
  apply recalculateChecksums_fixed. exact Hv.
Qed.

(** ** Summary records and slots (extractSaveHeaderInfo, processSaves) *)

Lemma readInt32LE_outcome (b : Buffer) (o : Z) :
  0 <= o ->
  (o + 4 <= Buf.blength b -> exists v, Buf.readInt32LE b o = Ok v) /\
  (Buf.blength b < o + 4 -> Buf.readInt32LE b o = Throw OutOfBounds).
Proof.
  intros Ho. unfold Buf.readInt32LE. split.
  - intros Hl.
    destruct (at_index_Some b o ltac:(lia)) as [x0 ->].
    destruct (at_index_Some b (o + 1) ltac:(lia)) as [x1 ->].
    destruct (at_index_Some b (o + 2) ltac:(lia)) as [x2 ->].
    destruct (at_index_Some b (o + 3) ltac:(lia)) as [x3 ->].
    eauto.
  - intros Hl. rewrite (at_index_beyond b (o + 3)) by lia.
    destruct (Buf.at_index b o), (Buf.at_index b (o + 1)),
      (Buf.at_index b (o + 2)); reflexivity.
Qed.

Lemma extractSaveHeaderInfo_unfold (headerData : Buffer) :
  extractSaveHeaderInfo headerData =
  characterLevel ← Buf.readInt32LE headerData 34;
  secondsPlayed ← Buf.readInt32LE headerData 38;
  let characterName :=
    trim (filter (fun c => c ≠ 0)
            (Buf.toString_utf16le (Buf.slice headerData 0 34))) in
  Ok (mkSaveHeaderInfo
        (if bool_decide (characterName = []) then lit "Empty Slot"
         else characterName)
        characterLevel secondsPlayed).
Proof.
  unfold extractSaveHeaderInfo. cbv zeta.
  unfold mbind at 1 2 3 4. unfold reader_bind, BufferReader.bind.
  unfold BufferReader.readBytes, BufferReader.readInt32LE, BufferReader.ret.
  replace (0 + 34) with 34 by reflexivity.
  destruct (Buf.readInt32LE headerData 34) as [lvl| |];
    cbn [mbind outcome_bind mret outcome_ret]; [|reflexivity..].
  replace (34 + 4) with 38 by reflexivity.
  destruct (Buf.readInt32LE headerData 38) as [secs| |];
    cbn [mbind outcome_bind mret outcome_ret]; reflexivity.
Qed.

Lemma extractSaveHeaderInfo_short (h : Buffer) :
  Buf.blength h < 42 -> extractSaveHeaderInfo h = Throw OutOfBounds.
Proof.
  rewrite extractSaveHeaderInfo_unfold.
  destruct (readInt32LE_outcome h 34 ltac:(lia)) as [Hok1 Hno1].
  destruct (readInt32LE_outcome h 38 ltac:(lia)) as [Hok2 Hno2].
  intros Hl. destruct (Z.lt_ge_cases (Buf.blength h) 38) as [H|H].
  - rewrite Hno1 by lia. reflexivity.
  - destruct Hok1 as [lvl ->]; [lia|]. cbn [mbind outcome_bind].
    rewrite Hno2 by lia. reflexivity.
Qed.

Lemma extractSaveHeaderInfo_cases (h : Buffer) :
  (exists info, extractSaveHeaderInfo h = Ok info) \/
  extractSaveHeaderInfo h = Throw OutOfBounds.
Proof.
  rewrite extractSaveHeaderInfo_unfold.
  destruct (readInt32LE_outcome h 34 ltac:(lia)) as [Hok1 Hno1].
  destruct (readInt32LE_outcome h 38 ltac:(lia)) as [Hok2 Hno2].
  destruct (Z.lt_ge_cases (Buf.blength h) 38) as [H|H].
  - right. rewrite Hno1 by lia. reflexivity.
  - destruct Hok1 as [lvl ->]; [lia|]. cbn [mbind outcome_bind].
    destruct (Z.lt_ge_cases (Buf.blength h) 42) as [H'|H'].
    + right. rewrite Hno2 by lia. reflexivity.
    + destruct Hok2 as [secs ->]; [lia|]. left. eexists. reflexivity.
Qed.

Lemma extractSaveHeaderInfo_long (h : Buffer) :
  42 <= Buf.blength h ->
  exists info, extractSaveHeaderInfo h = Ok info /\
    Buf.readInt32LE h 34 = Ok (characterLevel info) /\
    Buf.readInt32LE h 38 = Ok (secondsPlayed info).
Proof.
  rewrite extractSaveHeaderInfo_unfold.
  destruct (readInt32LE_outcome h 34 ltac:(lia)) as [Hok1 _].
  destruct (readInt32LE_outcome h 38 ltac:(lia)) as [Hok2 _].
  intros Hl.
  destruct Hok1 as [lvl ->]; [lia|]. destruct Hok2 as [secs ->]; [lia|].
  cbn [mbind outcome_bind]. eexists. split; [reflexivity|].
  split; reflexivity.
Qed.

(** X12. extractSaveHeaderInfo fails with OutOfBounds on a record
    shorter than 42 bytes and succeeds on every other one, with the level
    the little-endian int32 at offset 34 and the seconds played the int32
    at offset 38. *)
Theorem extractSaveHeaderInfo_outcomes (headerData : Buffer) :
  (Buf.blength headerData < 42 ->
     extractSaveHeaderInfo headerData = Throw OutOfBounds) /\
  (42 <= Buf.blength headerData ->
     exists info, extractSaveHeaderInfo headerData = Ok info /\
       Buf.readInt32LE headerData 34 = Ok (characterLevel info) /\
       Buf.readInt32LE headerData 38 = Ok (secondsPlayed info)).
Proof.
  split; [apply extractSaveHeaderInfo_short | apply extractSaveHeaderInfo_long].
Qed.

Lemma extractSaveHeaderInfo_outcomes_witness :
  extractSaveHeaderInfo (replicate 41 0) = Throw OutOfBounds.
Proof.
  apply (extractSaveHeaderInfo_outcomes (replicate 41 0)).
  vm_compute. reflexivity.
Defined.

Lemma trimStart_split (s : list Z) :
  exists p, s = p ++ trimStart s /\ Forall (fun c => isWhiteSpace c = true) p.
Proof.
  induction s as [|c s (p & Hs & Hp)].
  - exists []. split; [reflexivity | constructor].
  - cbn [trimStart]. destruct (isWhiteSpace c) eqn:Hc.
    + exists (c :: p). split; [cbn; congruence | constructor; assumption].
    + exists []. split; [reflexivity | constructor].
Qed.

Lemma trimStart_head (s : list Z) (c : Z) :
  head (trimStart s) = Some c -> isWhiteSpace c = false.
Proof.
  induction s as [|x s IH]; [discriminate|].
  cbn [trimStart]. destruct (isWhiteSpace x) eqn:Hx; [exact IH|].
  cbn. intros H. congruence.
Qed.

Lemma last_app_nonempty {A} (p s : list A) :
  s <> [] -> last (p ++ s) = last s.
Proof.
  intros Hs. destruct s as [|x s] using rev_ind; [contradiction|].
  rewrite app_assoc, !last_snoc. reflexivity.
Qed.

Lemma trim_spec (s : list Z) :
  trim s ⊆ s /\ (length (trim s) <= length s)%nat /\
  (forall c, head (trim s) = Some c -> isWhiteSpace c = false) /\
  (forall c, last (trim s) = Some c -> isWhiteSpace c = false).
Proof.
  unfold trim.
  destruct (trimStart_split s) as (p & Hs & _).
  set (t := trimStart s) in *.
  destruct (trimStart_split (reverse t)) as (q & Ht & _).
  set (u := trimStart (reverse t)) in *.
  assert (Et : t = reverse u ++ reverse q).
  { rewrite <- reverse_app, <- Ht, reverse_involutive. reflexivity. }
  split; [|split; [|split]].
  - intros x Hx. rewrite Hs, Et. set_solver.
  - pose proof (f_equal length Hs) as L1.
    pose proof (f_equal length Et) as L2.
    rewrite length_app in L1. rewrite length_app, !length_reverse in L2.
    rewrite length_reverse. lia.
  - intros c Hc.
    destruct u as [|y u] using rev_ind; [discriminate|]. clear IHu.
    rewrite reverse_snoc in Hc, Et. cbn in Hc. injection Hc as ->.
    apply (trimStart_head s). fold t. rewrite Et. reflexivity.
  - intros c Hc. rewrite last_reverse in Hc.
    apply (trimStart_head (reverse t)). exact Hc.
Qed.

Lemma toString_utf16le_length (b : Buffer) :
  (2 * length (Buf.toString_utf16le b) <= length b)%nat.
Proof.
  assert (H : forall b : list Z,
    (2 * length (Buf.toString_utf16le b) <= length b)%nat /\
    forall x, (2 * length (Buf.toString_utf16le (x :: b))
               <= length (x :: b))%nat).
  { clear b. induction b as [|y b [IH1 IH2]].
    - split; [cbn; lia | intros x; cbn; lia].
    - split; [apply IH2|]. intros x. cbn [Buf.toString_utf16le length] in *.
      lia. }
  apply H.
Qed.

Lemma blength_slice_bound (b : Buffer) (s e : Z) :
  0 <= s -> 0 <= e -> Buf.blength (Buf.slice b s e) <= Z.max 0 (e - s).
Proof.
  intros Hs He. unfold Buf.slice, Buf.blength. cbv zeta.
  rewrite !adjustOffset_nonneg by lia.
  rewrite length_take.
  destruct (Z.ltb_spec (Z.min s (Z.of_nat (length b)))
                       (Z.min e (Z.of_nat (length b)))); lia.
Qed.

(** X13. The character name extractSaveHeaderInfo returns is never
    empty (an empty name is replaced by Empty Slot), has at most 17 code
    units, contains no NUL and neither starts nor ends with white space. *)
Theorem extractSaveHeaderInfo_name (headerData : Buffer)
    (info : SaveHeaderInfo) :
  extractSaveHeaderInfo headerData = Ok info ->
  characterName info <> [] /\
  (length (characterName info) <= 17)%nat /\
  Forall (fun c => c <> 0) (characterName info) /\
  (forall c, head (characterName info) = Some c -> isWhiteSpace c = false) /\
  (forall c, last (characterName info) = Some c -> isWhiteSpace c = false).
Proof.
  rewrite extractSaveHeaderInfo_unfold.
  destruct (Buf.readInt32LE headerData 34) as [lvl| |];
    cbn [mbind outcome_bind]; [|discriminate..].
  destruct (Buf.readInt32LE headerData 38) as [secs| |];
    cbn [mbind outcome_bind]; [|discriminate..].
  cbv zeta. intros H. apply Ok_inj in H. subst info. cbn [characterName].
  set (raw := filter (fun c => c ≠ 0)
                (Buf.toString_utf16le (Buf.slice headerData 0 34))).
  case_bool_decide as Hempty.
  - vm_compute. repeat split; try discriminate; try lia.
    + repeat constructor; discriminate.
    + intros c [= <-]. reflexivity.
    + intros c [= <-]. reflexivity.
  - destruct (trim_spec raw) as (Hsub & Hlen & Hhead & Hlast).
    split; [exact Hempty|]. split; [|split; [|split]].
    + assert (Hraw : (length raw <= 17)%nat).
      { unfold raw. etransitivity; [apply length_filter|].
        pose proof (toString_utf16le_length (Buf.slice headerData 0 34)).
        pose proof (blength_slice_bound headerData 0 34 ltac:(lia) ltac:(lia)).
        unfold Buf.blength in *. lia. }
      lia.
    + apply Forall_forall. intros c Hc. apply Hsub in Hc.
      unfold raw in Hc. apply list_elem_of_filter in Hc as [Hc _]. exact Hc.
    + exact Hhead.
    + exact Hlast.
Qed.

Lemma extractSaveHeaderInfo_name_witness :
  characterName (mkSaveHeaderInfo (lit "Empty Slot") 0 0) <> [].
Proof.
  apply (extractSaveHeaderInfo_name (replicate 588 0)
           (mkSaveHeaderInfo (lit "Empty Slot") 0 0)).
  vm_compute. reflexivity.
Defined.

Lemma slice_split (d : Buffer) (k : Z) :
  0 <= k -> Buf.slice d 0 k ++ Buf.slice_from d k = d.
Proof.
  intros Hk. unfold Buf.slice_from, Buf.slice. cbv zeta.
  assert (Hl : 0 <= Buf.blength d) by (unfold Buf.blength; lia).
  rewrite !adjustOffset_nonneg by lia.
  replace (Z.min 0 (Buf.blength d)) with 0 by lia.
  rewrite Z.min_id. cbn [Z.to_nat drop].
  set (m := Z.min k (Buf.blength d)).
  replace (if 0 <? m then m - 0 else 0) with m
    by (destruct (Z.ltb_spec 0 m); lia).
  rewrite (take_ge (drop (Z.to_nat m) d)).
  - apply take_drop.
  - rewrite length_drop. unfold Buf.blength in *.
    destruct (Z.ltb_spec m (Z.of_nat (length d))); lia.
Qed.

Lemma blength_slice_0 (d : Buffer) (k : Z) :
  0 <= k -> Buf.blength (Buf.slice d 0 k) = Z.min k (Buf.blength d).
Proof.
  intros Hk. unfold Buf.slice. cbv zeta.
  assert (Hl : 0 <= Buf.blength d) by (unfold Buf.blength; lia).
  rewrite !adjustOffset_nonneg by lia.
  replace (Z.min 0 (Buf.blength d)) with 0 by lia.
  unfold Buf.blength in *. rewrite length_take, length_drop.
  destruct (Z.ltb_spec 0 (Z.min k (Z.of_nat (length d)))); lia.
Qed.

Lemma processSave_contents (b : Buffer) (gf : GameFile) (sv : Save) :
  processSave b gf = Ok (Some sv) ->
  gameFile sv = gf /\
  saveDataChecksum sv ++ saveData sv = data gf /\
  Buf.blength (saveDataChecksum sv)
    = Z.min CHECKSUM_LENGTH (Buf.blength (data gf)) /\
  exists z,
    index sv = Int z /\ z <= 9 /\
    headerData sv
      = Buf.slice b (HEADER_DATA_OFFSET + z * HEADER_DATA_LENGTH)
          (HEADER_DATA_OFFSET + z * HEADER_DATA_LENGTH + HEADER_DATA_LENGTH) /\
    extractSaveHeaderInfo (headerData sv) = Ok (saveHeaderInfo sv) /\
    (active sv = true
     <-> Buf.at_index b (ACTIVE_SAVE_SLOT_OFFSET + z) = Some 1).
Proof.
  unfold processSave.
  destruct (name (header gf)) as [n|]; [|discriminate].
  destruct (bool_decide (n = []) || negb (startsWith n SAVE_IDENTIFIER));
    [discriminate|].
  cbv zeta.
  destruct (parseInt (substring n (length SAVE_IDENTIFIER))) as [|z] eqn:Hp.
  - cbn [num_gt num_lift2 num_offset]. rewrite slice_0_0.
    replace (extractSaveHeaderInfo []) with (@Throw SaveHeaderInfo OutOfBounds)
      by reflexivity.
    discriminate.
  - cbn [num_gt num_lift2 num_offset at_num].
    destruct (Z.ltb_spec 9 z) as [|Hz]; [discriminate|].
    destruct (extractSaveHeaderInfo _) as [info|e|] eqn:Hinfo;
      cbn [mbind outcome_bind]; [|discriminate..].
    intros H. apply Ok_inj in H. apply (inj Some) in H. subst sv.
    cbn [gameFile saveDataChecksum saveData index headerData saveHeaderInfo
         active].
    split; [reflexivity|]. split.
    { apply slice_split. unfold CHECKSUM_LENGTH. lia. }
    split.
    { apply blength_slice_0. unfold CHECKSUM_LENGTH. lia. }
    exists z. split; [reflexivity|]. split; [exact Hz|].
    split; [reflexivity|]. split; [exact Hinfo|].
    apply bool_decide_eq_true.
Qed.

Lemma processSaves_loop_Forall (P : Save -> Prop) (b : Buffer)
    (gfs : list GameFile) (acc r : list Save) :
  (forall gf sv, gf ∈ gfs -> processSave b gf = Ok (Some sv) -> P sv) ->
  Forall P acc ->
  processSaves_loop b gfs acc = Ok r -> Forall P r.
Proof.
  revert acc. induction gfs as [|gf gfs IH]; intros acc HP Hacc H.
  - apply Ok_inj in H. subst r. exact Hacc.
  - cbn [processSaves_loop] in H.
    destruct (processSave b gf) as [[sv|]|e|] eqn:Hp;
      cbn [mbind outcome_bind] in H; [| |discriminate..].
    + apply (IH (acc ++ [sv])); [| |exact H].
      * intros g s Hg. apply HP. apply elem_of_cons. auto.
      * apply Forall_app. split; [exact Hacc|]. constructor; [|constructor].
        apply (HP gf); [apply elem_of_cons; auto | exact Hp].
    + apply (IH acc); [|exact Hacc|exact H].
      intros g s Hg. apply HP. apply elem_of_cons. auto.
Qed.

Lemma processSaves_Forall (P : Save -> Prop) (b : Buffer)
    (entries : list GameFile) (slots : list Save) :
  processSaves b entries = Ok slots ->
  (forall gf sv, gf ∈ entries -> processSave b gf = Ok (Some sv) -> P sv) ->
  Forall P slots.
Proof.
  unfold processSaves. intros H HP.
  destruct (processSaves_loop b entries []) as [found|e|] eqn:Hloop;
    cbn [mbind outcome_bind] in H; [|discriminate..].
  apply Ok_inj in H. subst slots.
  rewrite sort_saves_Permutation.
  apply (processSaves_loop_Forall _ b entries [] found);
    [exact HP | constructor | exact Hloop].
Qed.

(** X8. Every slot processSaves returns comes from one of the entries.
    Its checksum and its save data are the first 16 bytes (fewer for a
    shorter payload) and the rest of the entry's payload, so together they
    are the payload. Its index is an integer not above 9, its summary
    record is the 588 bytes of the buffer at HEADER_DATA_OFFSET + index *
    588 (as far as the buffer has them) and decodes to its saveHeaderInfo,
    and it is active exactly when the byte at ACTIVE_SAVE_SLOT_OFFSET +
    index is 1. *)
Theorem processSaves_slot_contents (b : Buffer) (entries : list GameFile)
    (slots : list Save) :
  processSaves b entries = Ok slots ->
  Forall (fun sv =>
    gameFile sv ∈ entries /\
    saveDataChecksum sv ++ saveData sv = data (gameFile sv) /\
    Buf.blength (saveDataChecksum sv)
      = Z.min CHECKSUM_LENGTH (Buf.blength (data (gameFile sv))) /\
    exists z,
      index sv = Int z /\ z <= 9 /\
      headerData sv
        = Buf.slice b (HEADER_DATA_OFFSET + z * HEADER_DATA_LENGTH)
            (HEADER_DATA_OFFSET + z * HEADER_DATA_LENGTH + HEADER_DATA_LENGTH) /\
      extractSaveHeaderInfo (headerData sv) = Ok (saveHeaderInfo sv) /\
      (active sv = true
       <-> Buf.at_index b (ACTIVE_SAVE_SLOT_OFFSET + z) = Some 1)) slots.
Proof.
  intros H. apply (processSaves_Forall _ b entries slots H).
  intros gf sv Hin Hp.
  destruct (processSave_contents b gf sv Hp) as (Hgf & Hsplit & Hlen & Hz).
  rewrite Hgf. auto.
Qed.

Lemma processSaves_slot_contents_witness :
  Forall (fun sv => saveDataChecksum sv ++ saveData sv = data (gameFile sv))
    [empty_slot 0 (entry_named "USER_DATA000");
     empty_slot 1 (entry_named "USER_DATA001")].
Proof.
  eapply Forall_impl;
    [apply (processSaves_slot_contents zero_file _ _ processSaves_sample)|].
  intros sv (_ & H & _). exact H.
Defined.

Lemma processSave_cases (b : Buffer) (gf : GameFile) :
  (exists r, processSave b gf = Ok r) \/ processSave b gf = Throw OutOfBounds.
Proof.
  unfold processSave.
  destruct (name (header gf)) as [n|]; [|left; eauto].
  destruct (bool_decide (n = []) || negb (startsWith n SAVE_IDENTIFIER));
    [left; eauto|].
  cbv zeta. destruct (num_gt _ 9); [left; eauto|].
  match goal with
  | |- context [extractSaveHeaderInfo ?h] =>
      destruct (extractSaveHeaderInfo_cases h) as [[info ->] | ->]
  end; cbn [mbind outcome_bind]; [left; eauto | right; reflexivity].
Qed.

Lemma processSaves_loop_throws (b : Buffer) (gfs : list GameFile)
    (acc : list Save) (gf : GameFile) :
  gf ∈ gfs -> processSave b gf = Throw OutOfBounds ->
  processSaves_loop b gfs acc = Throw OutOfBounds.
Proof.
  revert acc. induction gfs as [|a gfs IH]; intros acc Hin Hgf.
  - apply elem_of_nil in Hin. contradiction.
  - cbn [processSaves_loop].
    destruct (processSave_cases b a) as [[r Hr] | Hr]; rewrite Hr;
      cbn [mbind outcome_bind]; [|reflexivity].
    apply elem_of_cons in Hin as [->|Hin]; [congruence|].
    destruct r; apply IH; assumption.
Qed.

(** X10. processSaves fails with OutOfBounds as soon as one retained
    entry has no readable summary record: its name has no number after the
    prefix, or the buffer ends before byte 42 of the record at
    HEADER_DATA_OFFSET + index * 588 (index not negative). *)
Theorem processSaves_truncated (b : Buffer) (entries : list GameFile)
    (gf : GameFile) :
  gf ∈ entries -> retained gf ->
  (entryIndex gf = NaN \/
   exists z, entryIndex gf = Int z /\ 0 <= z /\
     Buf.blength b < HEADER_DATA_OFFSET + z * HEADER_DATA_LENGTH + 42) ->
  processSaves b entries = Throw OutOfBounds.
Proof.
  intros Hin Hret Hidx.
  assert (Hgf : processSave b gf = Throw OutOfBounds).
  { destruct Hidx as [Hnan | (z & Hz & Hz0 & Hshort)].
    - apply processSave_no_index; assumption.
    - revert Hret Hz. unfold retained, skipped, entryIndex, processSave.
      destruct (name (header gf)) as [n|]; [|discriminate].
      destruct (bool_decide (n = []) || negb (startsWith n SAVE_IDENTIFIER));
        [discriminate|].
      cbn [orb]. cbv zeta. intros Hgt Hp. rewrite Hp in *. rewrite Hgt.
      cbn [num_lift2 num_offset].
      rewrite extractSaveHeaderInfo_short; [reflexivity|].
      unfold HEADER_DATA_OFFSET, HEADER_DATA_LENGTH in *.
      match goal with
      | |- Buf.blength (Buf.slice b ?s ?e) < _ =>
          pose proof (blength_slice_le b s e ltac:(lia))
      end.
      lia. }
  unfold processSaves.
  rewrite (processSaves_loop_throws b entries [] gf Hin Hgf). reflexivity.
Qed.

Lemma processSaves_truncated_witness :
  processSaves (lit "BND4") [entry_named "USER_DATA000"] = Throw OutOfBounds.
Proof.
  apply (processSaves_truncated (lit "BND4") [entry_named "USER_DATA000"]
           (entry_named "USER_DATA000")).
  - apply elem_of_cons. left. reflexivity.
  - vm_compute. reflexivity.
  - right. exists 0. vm_compute. repeat split; discriminate.
Defined.

Ltac digit_cases d H :=
  let E := fresh in
  assert (E : d = 0 \/ d = 1 \/ d = 2 \/ d = 3 \/ d = 4 \/ d = 5 \/ d = 6
              \/ d = 7 \/ d = 8 \/ d = 9) by lia;
  clear H;
  destruct E as [->|[->|[->|[->|[->|[->|[->|[->|[->| ->]]]]]]]]].

Lemma parseDigits_decimal (ds : list Z) (acc : Z) :
  Forall (fun d => 0 <= d <= 9) ds ->
  parseDigits 10 (Some acc) (digitChars ds)
  = Some (foldl (fun a d => a * 10 + d) acc ds).
Proof.
  intros H. revert acc. induction H as [|d ds Hd _ IH]; intros acc.
  - reflexivity.
  - cbn [digitChars fmap list_fmap parseDigits foldl].
    replace (digitValue 10 (48 + d)) with (Some d)
      by (digit_cases d Hd; reflexivity).
    cbn [default]. apply IH.
Qed.

Lemma parseInt_decimal (ds : list Z) :
  ds <> [] -> Forall (fun d => 0 <= d <= 9) ds ->
  parseInt (digitChars ds) = Int (decimalValue ds).
Proof.
  intros Hne H. destruct H as [|d ds Hd Hds]; [contradiction|].
  assert (Hrest : parseDigits 10 None (digitChars (d :: ds))
                  = Some (decimalValue (d :: ds))).
  { cbn [digitChars fmap list_fmap parseDigits].
    replace (digitValue 10 (48 + d)) with (Some d)
      by (digit_cases d Hd; reflexivity).
    cbn [default]. apply (parseDigits_decimal ds (0 * 10 + d) Hds). }
  assert (Hp : parseInt (digitChars (d :: ds)) =
               match parseDigits 10 None (digitChars (d :: ds)) with
               | None => NaN
               | Some n => Int (1 * n)
               end).
  { destruct Hds as [|d2 ds Hd2 _].
    - digit_cases d Hd; reflexivity.
    - cbn [digitChars fmap list_fmap].
      digit_cases d Hd; try reflexivity.
      digit_cases d2 Hd2; reflexivity. }
  rewrite Hp, Hrest. f_equal. lia.
Qed.

(** X9. An entry named USER_DATA followed by decimal digits stands for
    the number the digits write, leading zeros included; it is skipped
    exactly when that number is above 9. *)
Theorem processSaves_decimal_names (gf : GameFile) (ds : list Z) :
  ds <> [] -> Forall (fun d => 0 <= d <= 9) ds ->
  name (header gf) = Some (SAVE_IDENTIFIER ++ digitChars ds) ->
  entryIndex gf = Int (decimalValue ds) /\
  (skipped gf = true <-> 9 < decimalValue ds).
Proof.
  intros Hne Hds Hname.
  assert (Hidx : entryIndex gf = Int (decimalValue ds)).
  { unfold entryIndex, substring. rewrite Hname.
    rewrite drop_app_length. apply parseInt_decimal; assumption. }
  split; [exact Hidx|].
  unfold skipped. rewrite Hidx, Hname. cbn [num_gt].
  assert (Hs : startsWith (SAVE_IDENTIFIER ++ digitChars ds) SAVE_IDENTIFIER
               = true).
  { unfold startsWith. apply bool_decide_eq_true. apply take_app_length. }
  rewrite Hs.
  assert (Hn : bool_decide (SAVE_IDENTIFIER ++ digitChars ds = []) = false).
  { apply bool_decide_eq_false. discriminate. }
  rewrite Hn. cbn [negb orb].
  destruct (Z.ltb_spec 9 (decimalValue ds)); split; intros; try lia;
    try reflexivity; discriminate.
Qed.

Lemma processSaves_decimal_names_witness :
  entryIndex (entry_named "USER_DATA007") = Int (decimalValue [0; 0; 7]).
Proof.
  apply (processSaves_decimal_names (entry_named "USER_DATA007") [0; 0; 7]).
  - discriminate.
  - repeat constructor; lia.
  - reflexivity.
Defined.

(** X11. A slot of the list whose entry payload has 16 + 2621440 bytes
    and whose summary record lies inside the buffer has the sizes copySave
    asks of a source: a 588-byte summary record, a 16-byte checksum and
    2621440 bytes of save data. *)
Theorem processSaves_valid_source (b : Buffer) (entries : list GameFile)
    (slots : list Save) :
  processSaves b entries = Ok slots ->
  Forall (fun sv => forall z,
    index sv = Int z -> 0 <= z ->
    HEADER_DATA_OFFSET + z * HEADER_DATA_LENGTH + HEADER_DATA_LENGTH
      <= Buf.blength b ->
    Buf.blength (data (gameFile sv)) = CHECKSUM_LENGTH + SAVE_DATA_LENGTH ->
    valid_source sv /\
    Buf.blength (saveDataChecksum sv) = CHECKSUM_LENGTH /\
    Buf.blength (saveData sv) = SAVE_DATA_LENGTH) slots.
Proof.
  intros H. apply (processSaves_Forall _ b entries slots H).
  intros gf sv Hin Hp z Hz Hz0 Hb Hd.
  destruct (processSave_contents b gf sv Hp)
    as (Hgf & Hsplit & Hlen & z' & Hz' & _ & Hhd & _).
  assert (z' = z) by congruence. subst z'.
  rewrite Hgf in Hd. rewrite Hd in Hlen.
  assert (Hlc : Buf.blength (saveDataChecksum sv) = CHECKSUM_LENGTH).
  { rewrite Hlen. unfold CHECKSUM_LENGTH, SAVE_DATA_LENGTH. lia. }
  assert (Hld : Buf.blength (saveData sv) = SAVE_DATA_LENGTH).
  { pose proof (f_equal Buf.blength Hsplit) as Hs.
    unfold Buf.blength in *. rewrite length_app in Hs. lia. }
  split; [|split; [exact Hlc | exact Hld]].
  split; [|split; [lia | lia]].
  rewrite Hhd. unfold HEADER_DATA_OFFSET, HEADER_DATA_LENGTH in *.
  rewrite blength_slice by lia. lia.
Qed.

Lemma full_entry_length : Buf.blength (data full_entry) = 2621456.
Proof.
  change (data full_entry) with (replicate (Z.to_nat 2621456) 0).
  unfold Buf.blength. rewrite length_replicate. lia.
Qed.

Lemma processSaves_full :
  processSaves zero_file [full_entry] = Ok [empty_slot 0 full_entry].
Proof.
  rewrite (processSaves_of_loop zero_file _ [empty_slot 0 full_entry]);
    [reflexivity|].
  rewrite (processSaves_loop_Some zero_file _ _ _ (empty_slot 0 full_entry))
    by (apply processSave_zero_file; [reflexivity | reflexivity | lia]).
  reflexivity.
Qed.

Lemma processSaves_valid_source_witness :
  processSaves zero_file [full_entry] = Ok [empty_slot 0 full_entry] /\
  Buf.blength (data full_entry) = CHECKSUM_LENGTH + SAVE_DATA_LENGTH /\
  valid_source (empty_slot 0 full_entry) /\
  Buf.blength (saveDataChecksum (empty_slot 0 full_entry)) = CHECKSUM_LENGTH /\
  Buf.blength (saveData (empty_slot 0 full_entry)) = SAVE_DATA_LENGTH.
Proof.
  split; [exact processSaves_full|].
  split; [exact full_entry_length|].
  pose proof (processSaves_valid_source zero_file _ _ processSaves_full) as H.
  apply Forall_cons in H as [H _].
  apply (H 0).
  - reflexivity.
  - lia.
  - rewrite zero_file_length. unfold HEADER_DATA_OFFSET, HEADER_DATA_LENGTH.
    lia.
  - exact full_entry_length.
Defined.

(** ** Entry names (readUnicodeString) *)

Lemma slice_middle (p m q : Buffer) :
  Buf.slice (p ++ m ++ q) (Buf.blength p) (Buf.blength p + Buf.blength m) = m.
Proof.
  unfold Buf.slice. cbv zeta.
  assert (Hlen : Buf.blength (p ++ m ++ q)
                 = Buf.blength p + Buf.blength m + Buf.blength q).
  { unfold Buf.blength. rewrite !length_app. lia. }
  assert (0 <= Buf.blength p /\ 0 <= Buf.blength m /\ 0 <= Buf.blength q)
    by (unfold Buf.blength; lia).
  rewrite !adjustOffset_nonneg by lia. rewrite Hlen.
  replace (Z.min (Buf.blength p) (Buf.blength p + Buf.blength m + Buf.blength q))
    with (Buf.blength p) by lia.
  replace (Z.min (Buf.blength p + Buf.blength m)
                 (Buf.blength p + Buf.blength m + Buf.blength q))
    with (Buf.blength p + Buf.blength m) by lia.
  replace (if Buf.blength p <? Buf.blength p + Buf.blength m
           then Buf.blength p + Buf.blength m - Buf.blength p else 0)
    with (Buf.blength m)
    by (destruct (Z.ltb_spec (Buf.blength p) (Buf.blength p + Buf.blength m));
        lia).
  unfold Buf.blength. rewrite !Nat2Z.id.
  rewrite drop_app_length. apply take_app_length.
Qed.

Lemma readUnicodeString_loop_terminated (todo : list Z) :
  forall (fuel : nat) (acc pre post : list Z),
  nonzeroPairs todo ->
  (length todo < 2 * fuel)%nat ->
  readUnicodeString_loop fuel acc (pre ++ todo ++ [0; 0] ++ post)
                         (Buf.blength pre)
  = Ok (acc ++ todo, Buf.blength pre + Buf.blength todo + 2).
Proof.
  induction todo as [todo IH] using (induction_ltof1 _ (@length Z)).
  unfold ltof in IH.
  intros fuel acc pre post Hnz Hfuel.
  destruct fuel as [|fuel]; [lia|].
  cbn [readUnicodeString_loop].
  rewrite reader_bind_unfold. unfold BufferReader.readBytes.
  destruct todo as [|lo [|hi rest]]; [| contradiction |].
  - change (pre ++ [] ++ [0; 0] ++ post) with (pre ++ [0; 0] ++ post).
    remember (Buf.slice (pre ++ [0; 0] ++ post) (Buf.blength pre)
                (Buf.blength pre + 2)) as cb eqn:Hcb.
    change (Buf.blength pre + 2)
      with (Buf.blength pre + Buf.blength [0; 0]) in Hcb.
    rewrite (slice_middle pre [0; 0] post) in Hcb. subst cb.
    rewrite app_nil_r. cbn [lookup list_lookup].
    rewrite (bool_decide_eq_true_2 (Some 0 = Some 0)) by reflexivity.
    cbn [negb orb]. unfold BufferReader.ret. repeat f_equal.
    unfold Buf.blength. cbn [length]. lia.
  - destruct Hnz as [Hpair Hrest].
    change (pre ++ (lo :: hi :: rest) ++ [0; 0] ++ post)
      with (pre ++ [lo; hi] ++ (rest ++ [0; 0] ++ post)).
    remember (Buf.slice (pre ++ [lo; hi] ++ rest ++ [0; 0] ++ post)
                (Buf.blength pre) (Buf.blength pre + 2)) as cb eqn:Hcb.
    change (Buf.blength pre + 2)
      with (Buf.blength pre + Buf.blength [lo; hi]) in Hcb.
    rewrite (slice_middle pre [lo; hi] (rest ++ [0; 0] ++ post)) in Hcb.
    subst cb.
    assert (Hc : negb (bool_decide ([lo; hi] !! 0%nat = Some 0))
                 || negb (bool_decide ([lo; hi] !! 1%nat = Some 0)) = true).
    { cbn [lookup list_lookup].
      repeat case_bool_decide; try reflexivity.
      exfalso. apply Hpair. split; congruence. }
    rewrite Hc.
    replace (pre ++ [lo; hi] ++ rest ++ [0; 0] ++ post)
      with ((pre ++ [lo; hi]) ++ rest ++ [0; 0] ++ post)
      by (rewrite <- !app_assoc; reflexivity).
    replace (Buf.blength pre + 2)
      with (Buf.blength (pre ++ [lo; hi]))
      by (unfold Buf.blength; rewrite length_app; cbn; lia).
    rewrite IH; [| cbn; lia | exact Hrest | cbn in Hfuel; lia].
    rewrite <- app_assoc.
    replace (Buf.blength (pre ++ [lo; hi]) + Buf.blength rest + 2)
      with (Buf.blength pre + Buf.blength (lo :: hi :: rest) + 2);
      [reflexivity|].
    unfold Buf.blength. rewrite length_app. cbn [length]. lia.
Qed.

(** X5. A name stored as byte pairs, none of them the pair of zero
    bytes, followed by a pair of zero bytes: readUnicodeString started at
    its first byte returns its UTF-16LE decoding and leaves the cursor
    after the terminator. An empty name gives the empty string whatever the
    byte order; a name that is not empty fails with UnknownEncoding in a
    big-endian container. *)
Theorem readUnicodeString_terminated (bigEndian : bool)
    (pre chars post : Buffer) :
  nonzeroPairs chars ->
  readUnicodeString bigEndian (pre ++ chars ++ [0; 0] ++ post)
                    (Buf.blength pre)
  = if bool_decide (chars = []) then Ok ([], Buf.blength pre + 2)
    else if bigEndian then Throw UnknownEncoding
    else Ok (Buf.toString_utf16le chars,
             Buf.blength pre + Buf.blength chars + 2).
Proof.
  intros Hnz. unfold readUnicodeString.
  rewrite (readUnicodeString_loop_terminated chars _ [] pre post Hnz).
  - cbn [app]. case_bool_decide as He; [|reflexivity].
    subst chars. replace (Buf.blength pre + Buf.blength [] + 2)
      with (Buf.blength pre + 2) by (unfold Buf.blength; cbn [length]; lia).
    reflexivity.
  - unfold Buf.blength. rewrite !length_app. cbn [length]. lia.
Qed.

Lemma readUnicodeString_terminated_witness :
  readUnicodeString false ([7; 7] ++ [85; 0; 83; 0] ++ [0; 0] ++ [9])
                    (Buf.blength [7; 7])
  = Ok (lit "US", 8).
Proof.
  apply (readUnicodeString_terminated false [7; 7] [85; 0; 83; 0] [9]).
  cbn. repeat split; intros [? ?]; discriminate.
Defined.

Lemma readUnicodeString_loop_unterminated (b : Buffer) (fuel : nat) :
  forall (acc : list Z) (offset : Z),
  0 <= offset ->
  (forall k, 0 <= k ->
     ~ (Buf.at_index b (offset + 2 * k) = Some 0 /\
        Buf.at_index b (offset + 2 * k + 1) = Some 0)) ->
  readUnicodeString_loop fuel acc b offset = Diverge.
Proof.
  induction fuel as [|fuel IH]; intros acc offset Ho Hnz; [reflexivity|].
  cbn [readUnicodeString_loop].
  rewrite reader_bind_unfold. unfold BufferReader.readBytes.
  assert (H0 : Buf.slice b offset (offset + 2) !! 0%nat
               = Buf.at_index b (offset + 2 * 0)).
  { change 0%nat with (Z.to_nat 0). rewrite <- at_index_nonneg by lia.
    rewrite at_index_slice by lia. case_decide; [f_equal; lia | lia]. }
  assert (H1 : Buf.slice b offset (offset + 2) !! 1%nat
               = Buf.at_index b (offset + 2 * 0 + 1)).
  { change 1%nat with (Z.to_nat 1). rewrite <- at_index_nonneg by lia.
    rewrite at_index_slice by lia. case_decide; [f_equal; lia | lia]. }
  assert (Hc : negb (bool_decide (Buf.slice b offset (offset + 2) !! 0%nat
                                  = Some 0))
               || negb (bool_decide (Buf.slice b offset (offset + 2) !! 1%nat
                                     = Some 0)) = true).
  { repeat case_bool_decide; try reflexivity.
    exfalso. apply (Hnz 0); [lia | split; congruence]. }
  rewrite Hc. apply IH; [lia|].
  intros k Hk. replace (offset + 2 + 2 * k) with (offset + 2 * (k + 1)) by lia.
  apply Hnz. lia.
Qed.

(** X6. When no pair of zero bytes lies at an even distance at or after
    the start offset (not negative), the read loop does not return after
    any number of rounds, and readUnicodeString never returns: the pairs
    read past the end of the buffer are empty and do not stop the loop. *)
Theorem readUnicodeString_unterminated (bigEndian : bool) (b : Buffer)
    (offset : Z) :
  0 <= offset ->
  (forall k, 0 <= k ->
     ~ (Buf.at_index b (offset + 2 * k) = Some 0 /\
        Buf.at_index b (offset + 2 * k + 1) = Some 0)) ->
  (forall fuel bytes, readUnicodeString_loop fuel bytes b offset = Diverge) /\
  readUnicodeString bigEndian b offset = Diverge.
Proof.
  intros Ho Hnz.
  assert (H : forall fuel bytes,
            readUnicodeString_loop fuel bytes b offset = Diverge).
  { intros fuel bytes.
    apply readUnicodeString_loop_unterminated; assumption. }
  split; [exact H|]. unfold readUnicodeString. rewrite H. reflexivity.
Qed.

Lemma readUnicodeString_unterminated_witness :
  readUnicodeString false [85; 0; 83; 0; 0] 0 = Diverge.
Proof.
  apply (readUnicodeString_unterminated false [85; 0; 83; 0; 0] 0); [lia|].
  intros k Hk [H0 H1].
  assert (Hk2 : k = 0 \/ k = 1 \/ k = 2 \/ 3 <= k) by lia.
  destruct Hk2 as [->|[->|[->|Hk3]]]; try discriminate.
  rewrite at_index_beyond in H0; [discriminate|].
  unfold Buf.blength. cbn [length]. lia.
Defined.

(** ** The entry table and the parser (readGameFileHeaders, readGameFiles,
       parseSaveFile) *)

Lemma advances_bind {A B} (d1 d2 : Z) (m : BufferReader.Reader A)
    (k : A -> BufferReader.Reader B) :
  advances d1 m -> (forall a, advances d2 (k a)) ->
  advances (d1 + d2) (m ≫= k).
Proof.
  intros Hm Hk b o r o' H.
  apply reader_bind_Ok in H as (a & o1 & H1 & H2).
  apply Hm in H1. apply Hk in H2. lia.
Qed.

Lemma advances_ret {A} (a : A) : advances 0 (BufferReader.ret a).
Proof. intros b o x o' H. apply Ok_inj in H. injection H as _ <-. lia. Qed.

Lemma advances_throw {A} (d : Z) (e : error) :
  advances d (@BufferReader.throw A e).
Proof. intros b o x o' H. discriminate. Qed.

Lemma advances_skip (n : Z) : advances n (BufferReader.skip n).
Proof. intros b o x o' H. apply Ok_inj in H. injection H as _ <-. lia. Qed.

Lemma advances_readUInt8 : advances 1 BufferReader.readUInt8.
Proof. intros b o x o' H. apply reader_readUInt8_Ok in H. lia. Qed.

Lemma advances_readInt32LE : advances 4 BufferReader.readInt32LE.
Proof. intros b o x o' H. apply reader_readInt32LE_Ok in H. lia. Qed.

Lemma advances_readBigInt64LE : advances 8 BufferReader.readBigInt64LE.
Proof. intros b o x o' H. apply reader_readBigInt64LE_Ok in H. lia. Qed.

Lemma advances_if {A} (d1 d2 : Z) (c : bool) (m1 m2 : BufferReader.Reader A) :
  advances d1 m1 -> advances d2 m2 ->
  advances (if c then d1 else d2) (if c then m1 else m2).
Proof. destruct c; auto. Qed.

(** Reading the name leaves the cursor after the name offset. *)
Lemma advances_name (unicode bigEndian : bool) :
  advances 4
    (nameOffset ← BufferReader.readInt32LE;
     if unicode then
       currentOffset ← BufferReader.offset;
       BufferReader.seek nameOffset;;
       name ← readUnicodeString bigEndian;
       BufferReader.seek currentOffset;;
       BufferReader.ret (Some name)
     else BufferReader.ret (Some (lit "JIS"))).
Proof.
  intros b o r o' H.
  apply reader_bind_Ok in H as (nameOffset & o1 & H1 & H).
  apply reader_readInt32LE_Ok in H1 as [_ ->].
  destruct unicode.
  - apply reader_bind_Ok in H as (cur & o2 & H2 & H).
    apply Ok_inj in H2. injection H2 as <- <-.
    apply reader_bind_Ok in H as (? & o3 & H3 & H).
    apply reader_bind_Ok in H as (nm & o4 & H4 & H).
    apply reader_bind_Ok in H as (? & o5 & H5 & H).
    apply Ok_inj in H5. injection H5 as _ <-.
    apply Ok_inj in H. injection H as _ <-. reflexivity.
  - apply Ok_inj in H. injection H as _ <-. lia.
Qed.

Lemma advances_readGameFileHeader (format : Z) (unicode bigEndian : bool) :
  advances (entrySize format) (readGameFileHeader format unicode bigEndian).
Proof.
  unfold readGameFileHeader, entrySize.
  replace (16
    + (if negb (Z.land format 32 =? 0) then 8 else 0)
    + (if negb (Z.land format 16 =? 0) then 8 else 4)
    + (if negb (Z.land format 2 =? 0) then 4 else 0)
    + (if negb (Z.land format (Z.lor 4 8) =? 0) then 4 else 0)
    + (if format =? 4 then 8 else 0))
  with (1 + (3 + (4 + (8 +
    ((if negb (Z.land format 32 =? 0) then 8 else 0)
    + ((if negb (Z.land format 16 =? 0) then 8 else 4)
    + ((if negb (Z.land format 2 =? 0) then 4 else 0)
    + ((if negb (Z.land format (Z.lor 4 8) =? 0) then 4 else 0)
    + ((if format =? 4 then 4 + (4 + 0) else 0) + 0))))))))).
  2:{ destruct (negb (Z.land format 32 =? 0)),
        (negb (Z.land format 16 =? 0)), (negb (Z.land format 2 =? 0)),
        (negb (Z.land format (Z.lor 4 8) =? 0)), (format =? 4); lia. }
  apply advances_bind; [apply advances_readUInt8 | intros fileFlags].
  apply advances_bind; [apply advances_skip | intros _].
  apply advances_bind; [apply advances_readInt32LE | intros sentinel].
  destruct (negb (sentinel =? -1)); [apply advances_throw|].
  apply advances_bind; [apply advances_readBigInt64LE | intros csize].
  apply advances_bind;
    [apply advances_if;
       [apply advances_readBigInt64LE | apply advances_ret] | intros usize].
  apply advances_bind;
    [apply advances_if;
       [apply advances_readBigInt64LE | apply advances_readInt32LE]
    | intros doff].
  apply advances_bind;
    [apply advances_if; [apply advances_readInt32LE | apply advances_ret]
    | intros id0].
  apply advances_bind;
    [apply advances_if; [apply advances_name | apply advances_ret]
    | intros nm].
  apply advances_bind; [|intros id1; apply advances_ret].
  apply advances_if; [|apply advances_ret].
  apply advances_bind; [apply advances_readInt32LE | intros id'].
  apply advances_bind; [apply advances_readInt32LE | intros _].
  apply advances_ret.
Qed.

Lemma readGameFileHeaders_loop_stride (n : nat) (format : Z)
    (unicode bigEndian : bool) (acc : list GameFileHeader) (b : Buffer)
    (o : Z) (hs : list GameFileHeader) (o' : Z) :
  readGameFileHeaders_loop n format unicode bigEndian acc b o = Ok (hs, o') ->
  exists news, hs = acc ++ news /\ length news = n /\
               o' = o + Z.of_nat n * entrySize format.
Proof.
  revert acc o. induction n as [|n IH]; intros acc o H.
  - apply Ok_inj in H. injection H as <- <-. exists [].
    rewrite app_nil_r. repeat split. lia.
  - cbn [readGameFileHeaders_loop] in H.
    apply reader_bind_Ok in H as (h & o1 & H1 & H).
    apply advances_readGameFileHeader in H1.
    apply IH in H as (news & -> & Hn & ->).
    exists (h :: news). rewrite <- app_assoc. split; [reflexivity|].
    split; [cbn; lia | lia].
Qed.

(** X4. When the entry table parses, it has as many headers as
    fileCount says (none for a count of 0 or less) and the cursor has moved
    by that number times the entry size the format flags give: reading a
    name, which seeks away and back, does not move it. *)
Theorem readGameFileHeaders_stride (fileCount format : Z)
    (unicode bigEndian : bool) (b : Buffer) (offset : Z)
    (headers : list GameFileHeader) (offset' : Z) :
  readGameFileHeaders fileCount format unicode bigEndian b offset
    = Ok (headers, offset') ->
  length headers = Z.to_nat fileCount /\
  offset' = offset + Z.of_nat (length headers) * entrySize format /\
  (fileCount <= 0 -> headers = [] /\ offset' = offset).
Proof.
  unfold readGameFileHeaders. intros H.
  apply readGameFileHeaders_loop_stride in H as (news & -> & Hn & ->).
  cbn [app]. split; [exact Hn|]. split; [rewrite Hn; reflexivity|].
  intros Hc. replace (Z.to_nat fileCount) with 0%nat in * by lia.
  destruct news; [|discriminate]. split; [reflexivity | lia].
Qed.

Lemma readGameFileHeaders_stride_witness :
  84 = 64 + Z.of_nat (length [mkGameFileHeader 0 0 (-1) 0 (-1) None])
            * entrySize 0.
Proof.
  apply (readGameFileHeaders_stride 1 0 false false one_entry_file 64
           [mkGameFileHeader 0 0 (-1) 0 (-1) None] 84).
  vm_compute. reflexivity.
Defined.

Lemma reader_bind_Throw {A B} (m : BufferReader.Reader A)
    (k : A -> BufferReader.Reader B) (b : Buffer) (o : Z) (e : error) :
  (m ≫= k) b o = Throw e ->
  m b o = Throw e \/ exists a o', m b o = Ok (a, o') /\ k a b o' = Throw e.
Proof.
  rewrite reader_bind_unfold.
  destruct (m b o) as [[a o']|e'|].
  - intros H. right. exists a, o'. auto.
  - intros H. left. injection H as ->. reflexivity.
  - discriminate.
Qed.

Lemma throws_only_bind {A B} (E : error -> Prop) (m : BufferReader.Reader A)
    (k : A -> BufferReader.Reader B) :
  throws_only E m -> (forall a, throws_only E (k a)) ->
  throws_only E (m ≫= k).
Proof.
  intros Hm Hk b o e H.
  apply reader_bind_Throw in H as [H | (a & o' & _ & H)];
    [exact (Hm _ _ _ H) | exact (Hk _ _ _ _ H)].
Qed.

Lemma throws_only_ret {A} (E : error -> Prop) (a : A) :
  throws_only E (BufferReader.ret a).
Proof. intros b o e H. discriminate. Qed.

Lemma throws_only_throw {A} (E : error -> Prop) (e : error) :
  E e -> throws_only E (@BufferReader.throw A e).
Proof. intros He b o e' H. injection H as <-. exact He. Qed.

Lemma throws_only_skip (E : error -> Prop) (n : Z) :
  throws_only E (BufferReader.skip n).
Proof. intros b o e H. discriminate. Qed.

Lemma throws_only_seek (E : error -> Prop) (n : Z) :
  throws_only E (BufferReader.seek n).
Proof. intros b o e H. discriminate. Qed.

Lemma throws_only_offset (E : error -> Prop) :
  throws_only E BufferReader.offset.
Proof. intros b o e H. discriminate. Qed.

Lemma throws_only_readString (E : error -> Prop) (n : Z) :
  throws_only E (BufferReader.readString n).
Proof. intros b o e H. discriminate. Qed.

Lemma throws_only_readBytes (E : error -> Prop) (n : Z) :
  throws_only E (BufferReader.readBytes n).
Proof. intros b o e H. discriminate. Qed.

Lemma throws_only_readUInt8 (E : error -> Prop) :
  E OutOfBounds -> throws_only E BufferReader.readUInt8.
Proof.
  intros HE b o e. unfold BufferReader.readUInt8, Buf.readUInt8.
  destruct (Buf.at_index b o); cbn; [discriminate|].
  intros H. injection H as <-. exact HE.
Qed.

Lemma throws_only_readBoolean (E : error -> Prop) :
  E OutOfBounds -> throws_only E BufferReader.readBoolean.
Proof.
  intros HE. unfold BufferReader.readBoolean.
  apply (throws_only_bind E BufferReader.readUInt8).
  - apply throws_only_readUInt8. exact HE.
  - intros a. apply throws_only_ret.
Qed.

Lemma throws_only_readInt32LE (E : error -> Prop) :
  E OutOfBounds -> throws_only E BufferReader.readInt32LE.
Proof.
  intros HE b o e. unfold BufferReader.readInt32LE, Buf.readInt32LE.
  destruct (Buf.at_index b o), (Buf.at_index b (o + 1)),
    (Buf.at_index b (o + 2)), (Buf.at_index b (o + 3)); cbn;
    try discriminate; intros H; injection H as <-; exact HE.
Qed.

Lemma throws_only_readBigInt64LE (E : error -> Prop) :
  E OutOfBounds -> throws_only E BufferReader.readBigInt64LE.
Proof.
  intros HE b o e. unfold BufferReader.readBigInt64LE, Buf.readBigInt64LE.
  destruct (Buf.at_index b o), (Buf.at_index b (o + 7)); cbn;
    try discriminate; intros H; injection H as <-; exact HE.
Qed.

Lemma readUnicodeString_loop_no_throw (fuel : nat) (bytes : list Z)
    (b : Buffer) (o : Z) (e : error) :
  readUnicodeString_loop fuel bytes b o <> Throw e.
Proof.
  revert bytes o. induction fuel as [|fuel IH]; intros bytes o; [discriminate|].
  cbn [readUnicodeString_loop]. rewrite reader_bind_unfold.
  unfold BufferReader.readBytes.
  destruct (negb _ || negb _); [apply IH | discriminate].
Qed.

Lemma throws_only_readUnicodeString (E : error -> Prop) (bigEndian : bool) :
  E UnknownEncoding -> throws_only E (readUnicodeString bigEndian).
Proof.
  intros HE b o e. unfold readUnicodeString.
  destruct (readUnicodeString_loop _ _ _ _) as [[bytes o']|e'|] eqn:Hl.
  - destruct (bool_decide (bytes = [])); [discriminate|].
    destruct bigEndian; [|discriminate].
    intros H. injection H as <-. exact HE.
  - exfalso. exact (readUnicodeString_loop_no_throw _ _ _ _ _ Hl).
  - discriminate.
Qed.

Ltac solve_throws_only :=
  repeat first
    [ apply throws_only_ret
    | apply throws_only_skip
    | apply throws_only_seek
    | apply throws_only_offset
    | apply throws_only_readBytes
    | apply throws_only_readString
    | apply throws_only_readUInt8; unfold tableError; tauto
    | apply throws_only_readBoolean; unfold tableError; tauto
    | apply throws_only_readInt32LE; unfold tableError; tauto
    | apply throws_only_readBigInt64LE; unfold tableError; tauto
    | apply throws_only_readUnicodeString; unfold tableError; tauto
    | apply throws_only_throw; unfold tableError; tauto
    | match goal with
      | |- throws_only _ (if ?c then _ else _) => destruct c
      | |- throws_only _ (_ ≫= _) => apply throws_only_bind; [|intros ?]
      end ].

Lemma throws_only_readGameFileHeader (format : Z) (unicode bigEndian : bool) :
  throws_only tableError (readGameFileHeader format unicode bigEndian).
Proof. unfold readGameFileHeader. solve_throws_only. Qed.

Lemma throws_only_readGameFileHeaders_loop (n : nat) (format : Z)
    (unicode bigEndian : bool) (acc : list GameFileHeader) :
  throws_only tableError
    (readGameFileHeaders_loop n format unicode bigEndian acc).
Proof.
  revert acc. induction n as [|n IH]; intros acc;
    cbn [readGameFileHeaders_loop].
  - apply throws_only_ret.
  - apply throws_only_bind; [apply throws_only_readGameFileHeader|].
    intros h. apply IH.
Qed.

(** Integers up to 2^53 in magnitude are doubles: the conversion and the
    sum are exact on them. *)
Lemma toNumber_exact (x : Z) : - 2 ^ 53 <= x <= 2 ^ 53 -> toNumber x = x.
Proof.
  intros Hx. unfold toNumber. cbv zeta.
  destruct (Z.ltb_spec (Z.abs x) (2 ^ 53)) as [|Habs]; [reflexivity|].
  assert (Hc : x = 2 ^ 53 \/ x = - 2 ^ 53) by lia.
  destruct Hc as [-> | ->]; vm_compute; reflexivity.
Qed.

Lemma number_add_exact (a b : Z) :
  - 2 ^ 53 <= a + b <= 2 ^ 53 -> number_add a b = a + b.
Proof. apply toNumber_exact. Qed.

(** On such positions and lengths readBytes is the method of
    [BufferReader]. *)
Lemma readBytes_number_exact (length : Z) (b : Buffer) (offset : Z) :
  - 2 ^ 53 <= offset + length <= 2 ^ 53 ->
  readBytes_number length b offset = BufferReader.readBytes length b offset.
Proof.
  intros H. unfold readBytes_number, BufferReader.readBytes.
  rewrite number_add_exact by exact H. reflexivity.
Qed.

(** readGameFiles never fails: every entry gets the bytes between its
    data offset and that offset plus its size, both as numbers, as far as
    the buffer has them. *)
Lemma readGameFiles_run (hs : list GameFileHeader) (format : Z) (b : Buffer)
    (o : Z) :
  exists o',
    readGameFiles hs format b o
    = Ok ((fun h => mkGameFile h
                      (Buf.slice b (toNumber (dataOffset h))
                         (number_add (toNumber (dataOffset h))
                                     (toNumber (compressedSize h))))) <$> hs,
          o').
Proof.
  revert o. induction hs as [|h hs IH]; intros o.
  - exists o. reflexivity.
  - cbn [readGameFiles]. rewrite reader_bind_unfold.
    unfold BufferReader.seek at 1. cbn iota beta.
    rewrite reader_bind_unfold. unfold readBytes_number at 1.
    cbn iota beta.
    rewrite reader_bind_unfold.
    destruct (IH (number_add (toNumber (dataOffset h))
                             (toNumber (compressedSize h)))) as (o' & ->).
    exists o'. reflexivity.
Qed.

Lemma processSaves_throws (b : Buffer) (gfs : list GameFile) (e : error) :
  processSaves b gfs = Throw e -> e = OutOfBounds.
Proof.
  unfold processSaves.
  assert (H : forall acc, processSaves_loop b gfs acc = Throw e ->
                          e = OutOfBounds).
  { induction gfs as [|gf gfs IH]; intros acc; [discriminate|].
    cbn [processSaves_loop].
    destruct (processSave_cases b gf) as [[r ->] | ->];
      cbn [mbind outcome_bind].
    - destruct r; apply IH.
    - intros H. injection H as <-. reflexivity. }
  destruct (processSaves_loop b gfs []) as [found|e'|] eqn:Hl;
    cbn [mbind outcome_bind]; [discriminate | | discriminate].
  intros H'. injection H' as <-. exact (H _ Hl).
Qed.

Ltac fold_sums H :=
  repeat match type of H with
         | context [?x + ?y] =>
             let v := eval vm_compute in (x + y) in
             match v with
             | Zpos _ => change (x + y) with v in H
             end
         end.

Lemma toString_ascii_prefix (b : Buffer) (n : Z) :
  0 < n ->
  Buf.toString_ascii b 0 n = (fun x => Z.land x 127) <$> take (Z.to_nat n) b.
Proof.
  intros Hn. unfold Buf.toString_ascii. cbv zeta.
  replace (0 <=? 0) with true by reflexivity.
  assert (Hl : 0 <= Buf.blength b) by (unfold Buf.blength; lia).
  destruct (Z.ltb_spec (Buf.blength b) n) as [Hlt|Hge].
  - rewrite (take_ge b (Z.to_nat n)) by (unfold Buf.blength in *; lia).
    destruct (Z.leb_spec (Buf.blength b) 0) as [H0|H0].
    + destruct b; [reflexivity | unfold Buf.blength in *; cbn in *; lia].
    + unfold Buf.blength. rewrite Nat2Z.id, firstn_all. reflexivity.
  - destruct (Z.leb_spec n 0); [lia | reflexivity].
Qed.

Lemma parseSaveFile_parts (b : Buffer) (sf : SaveFile) :
  parseSaveFile b = Ok sf ->
  buffer sf = b /\
  (fun x => Z.land x 127) <$> take 4 b = lit "BND4" /\
  (exists x, Buf.readUInt8 b 9 = Ok x /\ bigEndian sf = negb (x =? 0)) /\
  (exists x, Buf.readUInt8 b 10 = Ok x /\ bitBigEndian sf = (x =? 0)) /\
  Buf.readInt32LE b 12 = Ok (fileCount sf) /\
  Buf.readBigInt64LE b 16 = Ok (headerSize sf) /\
  version sf = Buf.toString_ascii b 24 32 /\
  Buf.readBigInt64LE b 32 = Ok (fileHeaderSize sf) /\
  (exists x, Buf.readUInt8 b 48 = Ok x /\ unicode sf = negb (x =? 0)) /\
  Buf.readUInt8 b 49 = Ok (rawFormat sf) /\
  format sf = resolveFormat (bitBigEndian sf) (rawFormat sf) /\
  Buf.readUInt8 b 50 = Ok (extended sf) /\
  (exists o, readGameFileHeaders (fileCount sf) (format sf) (unicode sf)
               (bigEndian sf) b 64 = Ok (gameFileHeaders sf, o)) /\
  gameFiles sf
    = (fun h => mkGameFile h
                  (Buf.slice b (toNumber (dataOffset h))
                     (number_add (toNumber (dataOffset h))
                                 (toNumber (compressedSize h)))))
        <$> gameFileHeaders sf /\
  processSaves b (gameFiles sf) = Ok (saves sf).
Proof.
  unfold parseSaveFile. intros H.
  match type of H with
  | (?m ≫= _) = _ => destruct m as [[sf' o]|e|] eqn:E; [|discriminate..]
  end.
  cbn in H. apply Ok_inj in H. subst sf'.
  apply reader_bind_Ok in E as (magic & o1 & E1 & E).
  apply Ok_inj in E1. injection E1 as <- <-.
  destruct (negb _) eqn:Hmagic; [discriminate|].
  apply negb_false_iff in Hmagic. unfold jsstring_eqb in Hmagic.
  apply bool_decide_eq_true in Hmagic.
  rewrite toString_ascii_prefix in Hmagic by lia.
  apply reader_bind_Ok in E as (? & o2 & E2 & E).
  apply Ok_inj in E2. injection E2 as _ <-.
  apply reader_bind_Ok in E as (be & o3 & E3 & E).
  apply reader_readBoolean_Ok in E3 as [Hbe ->].
  apply reader_bind_Ok in E as (bb & o4 & E4 & E).
  apply reader_readBoolean_Ok in E4 as [Hbb ->].
  apply reader_bind_Ok in E as (? & o5 & E5 & E).
  apply Ok_inj in E5. injection E5 as _ <-.
  apply reader_bind_Ok in E as (fc & o6 & E6 & E).
  apply reader_readInt32LE_Ok in E6 as [Hfc ->].
  apply reader_bind_Ok in E as (hs & o7 & E7 & E).
  apply reader_readBigInt64LE_Ok in E7 as [Hhs ->].
  apply reader_bind_Ok in E as (ver & o8 & E8 & E).
  apply Ok_inj in E8. injection E8 as Hver <-.
  apply reader_bind_Ok in E as (fhs & o9 & E9 & E).
  apply reader_readBigInt64LE_Ok in E9 as [Hfhs ->].
  apply reader_bind_Ok in E as (? & o10 & E10 & E).
  apply Ok_inj in E10. injection E10 as _ <-.
  apply reader_bind_Ok in E as (uni & o11 & E11 & E).
  apply reader_readBoolean_Ok in E11 as [Huni ->].
  apply reader_bind_Ok in E as (raw & o12 & E12 & E).
  apply reader_readUInt8_Ok in E12 as [Hraw ->].
  apply reader_bind_Ok in E as (ext & o13 & E13 & E).
  apply reader_readUInt8_Ok in E13 as [Hext ->].
  apply reader_bind_Ok in E as (? & o14 & E14 & E).
  apply Ok_inj in E14. injection E14 as _ <-.
  apply reader_bind_Ok in E as (gfh & o15 & E15 & E).
  apply reader_bind_Ok in E as (gfs & o16 & E16 & E).
  apply reader_bind_Ok in E as (ss & o17 & E17 & E).
  apply Ok_inj in E. injection E as <- _.
  cbn [buffer bigEndian bitBigEndian fileCount headerSize version
       fileHeaderSize unicode rawFormat format extended gameFileHeaders
       gameFiles saves].
  unfold BufferReader.lift in E17.
  destruct (processSaves b gfs) as [ss'| |] eqn:Eps; [|discriminate..].
  cbn in E17. apply Ok_inj in E17. injection E17 as <- _.
  destruct (readGameFiles_run gfh (resolveFormat (negb bb) raw) b o15)
    as (o' & Hrun).
  rewrite Hrun in E16. apply Ok_inj in E16. injection E16 as <- _.
  destruct Hbe as (xbe & Hbe & ->). destruct Hbb as (xbb & Hbb & ->).
  destruct Huni as (xuni & Huni & ->).
  fold_sums Hbe. fold_sums Hbb. fold_sums Hfc. fold_sums Hhs.
  fold_sums Hver. fold_sums Hfhs. fold_sums Huni. fold_sums Hraw.
  fold_sums Hext. fold_sums E15.
  split; [reflexivity|]. split; [exact Hmagic|].
  split; [eauto|]. split; [exists xbb; rewrite negb_involutive; auto|].
  split; [exact Hfc|]. split; [exact Hhs|]. split; [symmetry; exact Hver|].
  split; [exact Hfhs|]. split; [eauto|]. split; [exact Hraw|].
  split; [reflexivity|]. split; [exact Hext|]. split; [eauto|].
  split; reflexivity.
Qed.

Lemma parseSaveFile_one_entry :
  parseSaveFile one_entry_file = Ok one_entry_parsed.
Proof. vm_compute. reflexivity. Qed.

(** X2. A buffer that parses has at least 51 bytes, and the parsed fields
    are the header fields at fixed offsets: the magic at 0, bigEndian at
    byte 9, bitBigEndian (negated) at byte 10, fileCount as int32 at 12,
    headerSize as int64 at 16, version as 8 ASCII bytes at 24,
    fileHeaderSize at 32, unicode at byte 48, the raw format byte at 49 and
    extended at 50. The entry table starts at 64 and has fileCount entries,
    every game file carries its header, the slot list is processSaves of
    the buffer and the game files, and the buffer is returned as it came
    in. *)
Theorem parseSaveFile_layout (b : Buffer) (sf : SaveFile) :
  parseSaveFile b = Ok sf ->
  buffer sf = b /\
  51 <= Buf.blength b /\
  (fun x => Z.land x 127) <$> take 4 b = lit "BND4" /\
  (exists x, Buf.readUInt8 b 9 = Ok x /\ bigEndian sf = negb (x =? 0)) /\
  (exists x, Buf.readUInt8 b 10 = Ok x /\ bitBigEndian sf = (x =? 0)) /\
  Buf.readInt32LE b 12 = Ok (fileCount sf) /\
  Buf.readBigInt64LE b 16 = Ok (headerSize sf) /\
  version sf = Buf.toString_ascii b 24 32 /\
  Buf.readBigInt64LE b 32 = Ok (fileHeaderSize sf) /\
  (exists x, Buf.readUInt8 b 48 = Ok x /\ unicode sf = negb (x =? 0)) /\
  Buf.readUInt8 b 49 = Ok (rawFormat sf) /\
  Buf.readUInt8 b 50 = Ok (extended sf) /\
  (exists o, readGameFileHeaders (fileCount sf) (format sf) (unicode sf)
               (bigEndian sf) b 64 = Ok (gameFileHeaders sf, o)) /\
  length (gameFileHeaders sf) = Z.to_nat (fileCount sf) /\
  header <$> gameFiles sf = gameFileHeaders sf /\
  processSaves b (gameFiles sf) = Ok (saves sf).
Proof.
  intros Hparse.
  destruct (parseSaveFile_parts b sf Hparse)
    as (H1 & H2 & H3 & H4 & H5 & H6 & H7 & H8 & H9 & H10 & _ & H12 & H13 &
        H14 & H15).
  split; [exact H1|]. split.
  { unfold Buf.readUInt8 in H12.
    destruct (Buf.at_index b 50) as [x|] eqn:E; [|discriminate].
    assert (is_Some (Buf.at_index b 50)) as Hs by eauto.
    apply at_index_is_Some in Hs. lia. }
  split; [exact H2|]. split; [exact H3|]. split; [exact H4|].
  split; [exact H5|]. split; [exact H6|]. split; [exact H7|].
  split; [exact H8|]. split; [exact H9|]. split; [exact H10|].
  split; [exact H12|]. split; [exact H13|].
  destruct H13 as [o Ho].
  split.
  { unfold readGameFileHeaders in Ho.
    apply readGameFileHeaders_loop_stride in Ho as (news & Hn & Hlen & _).
    rewrite Hn. exact Hlen. }
  split; [|exact H15].
  rewrite H14, <- list_fmap_compose. apply list_fmap_id.
Qed.

Lemma parseSaveFile_layout_witness :
  Buf.readInt32LE one_entry_file 12 = Ok (fileCount one_entry_parsed).
Proof.
  apply (parseSaveFile_layout one_entry_file one_entry_parsed
           parseSaveFile_one_entry).
Defined.

Lemma throws_only_lift {A} (E : error -> Prop) (m : outcome A) :
  (forall e, m = Throw e -> E e) -> throws_only E (BufferReader.lift m).
Proof.
  intros Hm b o e. unfold BufferReader.lift.
  destruct m as [a|e'|]; cbn; [discriminate | | discriminate].
  intros H. injection H as <-. apply Hm. reflexivity.
Qed.

Lemma throws_only_readGameFiles (E : error -> Prop)
    (hs : list GameFileHeader) (format : Z) :
  throws_only E (readGameFiles hs format).
Proof.
  intros b o e H. destruct (readGameFiles_run hs format b o) as (o' & Hr).
  rewrite Hr in H. discriminate.
Qed.

Lemma skip_bind {B} (n : Z) (k : unit -> BufferReader.Reader B) (b : Buffer)
    (o : Z) :
  (BufferReader.skip n ≫= k) b o = k tt b (o + n).
Proof. reflexivity. Qed.

Lemma readString_bind {B} (n : Z) (k : list Z -> BufferReader.Reader B)
    (b : Buffer) (o : Z) :
  (BufferReader.readString n ≫= k) b o
  = k (Buf.toString_ascii b o (o + n)) b (o + n).
Proof. reflexivity. Qed.

Lemma readUInt8_cases (b : Buffer) (o : Z) :
  (exists v, BufferReader.readUInt8 b o = Ok (v, o + 1)) \/
  BufferReader.readUInt8 b o = Throw OutOfBounds.
Proof.
  unfold BufferReader.readUInt8, Buf.readUInt8.
  destruct (Buf.at_index b o); cbn; eauto.
Qed.

Lemma readBoolean_cases (b : Buffer) (o : Z) :
  (exists v, BufferReader.readBoolean b o = Ok (v, o + 1)) \/
  BufferReader.readBoolean b o = Throw OutOfBounds.
Proof.
  unfold BufferReader.readBoolean, BufferReader.bind.
  destruct (readUInt8_cases b o) as [[v ->] | ->]; cbn; eauto.
Qed.

Lemma readInt32LE_cases (b : Buffer) (o : Z) :
  (exists v, BufferReader.readInt32LE b o = Ok (v, o + 4)) \/
  BufferReader.readInt32LE b o = Throw OutOfBounds.
Proof.
  unfold BufferReader.readInt32LE, Buf.readInt32LE.
  destruct (Buf.at_index b o), (Buf.at_index b (o + 1)),
    (Buf.at_index b (o + 2)), (Buf.at_index b (o + 3)); cbn; eauto.
Qed.

Lemma readBigInt64LE_cases (b : Buffer) (o : Z) :
  (exists v, BufferReader.readBigInt64LE b o = Ok (v, o + 8)) \/
  BufferReader.readBigInt64LE b o = Throw OutOfBounds.
Proof.
  unfold BufferReader.readBigInt64LE, Buf.readBigInt64LE.
  destruct (Buf.at_index b o), (Buf.at_index b (o + 7)); cbn; eauto.
Qed.

Lemma readUInt8_beyond (b : Buffer) (o : Z) :
  Buf.blength b <= o -> BufferReader.readUInt8 b o = Throw OutOfBounds.
Proof.
  intros H. unfold BufferReader.readUInt8, Buf.readUInt8.
  rewrite at_index_beyond by exact H. reflexivity.
Qed.

(** X1. parseSaveFile fails with BadMagic exactly when the first four
    bytes, read as ASCII (top bit cleared), are not BND4: with any other
    magic, also on an empty or shorter buffer, it throws BadMagic; with the
    magic, every exception it throws is OutOfBounds, UnknownTableFormat or
    UnknownEncoding, and a buffer shorter than 51 bytes fails with
    OutOfBounds. *)
Theorem parseSaveFile_errors (b : Buffer) :
  ((fun x => Z.land x 127) <$> take 4 b <> lit "BND4" ->
     parseSaveFile b = Throw BadMagic) /\
  ((fun x => Z.land x 127) <$> take 4 b = lit "BND4" ->
     (Buf.blength b < 51 -> parseSaveFile b = Throw OutOfBounds) /\
     forall e, parseSaveFile b = Throw e ->
       e = OutOfBounds \/ e = UnknownTableFormat \/ e = UnknownEncoding).
Proof.
  unfold parseSaveFile.
  rewrite readString_bind.
  rewrite toString_ascii_prefix by lia.
  change (Z.to_nat (0 + 4)) with 4%nat.
  unfold jsstring_eqb.
  split.
  - intros Hbad. rewrite bool_decide_eq_false_2 by exact Hbad.
    reflexivity.
  - intros Hok. rewrite bool_decide_eq_true_2 by exact Hok.
    cbn [negb]. split.
    + intros Hshort.
      rewrite skip_bind.
      rewrite reader_bind_unfold.
      match goal with
      | |- context [BufferReader.readBoolean b ?o] =>
          destruct (readBoolean_cases b o) as [[? ->] | ->]
      end; [|reflexivity].
      rewrite reader_bind_unfold.
      match goal with
      | |- context [BufferReader.readBoolean b ?o] =>
          destruct (readBoolean_cases b o) as [[? ->] | ->]
      end; [|reflexivity].
      rewrite skip_bind.
      rewrite reader_bind_unfold.
      match goal with
      | |- context [BufferReader.readInt32LE b ?o] =>
          destruct (readInt32LE_cases b o) as [[? ->] | ->]
      end; [|reflexivity].
      rewrite reader_bind_unfold.
      match goal with
      | |- context [BufferReader.readBigInt64LE b ?o] =>
          destruct (readBigInt64LE_cases b o) as [[? ->] | ->]
      end; [|reflexivity].
      rewrite readString_bind.
      rewrite reader_bind_unfold.
      match goal with
      | |- context [BufferReader.readBigInt64LE b ?o] =>
          destruct (readBigInt64LE_cases b o) as [[? ->] | ->]
      end; [|reflexivity].
      rewrite skip_bind.
      rewrite reader_bind_unfold.
      match goal with
      | |- context [BufferReader.readBoolean b ?o] =>
          destruct (readBoolean_cases b o) as [[? ->] | ->]
      end; [|reflexivity].
      rewrite reader_bind_unfold.
      match goal with
      | |- context [BufferReader.readUInt8 b ?o] =>
          destruct (readUInt8_cases b o) as [[? ->] | ->]
      end; [|reflexivity].
      rewrite reader_bind_unfold.
      rewrite readUInt8_beyond by lia. reflexivity.
    + intros e H.
      match type of H with
      | (?m ≫= _) = _ => destruct m as [[sf o]|e'|] eqn:E; [discriminate | |
                                                           discriminate]
      end.
      cbn in H. injection H as ->.
      revert E. generalize (0 + 4). intros o E.
      assert (Ht : tableError e); [|exact Ht].
      revert b o e E Hok. intros b o e E _. revert E.
      match goal with
      | |- ?m b o = Throw e -> _ =>
          assert (Hm : throws_only tableError m); [|apply Hm]
      end.
      solve_throws_only.
      * apply throws_only_readGameFileHeaders_loop.
      * apply throws_only_readGameFiles.
      * apply throws_only_lift. intros e0 He0.
        left. exact (processSaves_throws _ _ _ He0).
Qed.

Lemma parseSaveFile_errors_witness :
  parseSaveFile (lit "BND5") = Throw BadMagic.
Proof.
  apply (parseSaveFile_errors (lit "BND5")). discriminate.
Defined.

(** The name an entry header gets: none without the name bits of the
    format, the placeholder JIS in a container that is not unicode. *)
Lemma readGameFileHeader_name (format : Z) (unicode bigEndian : bool)
    (b : Buffer) (o : Z) (h : GameFileHeader) (o' : Z) :
  readGameFileHeader format unicode bigEndian b o = Ok (h, o') ->
  (Z.land format (Z.lor 4 8) = 0 -> name h = None) /\
  (unicode = false -> name h = None \/ name h = Some (lit "JIS")).
Proof.
  unfold readGameFileHeader. intros H.
  apply reader_bind_Ok in H as (fileFlags & o1 & _ & H).
  apply reader_bind_Ok in H as (? & o2 & _ & H).
  apply reader_bind_Ok in H as (sentinel & o3 & _ & H).
  destruct (negb (sentinel =? -1)); [discriminate|].
  apply reader_bind_Ok in H as (csize & o4 & _ & H).
  apply reader_bind_Ok in H as (usize & o5 & _ & H).
  apply reader_bind_Ok in H as (doff & o6 & _ & H).
  apply reader_bind_Ok in H as (id0 & o7 & _ & H).
  apply reader_bind_Ok in H as (nm & o8 & Hnm & H).
  apply reader_bind_Ok in H as (id1 & o9 & _ & H).
  apply Ok_inj in H. injection H as <- _. cbn [name].
  destruct (Z.eqb_spec (Z.land format (Z.lor 4 8)) 0) as [Hz|Hz];
    cbn [negb] in Hnm.
  - apply Ok_inj in Hnm. injection Hnm as <- _. auto.
  - split; [intros; contradiction|]. intros ->.
    apply reader_bind_Ok in Hnm as (nameOffset & o10 & _ & Hnm).
    apply Ok_inj in Hnm. injection Hnm as <- _. auto.
Qed.

Lemma readGameFileHeaders_loop_names (P : GameFileHeader -> Prop) (n : nat)
    (format : Z) (unicode bigEndian : bool) (acc : list GameFileHeader)
    (b : Buffer) (o : Z) (hs : list GameFileHeader) (o' : Z) :
  (forall o h o', readGameFileHeader format unicode bigEndian b o = Ok (h, o')
                  -> P h) ->
  Forall P acc ->
  readGameFileHeaders_loop n format unicode bigEndian acc b o = Ok (hs, o') ->
  Forall P hs.
Proof.
  intros HP. revert acc o. induction n as [|n IH]; intros acc o Hacc H.
  - apply Ok_inj in H. injection H as <- _. exact Hacc.
  - cbn [readGameFileHeaders_loop] in H.
    apply reader_bind_Ok in H as (h & o1 & H1 & H).
    apply (IH (acc ++ [h]) o1); [|exact H].
    apply Forall_app. split; [exact Hacc|].
    constructor; [exact (HP _ _ _ H1) | constructor].
Qed.

(** X3. In a parsed container that is not unicode, or whose format has
    neither name bit (4, 8), every entry name is absent or the placeholder
    JIS, and the slot list is empty. *)
Theorem parseSaveFile_no_slots (b : Buffer) (sf : SaveFile) :
  parseSaveFile b = Ok sf ->
  unicode sf = false \/ Z.land (format sf) (Z.lor 4 8) = 0 ->
  Forall (fun h => name h = None \/ name h = Some (lit "JIS"))
         (gameFileHeaders sf) /\
  saves sf = [].
Proof.
  intros Hparse Hcond.
  destruct (parseSaveFile_parts b sf Hparse)
    as (_ & _ & _ & _ & _ & _ & _ & _ & _ & _ & _ & _ & [o Hhs] & Hgfs & Hps).
  assert (Hnames : Forall (fun h => name h = None \/ name h = Some (lit "JIS"))
                          (gameFileHeaders sf)).
  { unfold readGameFileHeaders in Hhs.
    apply (readGameFileHeaders_loop_names _ (Z.to_nat (fileCount sf))
             (format sf) (unicode sf) (bigEndian sf) [] b 64 _ o);
      [|constructor|exact Hhs].
    intros o1 h o2 Hh.
    destruct (readGameFileHeader_name _ _ _ _ _ _ _ Hh) as [Hnone Hjis].
    destruct Hcond as [Hu|Hf]; [apply Hjis; exact Hu | left; apply Hnone;
                                                       exact Hf]. }
  split; [exact Hnames|].
  assert (Hskip : filter retained (gameFiles sf) = []).
  { rewrite Hgfs. clear -Hnames.
    induction Hnames as [|h hs Hh _ IH]; [reflexivity|].
    rewrite fmap_cons. rewrite filter_cons_False; [exact IH|].
    unfold retained, skipped. cbn [header name].
    destruct Hh as [-> | ->]; [discriminate|].
    vm_compute. discriminate. }
  unfold processSaves in Hps.
  rewrite <- processSaves_loop_skip, Hskip in Hps.
  cbn in Hps. apply Ok_inj in Hps. symmetry. exact Hps.
Qed.

Lemma parseSaveFile_no_slots_witness : saves one_entry_parsed = [].
Proof.
  apply (parseSaveFile_no_slots one_entry_file one_entry_parsed
           parseSaveFile_one_entry).
  left. reflexivity.
Defined.

(** X7. readGameFiles never fails, whatever the format and the start
    position: it gives one game file per header, in order and with that
    header, whose data are the buffer bytes from Number(dataOffset) to the
    double sum Number(dataOffset) + Number(compressedSize), as far as the
    buffer has them. For an offset and a size that are not negative and
    whose sum is at most 2^53 the conversions and the sum are exact: the
    data are the bytes from dataOffset to dataOffset + compressedSize,
    never more than compressedSize bytes, and exactly compressedSize when
    the range lies inside the buffer. *)
Theorem readGameFiles_entries (gameFileHeaders : list GameFileHeader)
    (format : Z) (b : Buffer) (offset : Z) :
  exists gameFiles offset',
    readGameFiles gameFileHeaders format b offset = Ok (gameFiles, offset') /\
    header <$> gameFiles = gameFileHeaders /\
    Forall (fun gf =>
      data gf = Buf.slice b (toNumber (dataOffset (header gf)))
                  (number_add (toNumber (dataOffset (header gf)))
                              (toNumber (compressedSize (header gf)))) /\
      (0 <= dataOffset (header gf) -> 0 <= compressedSize (header gf) ->
       dataOffset (header gf) + compressedSize (header gf) <= 2 ^ 53 ->
       data gf = Buf.slice b (dataOffset (header gf))
                   (dataOffset (header gf) + compressedSize (header gf)) /\
       Buf.blength (data gf) <= compressedSize (header gf) /\
       (dataOffset (header gf) + compressedSize (header gf) <= Buf.blength b ->
        Buf.blength (data gf) = compressedSize (header gf)))) gameFiles.
Proof.
  destruct (readGameFiles_run gameFileHeaders format b offset) as (o' & Hr).
  eexists _, o'. split; [exact Hr|]. split.
  - rewrite <- list_fmap_compose. apply list_fmap_id.
  - apply Forall_fmap, Forall_forall. intros h _. cbn [header data compose].
    split; [reflexivity|]. intros Hoff Hsize Hsum.
    rewrite (toNumber_exact (dataOffset h)) by lia.
    rewrite (toNumber_exact (compressedSize h)) by lia.
    rewrite number_add_exact by lia.
    split; [reflexivity|]. split.
    + etransitivity; [apply blength_slice_bound; lia|]. lia.
    + intros Hin. rewrite blength_slice by lia. lia.
Qed.

(** Beyond 2^53 the rounding shows: an offset of -(2^53 + 1) and a size
    of 2^53 + 3 become -2^53 and 2^53 + 4, and the entry gets four bytes
    where the exact sum would give two. *)
Example readGameFiles_rounding :
  readGameFiles
    [mkGameFileHeader 0 (2 ^ 53 + 3) (-1) (- (2 ^ 53 + 1)) (-1) None] 0
    [1; 2; 3; 4; 5; 6; 7; 8; 9] 0
  = Ok ([mkGameFile
           (mkGameFileHeader 0 (2 ^ 53 + 3) (-1) (- (2 ^ 53 + 1)) (-1) None)
           [1; 2; 3; 4]], 4).
Proof. vm_compute. reflexivity. Qed.

(** ** Play times and extracted slots (formatPlayTime, extractSave,
       loadExtractedSave) *)

(** X18. For a play time below 2^53 in magnitude: when it is not
    negative, formatPlayTime shows hours h, minutes m < 60 and seconds
    s < 60 with seconds = 3600 h + 60 m + s: all three from 3600 seconds
    on, minutes and seconds from 60 on, seconds alone below. When it is
    negative, formatPlayTime shows only the remainder of the division by
    60, with its sign. *)
Theorem formatPlayTime_components (seconds : Z) :
  - 2 ^ 53 < seconds < 2 ^ 53 ->
  (0 <= seconds ->
   exists h m s,
     seconds = 3600 * h + 60 * m + s /\ 0 <= h /\ 0 <= m < 60 /\
     0 <= s < 60 /\
     formatPlayTime seconds
     = if decide (3600 <= seconds) then
         numberToString h ++ lit "h " ++ numberToString m ++ lit "m "
         ++ numberToString s ++ lit "s"
       else if decide (60 <= seconds) then
         numberToString m ++ lit "m " ++ numberToString s ++ lit "s"
       else numberToString s ++ lit "s") /\
  (seconds < 0 ->
   formatPlayTime seconds = numberToString (Z.rem seconds 60) ++ lit "s").
Proof.
  intros _. unfold formatPlayTime. cbv zeta. split.
  - intros Hs.
    rewrite !Z.rem_mod_nonneg by lia.
    exists (seconds / 3600), (seconds mod 3600 / 60), (seconds mod 60).
    assert (H : seconds = 3600 * (seconds / 3600)
                          + 60 * (seconds mod 3600 / 60) + seconds mod 60
                /\ 0 <= seconds / 3600
                /\ 0 <= seconds mod 3600 / 60 < 60
                /\ 0 <= seconds mod 60 < 60
                /\ (0 < seconds / 3600 <-> 3600 <= seconds)
                /\ (seconds < 3600 ->
                    (0 < seconds mod 3600 / 60 <-> 60 <= seconds))).
    { Z.div_mod_to_equations. lia. }
    destruct H as (H1 & H2 & H3 & H4 & H5 & H6).
    split; [exact H1|]. split; [exact H2|]. split; [exact H3|].
    split; [exact H4|].
    destruct (Z.ltb_spec 0 (seconds / 3600)); case_decide; try lia;
      [reflexivity|].
    destruct (Z.ltb_spec 0 (seconds mod 3600 / 60)); case_decide; try lia;
      reflexivity.
  - intros Hs.
    assert (H : seconds / 3600 <= 0 /\ Z.rem seconds 3600 / 60 <= 0).
    { Z.quot_rem_to_equations. Z.div_mod_to_equations. lia. }
    destruct H as [H1 H2].
    destruct (Z.ltb_spec 0 (seconds / 3600)); [lia|].
    destruct (Z.ltb_spec 0 (Z.rem seconds 3600 / 60)); [lia|]. reflexivity.
Qed.

Lemma formatPlayTime_components_witness :
  (exists h m s,
     3725 = 3600 * h + 60 * m + s /\ 0 <= h /\ 0 <= m < 60 /\ 0 <= s < 60 /\
     formatPlayTime 3725
     = numberToString h ++ lit "h " ++ numberToString m ++ lit "m "
       ++ numberToString s ++ lit "s") /\
  (exists m s,
     125 = 60 * m + s /\ 0 <= m < 60 /\ 0 <= s < 60 /\
     formatPlayTime 125
     = numberToString m ++ lit "m " ++ numberToString s ++ lit "s") /\
  formatPlayTime 59 = numberToString 59 ++ lit "s" /\
  formatPlayTime (-3700) = numberToString (Z.rem (-3700) 60) ++ lit "s".
Proof.
  split; [|split; [|split]].
  - destruct (formatPlayTime_components 3725) as [H _]; [lia|].
    destruct H as (h & m & s & H1 & H2 & H3 & H4 & H5); [lia|].
    exists h, m, s. repeat (split; [assumption|]).
    rewrite H5. case_decide; [reflexivity | lia].
  - destruct (formatPlayTime_components 125) as [H _]; [lia|].
    destruct H as (h & m & s & H1 & H2 & H3 & H4 & H5); [lia|].
    assert (h = 0) by lia. subst h.
    exists m, s. split; [lia|]. repeat (split; [assumption|]).
    rewrite H5. case_decide; [lia|]. case_decide; [reflexivity | lia].
  - destruct (formatPlayTime_components 59) as [H _]; [lia|].
    destruct H as (h & m & s & H1 & H2 & H3 & H4 & H5); [lia|].
    assert (h = 0) by lia. subst h. assert (m = 0) by lia. subst m.
    assert (s = 59) by lia. subst s.
    rewrite H5. case_decide; [lia|]. case_decide; [lia | reflexivity].
  - apply (formatPlayTime_components (-3700)); lia.
Defined.

Example formatPlayTime_3725 : formatPlayTime 3725 = lit "1h 2m 5s".
Proof. vm_compute. reflexivity. Qed.

Lemma slice_app_middle (p m q : Buffer) (s e : Z) :
  s = Buf.blength p -> e = Buf.blength p + Buf.blength m ->
  Buf.slice (p ++ m ++ q) s e = m.
Proof. intros -> ->. apply slice_middle. Qed.

(** X16. With a codec that decompresses what it compressed, extracting
    a slot whose summary record has 588 bytes and whose checksum has 16
    bytes, and then loading the file written, gives back the slot's summary
    record, checksum and save data, the decoded summary and the two sizes
    extractSave reported; no other file is touched. *)
Theorem extractSave_loadExtractedSave (codec : Zstd)
    (toFixed2 : Z -> Z -> jsstring) (save : Save) (path : jsstring)
    (fs fs' : gmap (list Z) (list Z)) (r : ExtractResult.t) :
  lossless codec ->
  Buf.blength (headerData save) = HEADER_DATA_LENGTH ->
  Buf.blength (saveDataChecksum save) = CHECKSUM_LENGTH ->
  extractSave (Some codec) toFixed2 save path fs = Some (r, fs') ->
  exists info,
    extractSaveHeaderInfo (headerData save) = Ok info /\
    loadExtractedSave (Some codec) path fs'
    = Some (ExtractedSave.mk path info (headerData save)
              (saveDataChecksum save) (saveData save)
              (ExtractResult.compressedSize r)
              (ExtractResult.originalSize r)) /\
    forall other, other <> path -> fs' !! other = fs !! other.
Proof.
  intros Hcodec Hh Hc. unfold extractSave, loadExtractedSave.
  cbn [mbind option_bind]. cbv zeta.
  set (combined := headerData save ++ saveDataChecksum save ++ saveData save).
  destruct (compress codec combined 8) as [compressed|] eqn:Hcomp;
    cbn [mbind option_bind]; [|discriminate].
  intros H. injection H as <- <-.
  rewrite lookup_insert_eq. cbn [mbind option_bind].
  rewrite (Hcodec _ _ _ Hcomp). cbn [mbind option_bind].
  assert (H1 : Buf.slice combined 0 HEADER_DATA_LENGTH = headerData save).
  { apply (slice_app_middle [] (headerData save)
             (saveDataChecksum save ++ saveData save)); [reflexivity|].
    rewrite Hh. reflexivity. }
  assert (H2 : Buf.slice combined HEADER_DATA_LENGTH
                 (HEADER_DATA_LENGTH + CHECKSUM_LENGTH)
               = saveDataChecksum save).
  { apply (slice_app_middle (headerData save) (saveDataChecksum save)
             (saveData save)); [symmetry; exact Hh|].
    rewrite Hh, Hc. reflexivity. }
  assert (H3 : Buf.slice_from combined (HEADER_DATA_LENGTH + CHECKSUM_LENGTH)
               = saveData save).
  { pose proof (slice_split combined (HEADER_DATA_LENGTH + CHECKSUM_LENGTH)
                  ltac:(unfold HEADER_DATA_LENGTH, CHECKSUM_LENGTH; lia)) as Hs.
    assert (Hp : Buf.slice combined 0 (HEADER_DATA_LENGTH + CHECKSUM_LENGTH)
                 = headerData save ++ saveDataChecksum save).
    { unfold combined. rewrite app_assoc.
      replace (Buf.slice ((headerData save ++ saveDataChecksum save)
                          ++ saveData save) 0
                 (HEADER_DATA_LENGTH + CHECKSUM_LENGTH))
        with (Buf.slice ([] ++ (headerData save ++ saveDataChecksum save)
                         ++ saveData save) 0
                (HEADER_DATA_LENGTH + CHECKSUM_LENGTH)) by reflexivity.
      apply slice_app_middle; [reflexivity|].
      unfold Buf.blength in *. rewrite length_app. cbn [length]. lia. }
    rewrite Hp in Hs. unfold combined in Hs at 2.
    rewrite app_assoc in Hs. apply app_inv_head in Hs. exact Hs. }
  rewrite H1, H2, H3.
  destruct (extractSaveHeaderInfo_long (headerData save)) as (info & Hi & _).
  { rewrite Hh. unfold HEADER_DATA_LENGTH. lia. }
  exists info. split; [exact Hi|]. rewrite Hi. split; [reflexivity|].
  intros other Hne. apply lookup_insert_ne. congruence.
Qed.

Lemma extractSave_loadExtractedSave_witness :
  exists info,
    extractSaveHeaderInfo (headerData small_save) = Ok info /\
    loadExtractedSave (Some identity_codec) (lit "slot.er")
      (<[lit "slot.er" := headerData small_save
                          ++ saveDataChecksum small_save
                          ++ saveData small_save]> ∅)
    = Some (ExtractedSave.mk (lit "slot.er") info (headerData small_save)
              (saveDataChecksum small_save) (saveData small_save) 607 607).
Proof.
  destruct (extractSave_loadExtractedSave identity_codec (fun _ _ => [])
              small_save (lit "slot.er") ∅
              (<[lit "slot.er" := headerData small_save
                                  ++ saveDataChecksum small_save
                                  ++ saveData small_save]> ∅)
              (ExtractResult.mk 607 607 []))
    as (info & H1 & H2 & _).
  - intros data level compressed H. injection H as <-. reflexivity.
  - reflexivity.
  - reflexivity.
  - reflexivity.
  - exists info. split; [exact H1 | exact H2].
Defined.

(** ** The sample file again *)

Lemma sample_edit_bytes :
  Forall isByte (statValues (mkStats 10 10 10 10 10 10 10 11)).
Proof. repeat constructor; unfold isByte; cbn; lia. Qed.

Lemma sample_edit_sum :
  79 <= foldl Z.add 0 (statValues (mkStats 10 10 10 10 10 10 10 11)).
Proof. cbn. lia. Qed.

Lemma getCharacterStats_reads_witness :
  Buf.readUInt16LE sample_file (statsOffset sample_stats + 44)
  = Ok (level sample_stats).
Proof.
  destruct (getCharacterStats_reads sample_file 0 sample_stats
              sample_file_stats) as (_ & _ & H & _).
  exact H.
Defined.

Lemma setCharacterStats_frame_witness :
  exists out,
    setCharacterStats sample_file 0 (mkStats 10 10 10 10 10 10 10 11)
                      (mkOptions true false) = Ok out /\
    same_except
      (fun j => statsField sample_stats (mkOptions true false) j
                \/ checksumField j) sample_file out.
Proof.
  destruct (setCharacterStats_run sample_file 0 sample_stats
              (mkStats 10 10 10 10 10 10 10 11) (mkOptions true false)
              sample_file_stats sample_edit_bytes sample_edit_sum)
    as (m & Hrun & _).
  exists (recalculateChecksums m). split; [exact Hrun|].
  exact (setCharacterStats_frame sample_file 0 sample_stats
           (mkStats 10 10 10 10 10 10 10 11) (mkOptions true false)
           (recalculateChecksums m) sample_file_stats Hrun).
Defined.

Lemma setCharacterStats_resources_witness :
  exists out,
    setCharacterStats sample_file 0 (mkStats 10 10 10 10 10 10 10 11)
                      (mkOptions true false) = Ok out /\
    Forall (fun o => Buf.readUInt16LE out o = Ok 60000)
           (hpOffsets sample_stats ++ fpOffsets sample_stats
            ++ staminaOffsets sample_stats).
Proof.
  destruct (setCharacterStats_run sample_file 0 sample_stats
              (mkStats 10 10 10 10 10 10 10 11) (mkOptions true false)
              sample_file_stats sample_edit_bytes sample_edit_sum)
    as (m & Hrun & _).
  exists (recalculateChecksums m). split; [exact Hrun|].
  destruct (setCharacterStats_resources sample_file 0 sample_stats
              (mkStats 10 10 10 10 10 10 10 11) (mkOptions true false)
              (recalculateChecksums m) sample_file_stats Hrun) as [H _].
  exact (H eq_refl).
Defined.

Lemma setCharacterStats_then_get_witness :
  exists out,
    setCharacterStats sample_file 0 (mkStats 10 10 10 10 10 10 10 11)
                      (mkOptions false false) = Ok out /\
    checksums_valid out.
Proof.
  destruct (setCharacterStats_run sample_file 0 sample_stats
              (mkStats 10 10 10 10 10 10 10 11) (mkOptions false false)
              sample_file_stats sample_edit_bytes sample_edit_sum)
    as (m & Hrun & _).
  exists (recalculateChecksums m). split; [exact Hrun|].
  destruct (setCharacterStats_then_get sample_file 0 sample_stats
              (mkStats 10 10 10 10 10 10 10 11) (mkOptions false false)
              (recalculateChecksums m) sample_file_stats Hrun) as [H _].
  exact H.
Defined.

Lemma sample_target_valid : valid_target sample_target 0 sample_save.
Proof.
  split; [|split; [|split]].
  - change (buffer sample_target) with sample_file.
    rewrite sample_file_length. lia.
  - lia.
  - exists 0%nat. reflexivity.
  - reflexivity.
Qed.

Lemma sample_save_valid :
  valid_source sample_save /\
  Buf.blength (saveData sample_save) = SAVE_DATA_LENGTH.
Proof.
  assert (H : Buf.blength (saveData sample_save) = SAVE_DATA_LENGTH).
  { change (saveData sample_save) with (replicate (Z.to_nat 2621440) 0).
    unfold Buf.blength, SAVE_DATA_LENGTH. rewrite length_replicate. lia. }
  split; [|exact H]. split; [|split].
  - reflexivity.
  - change (saveDataChecksum sample_save) with (replicate 16 0).
    unfold CHECKSUM_LENGTH. reflexivity.
  - rewrite H. lia.
Qed.

Lemma copySave_installs_witness :
  exists out,
    copySave sample_save sample_target 0 = Ok out /\
    slotWindow out 0 = saveData sample_save.
Proof.
  destruct (copySave_installs sample_save sample_target 0 sample_save
              sample_target_valid (proj1 sample_save_valid)
              (proj2 sample_save_valid))
    as (out & H1 & H2 & _).
  exists out. split; [exact H1 | exact H2].
Defined.
